(** * AnniversaryAPI: authentication and access-control core

    A shallow embedding of the Go sources of the AnniversaryAPI server
    (packages [crypto], [db], [auth], [server] and [pictures]) together
    with the library calls they depend on ([strings], [path/filepath],
    [unicode/utf8], [encoding/json], [fmt], [encoding/base64],
    [jwt-go]), followed by the properties of the specification that
    were checked against it.

    Conventions.
    - A Go [string] and a Go [[]byte] are both a [list ascii]: a finite
      sequence of bytes.  [go"..."] writes a literal.
    - Go [int] is 64 bits wide; [uint32] and [uint8] values are [Z] with
      the range written out where the code depends on it.
    - Constant messages (log lines, JSON keys, error texts) are Rocq
      [string]s: the program never inspects them. *)

From Stdlib Require Import ZArith List Ascii String Bool Lia.
Import ListNotations.

Local Open Scope Z_scope.
Local Open Scope list_scope.

(** ** Go strings *)

Definition gostring := list ascii.

Notation "'go' s" := (list_ascii_of_string s%string)
  (at level 1, s at level 0, format "'go' s").

Definition byte_val (c : ascii) : Z := Z.of_N (N_of_ascii c).
Definition byte_of (z : Z) : ascii := ascii_of_N (Z.to_N z).

(** [s == t] on strings. *)
Fixpoint str_eqb (s t : gostring) : bool :=
  match s, t with
  | [], [] => true
  | a :: s', b :: t' => Ascii.eqb a b && str_eqb s' t'
  | _, _ => false
  end.

(** [len(s)] as a Go [int]. *)
Definition len (s : gostring) : Z := Z.of_nat (List.length s).

(** ** Package [strings] *)

Module strings.

(** [strings.HasPrefix(s, prefix)]. *)
Fixpoint HasPrefix (s prefix : gostring) {struct prefix} : bool :=
  match prefix, s with
  | [], _ => true
  | p :: prefix', c :: s' => Ascii.eqb c p && HasPrefix s' prefix'
  | _ :: _, [] => false
  end.

(** [strings.Split(s, sep)] for a separator of one byte: the pieces of
    [s] between the occurrences of [sep], in order; a string without
    the separator (the empty one included) is its only piece. *)
Fixpoint Split (s : gostring) (sep : ascii) : list gostring :=
  match s with
  | [] => [[]]
  | c :: s' =>
      if Ascii.eqb c sep then [] :: Split s' sep
      else match Split s' sep with
           | p :: ps => (c :: p) :: ps
           | [] => [[c]]
           end
  end.

(** [strings.Join(elems, sep)]. *)
Fixpoint Join (elems : list gostring) (sep : gostring) : gostring :=
  match elems with
  | [] => []
  | [e] => e
  | e :: rest => e ++ sep ++ Join rest sep
  end.

End strings.

(** ** Package [path/filepath] (Unix) *)

Module filepath.

Definition Separator : ascii := "/"%char.
Definition dot : gostring := go".".
Definition dotdot : gostring := go"..".

(** The element loop of [Clean], one path element at a time.  [out] is
    the list of elements written so far, last one first.  An empty
    element and [.] are dropped; [..] removes the last element when
    there is one to remove, is kept on a relative path that has
    nothing left but [..] elements, and is dropped at the root. *)
Fixpoint clean_elems (rooted : bool) (elems : list gostring)
         (out : list gostring) : list gostring :=
  match elems with
  | [] => out
  | e :: rest =>
      if str_eqb e [] || str_eqb e dot then clean_elems rooted rest out
      else if str_eqb e dotdot then
        match out with
        | top :: below =>
            if str_eqb top dotdot
            then clean_elems rooted rest (dotdot :: out)
            else clean_elems rooted rest below
        | [] =>
            if rooted then clean_elems rooted rest []
            else clean_elems rooted rest [dotdot]
        end
      else clean_elems rooted rest (e :: out)
  end.

(** [filepath.Clean(path)]. *)
Definition Clean (path : gostring) : gostring :=
  match path with
  | [] => dot
  | c :: _ =>
      let rooted := Ascii.eqb c Separator in
      let out := rev (clean_elems rooted (strings.Split path Separator) []) in
      match rooted, out with
      | true, _ => Separator :: strings.Join out [Separator]
      | false, [] => dot
      | false, _ => strings.Join out [Separator]
      end
  end.

(** [filepath.Join(elem...)]: the first non-empty element and all that
    follow it are joined with the separator and cleaned; when every
    element is empty the result is the empty string. *)
Fixpoint Join (elem : list gostring) : gostring :=
  match elem with
  | [] => []
  | e :: rest =>
      match e with
      | [] => Join rest
      | _ :: _ => Clean (strings.Join elem [Separator])
      end
  end.

End filepath.


(** ** Numbers *)

Definition minInt64 : Z := - 2 ^ 63.
Definition maxInt64 : Z := 2 ^ 63 - 1.

(** A finite [float64] is a dyadic number [Fnum * 2 ^ Fexp].  JSON
    decoding yields finite values only, so infinities and NaN do not
    occur in the claims of a token. *)
Record float64 := Float { Fnum : Z; Fexp : Z }.

(** [float64(n)] as the decoder of [encoding/json] computes it from the
    decimal text of the integer [n]: the float nearest to [n], ties to
    the even significand of 53 bits. *)
Definition float64_of_int (n : Z) : float64 :=
  let a := Z.abs n in
  let bits := Z.log2 a + 1 in
  if bits <=? 53 then Float n 0
  else
    let sh := bits - 53 in
    let q := Z.shiftr a sh in
    let r := Z.land a (Z.ones sh) in
    let half := Z.shiftl 1 (sh - 1) in
    let q' := if (half <? r) || ((r =? half) && Z.odd q) then q + 1 else q in
    Float (Z.sgn n * q') sh.

(** The integer part of a float, towards zero. *)
Definition float64_trunc (f : float64) : Z :=
  if 0 <=? Fexp f then Fnum f * 2 ^ Fexp f
  else Z.quot (Fnum f) (2 ^ (- Fexp f)).

(** The conversions [int(f)] and [int64(f)]: the fractional part is
    discarded.  For a value outside the range of the integer type the
    language leaves the result to the implementation; amd64 yields the
    least integer. *)
Definition float64_to_int (f : float64) : Z :=
  let t := float64_trunc f in
  if (minInt64 <=? t) && (t <=? maxInt64) then t else minInt64.

(** An integer is a [float64] when it is a significand of at most 53
    bits times a power of two. *)
Definition float64_representable (n : Z) : Prop :=
  exists m e, 0 <= e /\ Z.abs m < 2 ^ 53 /\ n = m * 2 ^ e.

(** ** Package [unicode/utf8] *)

Module utf8.

Definition RuneError : Z := 0xFFFD.

Inductive Size := Two | Three | Four.

Definition within (lo hi : Z) (b : ascii) : bool :=
  (lo <=? byte_val b) && (byte_val b <=? hi).

Definition cont (b : ascii) : bool := within 0x80 0xBF b.

Definition low6 (b : ascii) : Z := Z.land (byte_val b) 0x3F.

(** The table [first] for a leading byte of [0x80] and above: the
    length of the encoding and the range of its second byte. *)
Definition first (x : Z) : option (Size * Z * Z) :=
  if x <? 0xC2 then None
  else if x <=? 0xDF then Some (Two, 0x80, 0xBF)
  else if x =? 0xE0 then Some (Three, 0xA0, 0xBF)
  else if x =? 0xED then Some (Three, 0x80, 0x9F)
  else if x <=? 0xEF then Some (Three, 0x80, 0xBF)
  else if x =? 0xF0 then Some (Four, 0x90, 0xBF)
  else if x <=? 0xF3 then Some (Four, 0x80, 0xBF)
  else if x =? 0xF4 then Some (Four, 0x80, 0x8F)
  else None.

(** The runes of a string, as [DecodeRuneInString] yields them one
    after the other: a byte that does not start a valid encoding
    is [RuneError] of width one. *)
Fixpoint runes (s : gostring) : list Z :=
  match s with
  | [] => []
  | b0 :: t0 =>
      let x := byte_val b0 in
      if x <? 0x80 then x :: runes t0
      else
        match first x, t0 with
        | Some (Two, lo, hi), b1 :: t1 =>
            if within lo hi b1
            then Z.lor (Z.shiftl (Z.land x 0x1F) 6) (low6 b1) :: runes t1
            else RuneError :: runes t0
        | Some (Three, lo, hi), b1 :: b2 :: t2 =>
            if within lo hi b1 && cont b2
            then Z.lor (Z.shiftl (Z.land x 0x0F) 12)
                       (Z.lor (Z.shiftl (low6 b1) 6) (low6 b2)) :: runes t2
            else RuneError :: runes t0
        | Some (Four, lo, hi), b1 :: b2 :: b3 :: t3 =>
            if within lo hi b1 && cont b2 && cont b3
            then Z.lor (Z.shiftl (Z.land x 0x07) 18)
                       (Z.lor (Z.shiftl (low6 b1) 12)
                              (Z.lor (Z.shiftl (low6 b2) 6) (low6 b3))) :: runes t3
            else RuneError :: runes t0
        | _, _ => RuneError :: runes t0
        end
  end.

(** [utf8.ValidString(s)]: every byte belongs to a valid encoding. *)
Fixpoint ValidString (s : gostring) : bool :=
  match s with
  | [] => true
  | b0 :: t0 =>
      let x := byte_val b0 in
      if x <? 0x80 then ValidString t0
      else
        match first x, t0 with
        | Some (Two, lo, hi), b1 :: t1 => within lo hi b1 && ValidString t1
        | Some (Three, lo, hi), b1 :: b2 :: t2 =>
            within lo hi b1 && cont b2 && ValidString t2
        | Some (Four, lo, hi), b1 :: b2 :: b3 :: t3 =>
            within lo hi b1 && cont b2 && cont b3 && ValidString t3
        | _, _ => false
        end
  end.

End utf8.

(** ** Package [encoding/json]: strings *)

Module json.

(** U+FFFD in UTF-8. *)
Definition replacement : gostring := [byte_of 0xEF; byte_of 0xBF; byte_of 0xBD].

(** A string written by [Marshal] and read by [Unmarshal].  The
    encoder walks the string with [utf8.DecodeRuneInString] and writes
    [\ufffd] for every byte that does not begin a valid encoding;
    everything else, escaped or not, is read as it was. *)
Fixpoint readBack (s : gostring) : gostring :=
  match s with
  | [] => []
  | b0 :: t0 =>
      let x := byte_val b0 in
      if x <? 0x80 then b0 :: readBack t0
      else
        match utf8.first x, t0 with
        | Some (utf8.Two, lo, hi), b1 :: t1 =>
            if utf8.within lo hi b1 then b0 :: b1 :: readBack t1
            else replacement ++ readBack t0
        | Some (utf8.Three, lo, hi), b1 :: b2 :: t2 =>
            if utf8.within lo hi b1 && utf8.cont b2
            then b0 :: b1 :: b2 :: readBack t2
            else replacement ++ readBack t0
        | Some (utf8.Four, lo, hi), b1 :: b2 :: b3 :: t3 =>
            if utf8.within lo hi b1 && utf8.cont b2 && utf8.cont b3
            then b0 :: b1 :: b2 :: b3 :: readBack t3
            else replacement ++ readBack t0
        | _, _ => replacement ++ readBack t0
        end
  end.

End json.

(** ** Package [jwt] (jwt-go) *)

Module jwt.

Inductive Hash := SHA256 | SHA384 | SHA512.

(** The registered signing methods, by family. *)
Inductive SigningMethod :=
| SigningMethodHMAC (h : Hash)
| SigningMethodRSA (h : Hash)
| SigningMethodRSAPSS (h : Hash)
| SigningMethodECDSA (h : Hash)
| SigningMethodNone.

Definition SigningMethodHS256 := SigningMethodHMAC SHA256.

(** A claim value, [interface{}]: what the program stores before the
    token is signed ([VInt], [VString]) and what the JSON decoder
    builds ([VFloat64] for every number). *)
Inductive Value :=
| VNil
| VBool (b : bool)
| VInt (n : Z)
| VFloat64 (f : float64)
| VString (s : gostring)
| VComposite (json : gostring).

(** [MapClaims]: a map from claim names to values; the first binding
    of a name is the one in force. *)
Definition MapClaims := list (gostring * Value).

Fixpoint get (m : MapClaims) (k : gostring) : option Value :=
  match m with
  | [] => None
  | (k', v) :: m' => if str_eqb k' k then Some v else get m' k
  end.

Definition set (m : MapClaims) (k : gostring) (v : Value) : MapClaims :=
  (k, v) :: filter (fun kv => negb (str_eqb (fst kv) k)) m.

(** The block of the hash, in bytes. *)
Definition blockSize (h : Hash) : nat :=
  match h with
  | SHA256 => 64%nat
  | SHA384 | SHA512 => 128%nat
  end.

(** The key as [hmac.New] takes it in: a key longer than the block is
    replaced by its hash, and every key is filled up to the block with
    zero bytes.  A key and the same key followed by zero bytes are one
    key to the keyed hash. *)
Inductive BlockKey :=
| Padded (block : gostring)
| Hashed (key : gostring).

Definition blockKey (h : Hash) (key : gostring) : BlockKey :=
  if Nat.leb (List.length key) (blockSize h)
  then Padded (key ++ repeat (byte_of 0) (blockSize h - List.length key))
  else Hashed key.

(** The signature segment.  The keyed hash is ideal: a tag is valid
    for a block key, a header and a body exactly when it was computed
    from them. *)
Inductive Signature :=
| Tag (h : Hash) (key : BlockKey) (alg : SigningMethod) (claims : MapClaims)
| SigBytes (b : gostring).

(** [hmac.New(h, key)], the signing string written, [Sum(nil)]. *)
Definition MAC (h : Hash) (key : gostring) (alg : SigningMethod)
           (claims : MapClaims) : Signature :=
  Tag h (blockKey h key) alg claims.

(** The compact serialisation, by what [Parse] reads off it: a string
    that is not three segments with a JSON header and a JSON body, or
    the signing method named by the header (if any is registered under
    that name), the decoded body and the signature. *)
Inductive TokenString :=
| Malformed (raw : gostring)
| Segments (alg : option SigningMethod) (claims : MapClaims) (sig : Signature).

Record Token := {
  Method : SigningMethod;
  Claims : MapClaims;
  Valid : bool
}.

(** [jwt.New(method)]. *)
Definition New (method : SigningMethod) : Token :=
  {| Method := method; Claims := []; Valid := false |}.

Definition setClaim (t : Token) (k : gostring) (v : Value) : Token :=
  {| Method := Method t; Claims := set (Claims t) k v; Valid := Valid t |}.

(** What a value becomes when it is written as JSON and read back
    into [interface{}]: a number becomes a [float64], and a string
    loses the bytes that are not valid UTF-8 to U+FFFD. *)
Definition json_decoded (v : Value) : Value :=
  match v with
  | VInt n => VFloat64 (float64_of_int n)
  | VString s => VString (json.readBack s)
  | _ => v
  end.

(** [token.SignedString(key)] with a [[]byte] key: only the HMAC
    methods accept such a key. *)
Definition SignedString (t : Token) (key : gostring) : TokenString + string :=
  match Method t with
  | SigningMethodHMAC h =>
      let body := map (fun kv => (fst kv, json_decoded (snd kv))) (Claims t) in
      inl (Segments (Some (Method t)) body (MAC h key (Method t) body))
  | _ => inr "key is of invalid type"%string
  end.

Definition Value_eq_dec (a b : Value) : {a = b} + {a <> b}.
Proof.
  decide equality;
    try apply (list_eq_dec ascii_dec); try apply Z.eq_dec; try apply bool_dec.
  decide equality; apply Z.eq_dec.
Defined.

Definition MapClaims_eq_dec (a b : MapClaims) : {a = b} + {a <> b}.
Proof.
  apply list_eq_dec. decide equality.
  - apply Value_eq_dec.
  - apply (list_eq_dec ascii_dec).
Defined.

Definition Signature_eq_dec (a b : Signature) : {a = b} + {a <> b}.
Proof.
  decide equality; try apply (list_eq_dec ascii_dec);
    try apply MapClaims_eq_dec; repeat decide equality.
Defined.

(** [method.Verify(signingString, signature, key)] with a [[]byte]
    key. *)
Definition Verify (method : SigningMethod) (claims : MapClaims)
           (sig : Signature) (key : gostring) : bool :=
  match method with
  | SigningMethodHMAC h =>
      if Signature_eq_dec sig (MAC h key method claims) then true else false
  | _ => false
  end.

Definition verifyExp (exp now : Z) (required : bool) : bool :=
  if exp =? 0 then negb required else now <=? exp.
Definition verifyIat (iat now : Z) (required : bool) : bool :=
  if iat =? 0 then negb required else iat <=? now.
Definition verifyNbf (nbf now : Z) (required : bool) : bool :=
  if nbf =? 0 then negb required else nbf <=? now.

Definition verifyTime (check : Z -> Z -> bool -> bool)
           (m : MapClaims) (name : gostring) (now : Z) : bool :=
  match get m name with
  | Some (VFloat64 f) => check (float64_to_int f) now false
  | _ => true
  end.

(** [MapClaims.Valid()]: the time claims that are present must hold. *)
Definition MapClaims_Valid (m : MapClaims) (now : Z) : bool :=
  verifyTime verifyExp m go"exp" now
  && verifyTime verifyIat m go"iat" now
  && verifyTime verifyNbf m go"nbf" now.

(** [jwt.Parse(tokenString, keyFunc)] at the time [now].  The error,
    when there is one, is [Some]. *)
Definition Parse (tokenString : TokenString)
           (keyFunc : Token -> gostring + string) (now : Z)
  : Token * option string :=
  match tokenString with
  | Malformed _ =>
      (New SigningMethodNone, Some "token contains an invalid number of segments"%string)
  | Segments None claims _ =>
      ({| Method := SigningMethodNone; Claims := claims; Valid := false |},
       Some "signing method (alg) is unavailable."%string)
  | Segments (Some method) claims sig =>
      let token := {| Method := method; Claims := claims; Valid := false |} in
      match keyFunc token with
      | inr e => (token, Some e)
      | inl key =>
          if MapClaims_Valid claims now && Verify method claims sig key
          then ({| Method := method; Claims := claims; Valid := true |}, None)
          else (token, Some "token is invalid"%string)
      end
  end.

End jwt.

(** ** HTTP responses and the request context *)

(** What a handler writes: a JSON object with one field ([c.JSON]), a
    JSON object carrying a token, the bytes of a file ([c.File]), or a
    bare status. *)
Inductive Response :=
| JSON (status : Z) (key value : string)
| JSONToken (status : Z) (token : jwt.TokenString)
| File (path : gostring) (content : gostring)
| Status (status : Z).

Definition StatusOK := 200.
Definition StatusBadRequest := 400.
Definition StatusUnauthorized := 401.
Definition StatusForbidden := 403.
Definition StatusNotFound := 404.
Definition StatusConflict := 409.
Definition StatusInternalServerError := 500.

(** [db.User]. *)
Record User := { ID : Z; Username : gostring; Password : gostring }.

Definition emptyUser : User := {| ID := 0; Username := []; Password := [] |}.

(** The part of [*gin.Context] the handlers touch: the response sent so
    far, whether the chain of handlers was aborted, and the principal
    stored for the handlers that follow. *)
Record Context := {
  written : option Response;
  aborted : bool;
  principal : option (Z * gostring)
}.

Definition newContext : Context :=
  {| written := None; aborted := false; principal := None |}.

Module gin.

(** [c.JSON] and its kin: the first response written is the one the
    client receives. *)
Definition write (c : Context) (r : Response) : Context :=
  {| written := match written c with Some r0 => Some r0 | None => Some r end;
     aborted := aborted c; principal := principal c |}.

(** [c.Abort()]. *)
Definition Abort (c : Context) : Context :=
  {| written := written c; aborted := true; principal := principal c |}.

(** [c.Set("user_id", id); c.Set("username", name)]. *)
Definition SetPrincipal (c : Context) (id : Z) (name : gostring) : Context :=
  {| written := written c; aborted := aborted c; principal := Some (id, name) |}.

End gin.

(** A call either returns or panics; the state reached is kept in both
    cases. *)
Inductive Outcome (S : Type) : Type :=
| Returned (s : S)
| Panicked (s : S).

Arguments Returned {S} s.
Arguments Panicked {S} s.

Definition bind {S : Type} (o : Outcome S) (k : S -> Outcome S) : Outcome S :=
  match o with
  | Returned s => k s
  | Panicked s => Panicked s
  end.

Notation "'do' s <- o ; k" := (bind o (fun s => k))
  (at level 10, s name, o at level 100, k at level 200).

(** A Go [error] value is [None] when it is [nil]. *)
Definition error := option string.

(** [nil] is dereferenced when [Error] is called on it. *)
Definition Error_method {S : Type} (err : error) (s : S) : Outcome S :=
  match err with
  | Some _ => Returned s
  | None => Panicked s
  end.

(** ** Package [pictures] *)

Module pictures.

(** The part of [time.Now()] the handler reads. *)
Record Time := { Day : Z; Month : Z }.

(** The three package constants of the date check.  Their declaration
    is not part of the sources at hand, so they are parameters of the
    model. *)
Record Calendar := {
  anniversaryDay : Z;
  valentineDay : Z;
  valentineMonth : Z
}.

(** Modelled from the spec: the declaration of [valentineDay] and
    [valentineMonth] is missing; the specification fixes Valentine's
    Day as February 14 and leaves the anniversary day to the
    configuration. *)
Definition calendar (anniversary : Z) : Calendar :=
  {| anniversaryDay := anniversary; valentineDay := 14; valentineMonth := 2 |}.

(** [os.Stat] followed by [c.File]: a path either names a file with
    its bytes or does not exist. *)
Definition FileSystem := gostring -> option gostring.

Record PicturesService := { basePath : gostring }.

(** [ErrorHandler]: the counter is incremented and [err.Error()] is
    logged. *)
Definition ErrorHandler {S : Type} (err : error) (s : S) : Outcome S :=
  Error_method err s.

(** The condition of the first [if] of [GetPicture]:
    [Day() != anniversaryDay && (Month() != valentineDay && Month() != valentineMonth)].
    The three calls of [time.Now()] are taken at one instant. *)
Definition outsideAllowedDates (cal : Calendar) (now : Time) : bool :=
  negb (Day now =? anniversaryDay cal)
  && (negb (Month now =? valentineDay cal)
      && negb (Month now =? valentineMonth cal)).

(** [GetPicture]: the date gate, the path check, the existence check,
    then the file. *)
Definition GetPicture (svc : PicturesService) (cal : Calendar)
           (now : Time) (fs : FileSystem) (name : gostring)
           (c : Context) : Outcome Context :=
  if outsideAllowedDates cal now then
    Returned (gin.write c (JSON StatusForbidden "error" "access denied"))
  else
    let filePath := filepath.Join [basePath svc; name] in
    if negb (strings.HasPrefix filePath (basePath svc)) then
      do c <- ErrorHandler (Some "attempt to access a file outside the base path"%string) c;
      Returned (gin.write c (JSON StatusBadRequest "error" "invalid file path"))
    else
      match fs filePath with
      | None =>
          do c <- ErrorHandler (Some "no such file or directory"%string) c;
          Returned (gin.write c (JSON StatusNotFound "error" "picture not found"))
      | Some content => Returned (gin.write c (File filePath content))
      end.

(** A cleaned path lies in the directory [base] when it is [base]
    itself or continues it after a separator. *)
Definition insideDir (base p : gostring) : bool :=
  str_eqb p base || strings.HasPrefix p (base ++ [filepath.Separator]).

End pictures.

(** ** Package [db] *)

Module db.

(** The tables [users] and [keys], rows in the order of their row
    ids.  Neither table has a uniqueness constraint besides the id. *)
Record SQLiteDB := { users : list User; keys : list gostring }.

Definition errDriver : string := "database error".
Definition ErrNoRows : string := "sql: no rows in result set".

(** The row id given to a new row of a table with an
    [INTEGER PRIMARY KEY]: 1 in an empty table, else one more than the
    greatest, negative ones included.  When the greatest id is the
    greatest 64-bit integer SQLite draws an unused id at random
    instead; the program never writes an id, so its tables, filled
    from 1 upwards, do not get there, and the model leaves that case
    out. *)
Definition nextID (us : list User) : Z :=
  match us with
  | [] => 1
  | u :: us' => 1 + fold_right (fun v m => Z.max (ID v) m) (ID u) us'
  end.

(** Every statement may fail in the driver ([fault]); a statement
    that fails leaves the tables as they were. *)

(** [SELECT id, username, password FROM users WHERE username = ?],
    first row. *)
Definition GetUser (fault : bool) (s : SQLiteDB) (username : gostring)
  : User * error :=
  if fault then (emptyUser, Some errDriver)
  else match find (fun u => str_eqb (Username u) username) (users s) with
       | Some u => (u, None)
       | None => (emptyUser, Some ErrNoRows)
       end.

(** [INSERT INTO users (username, password) VALUES (?, ?)]. *)
Definition insertUser (fault : bool) (s : SQLiteDB) (username password : gostring)
  : error * SQLiteDB :=
  if fault then (Some errDriver, s)
  else (None,
        {| users := users s ++ [{| ID := nextID (users s);
                                   Username := username;
                                   Password := password |}];
           keys := keys s |}).

(** [CreateUser]: the insertion, then [GetUser]. *)
Definition CreateUser (faultInsert faultSelect : bool) (s : SQLiteDB)
           (username password : gostring) : User * error * SQLiteDB :=
  match insertUser faultInsert s username password with
  | (Some e, s') => (emptyUser, Some e, s')
  | (None, s') => (GetUser faultSelect s' username, s')
  end.

(** [SELECT COUNT( * ) FROM keys WHERE key = ?], then [count > 0]. *)
Definition ContainsKey (fault : bool) (s : SQLiteDB) (key : gostring)
  : bool * error :=
  if fault then (false, Some errDriver)
  else (0 <? Z.of_nat (List.length (filter (str_eqb key) (keys s))), None).

(** [DELETE FROM keys WHERE key = ?]. *)
Definition DeleteKey (fault : bool) (s : SQLiteDB) (key : gostring)
  : error * SQLiteDB :=
  if fault then (Some errDriver, s)
  else (None, {| users := users s;
                 keys := filter (fun k => negb (str_eqb k key)) (keys s) |}).

End db.

(** ASCII letters to lower case; [strings.ToLower] agrees with it on
    ASCII strings. *)
Definition asciiToLower (s : gostring) : gostring :=
  map (fun c => if (65 <=? byte_val c) && (byte_val c <=? 90)
                then byte_of (byte_val c + 32) else c) s.

(** ** Package [auth] *)

Module auth.

Record AuthService := { jwtKey : gostring; apiKey : gostring }.

Record RegisterRequest := {
  reqUsername : gostring;
  reqPassword : gostring;
  reqKey : gostring
}.

(** What one run of a handler meets outside the program: which
    statements fail in the driver, what [svc.argon.Hash] returns with
    the salt it draws, and [strings.ToLower]. *)
Record Env := {
  containsKeyFails : bool;
  getUserFails : bool;
  insertFails : bool;
  selectFails : bool;
  deleteKeyFails : bool;
  argonHash : gostring -> gostring + string;
  ToLower : gostring -> gostring
}.

Definition ErrorHandler {S : Type} (err : error) (s : S) : Outcome S :=
  Error_method err s.

(** The callback given to [jwt.Parse]: the key, for an HMAC method
    only. *)
Definition keyFunc (svc : AuthService) (token : jwt.Token) : gostring + string :=
  match jwt.Method token with
  | jwt.SigningMethodHMAC _ => inl (jwtKey svc)
  | _ => inr "unexpected signing method"%string
  end.

Definition unauthorized (c : Context) : Context :=
  gin.Abort (gin.write c (JSON 401 "error" "Unauthorized")).

(** [validateToken]. *)
Definition validateToken (svc : AuthService) (now : Z)
           (tokenString : jwt.TokenString) (c : Context)
  : User * bool * Context :=
  let (token, err) := jwt.Parse tokenString (keyFunc svc) now in
  match err with
  | Some _ => (emptyUser, false, unauthorized c)
  | None =>
      if negb (jwt.Valid token) then (emptyUser, false, unauthorized c)
      else
        match jwt.get (jwt.Claims token) go"user_id" with
        | Some (jwt.VFloat64 userID) =>
            match jwt.get (jwt.Claims token) go"username" with
            | Some (jwt.VString username) =>
                ({| ID := float64_to_int userID;
                    Username := username;
                    Password := [] |}, true, c)
            | _ => (emptyUser, false, unauthorized c)
            end
        | _ => (emptyUser, false, unauthorized c)
        end
  end.

(** The token of a user: method HS256, claims [username] and
    [user_id], signed with the key of the service. *)
Definition newToken (user : User) : jwt.Token :=
  let token := jwt.New jwt.SigningMethodHS256 in
  let token := jwt.setClaim token go"username" (jwt.VString (Username user)) in
  jwt.setClaim token go"user_id" (jwt.VInt (ID user)).

(** [generateAndSendToken]. *)
Definition generateAndSendToken (svc : AuthService) (user : User)
  : jwt.TokenString + string :=
  jwt.SignedString (newToken user) (jwtKey svc).

Definition respond {D : Type} (st : Context * D) (r : Response) : Context * D :=
  (gin.write (fst st) r, snd st).

Definition internalError : Response :=
  JSON StatusInternalServerError "error" "internal server error".

(** [Register], on the request body as [ShouldBindJSON] reads it
    ([None] when binding fails). *)
Definition Register (svc : AuthService) (env : Env)
           (body : option RegisterRequest)
           (st : Context * db.SQLiteDB) : Outcome (Context * db.SQLiteDB) :=
  match body with
  | None =>
      do st <- ErrorHandler (Some "invalid request"%string) st;
      Returned (respond st (JSON StatusBadRequest "error" "invalid request"))
  | Some req =>
      match db.ContainsKey (containsKeyFails env) (snd st) (reqKey req) with
      | (_, Some e) =>
          do st <- ErrorHandler (Some e) st;
          Returned (respond st internalError)
      | (false, None) =>
          Returned (respond st (JSON StatusUnauthorized "error" "invalid key"))
      | (true, None) =>
          let username := ToLower env (reqUsername req) in
          match db.GetUser (getUserFails env) (snd st) username with
          | (_, None) =>
              Returned (respond st (JSON StatusConflict "error" "username already exists"))
          | (_, Some _) =>
              match argonHash env (reqPassword req) with
              | inr e =>
                  do st <- ErrorHandler (Some e) st;
                  Returned (respond st internalError)
              | inl hash =>
                  match db.CreateUser (insertFails env) (selectFails env)
                                      (snd st) username hash with
                  | (_, Some e, d) =>
                      do st <- ErrorHandler (Some e) (fst st, d);
                      Returned (respond st internalError)
                  | (user, None, d) =>
                      match db.DeleteKey (deleteKeyFails env) d (reqKey req) with
                      | (Some e, d) =>
                          do st <- ErrorHandler (Some e) (fst st, d);
                          Returned (respond st internalError)
                      | (None, d) =>
                          match jwt.SignedString (newToken user) (jwtKey svc) with
                          | inr e =>
                              do st <- ErrorHandler (Some e) (fst st, d);
                              Returned (respond st
                                (JSON StatusInternalServerError "error" "failed to generate token"))
                          | inl tokenString =>
                              Returned (respond (fst st, d) (JSONToken StatusOK tokenString))
                          end
                      end
                  end
              end
          end
      end
  end.

Definition prefix : gostring := go"Bearer ".

(** [Refresh].  [wire] reads a header suffix as a compact token. *)
Definition Refresh (svc : AuthService) (now : Z)
           (wire : gostring -> jwt.TokenString)
           (authHeader : gostring) (c : Context) : Outcome Context :=
  if str_eqb authHeader [] then
    do c <- ErrorHandler None c;
    Returned (gin.write c (JSON 401 "error" "Authorization header is missing"))
  else if negb (strings.HasPrefix authHeader prefix) then
    do c <- ErrorHandler None c;
    Returned (gin.write c (JSON 401 "error" "Authorization header must start with Bearer"))
  else
    let jwtToken := skipn (List.length prefix) authHeader in
    if str_eqb jwtToken [] then
      do c <- ErrorHandler None c;
      Returned (gin.write c (JSON 401 "error" "Token is missing"))
    else
      let '(user, valid, c) := validateToken svc now (wire jwtToken) c in
      if negb valid then
        do c <- ErrorHandler None c;
        Returned (gin.write c (JSON 401 "error" "Unauthorized"))
      else
        match jwt.SignedString (newToken user) (jwtKey svc) with
        | inr _ => Returned (gin.write c (JSON 401 "error" "failed to sign token"))
        | inl tokenString => Returned (gin.write c (JSONToken 200 tokenString))
        end.

(** *** [Register] statement by statement

    The same handler as a machine that performs one database
    statement per step, so that the statements of two requests can be
    interleaved.  Work that touches no table (hashing, signing)
    belongs to the step of the next statement. *)
Inductive RegisterPC :=
| AtContainsKey
| AtGetUser
| AtInsert (hash : gostring)
| AtSelect
| AtDeleteKey (user : User)
| Finished (r : Response).

Definition step (svc : AuthService) (env : Env) (req : RegisterRequest)
           (pc : RegisterPC) (d : db.SQLiteDB) : RegisterPC * db.SQLiteDB :=
  let username := ToLower env (reqUsername req) in
  match pc with
  | AtContainsKey =>
      match db.ContainsKey (containsKeyFails env) d (reqKey req) with
      | (_, Some _) => (Finished internalError, d)
      | (false, None) =>
          (Finished (JSON StatusUnauthorized "error" "invalid key"), d)
      | (true, None) => (AtGetUser, d)
      end
  | AtGetUser =>
      match db.GetUser (getUserFails env) d username with
      | (_, None) =>
          (Finished (JSON StatusConflict "error" "username already exists"), d)
      | (_, Some _) =>
          match argonHash env (reqPassword req) with
          | inr _ => (Finished internalError, d)
          | inl hash => (AtInsert hash, d)
          end
      end
  | AtInsert hash =>
      match db.insertUser (insertFails env) d username hash with
      | (Some _, d) => (Finished internalError, d)
      | (None, d) => (AtSelect, d)
      end
  | AtSelect =>
      match db.GetUser (selectFails env) d username with
      | (_, Some _) => (Finished internalError, d)
      | (user, None) => (AtDeleteKey user, d)
      end
  | AtDeleteKey user =>
      match db.DeleteKey (deleteKeyFails env) d (reqKey req) with
      | (Some _, d) => (Finished internalError, d)
      | (None, d) =>
          match jwt.SignedString (newToken user) (jwtKey svc) with
          | inr _ =>
              (Finished (JSON StatusInternalServerError "error" "failed to generate token"), d)
          | inl tokenString => (Finished (JSONToken StatusOK tokenString), d)
          end
      end
  | Finished r => (Finished r, d)
  end.

(** Two requests served at once: at each turn the schedule names the
    request whose next statement runs ([true] for the first). *)
Fixpoint interleave (svc : AuthService) (env : Env)
         (reqA reqB : RegisterRequest) (schedule : list bool)
         (a b : RegisterPC) (d : db.SQLiteDB)
  : RegisterPC * RegisterPC * db.SQLiteDB :=
  match schedule with
  | [] => (a, b, d)
  | true :: rest =>
      let (a', d') := step svc env reqA a d in
      interleave svc env reqA reqB rest a' b d'
  | false :: rest =>
      let (b', d') := step svc env reqB b d in
      interleave svc env reqA reqB rest a b' d'
  end.

(** One request served alone. *)
Fixpoint run (svc : AuthService) (env : Env) (req : RegisterRequest)
         (fuel : nat) (pc : RegisterPC) (d : db.SQLiteDB)
  : RegisterPC * db.SQLiteDB :=
  match fuel with
  | O => (pc, d)
  | S fuel' =>
      let (pc', d') := step svc env req pc d in
      run svc env req fuel' pc' d'
  end.

End auth.

(** ** Package [server] *)

Module server.

Record Api := { jwtKey : gostring; prometheusKey : gostring; apiKey : gostring }.

Definition keyFunc (a : Api) (token : jwt.Token) : gostring + string :=
  match jwt.Method token with
  | jwt.SigningMethodHMAC _ => inl (jwtKey a)
  | _ => inr "unexpected signing method"%string
  end.

Definition unauthorized (c : Context) : Context :=
  gin.Abort (gin.write c (JSON 401 "error" "Unauthorized")).

(** [validateToken]. *)
Definition validateToken (a : Api) (now : Z)
           (tokenString : jwt.TokenString) (c : Context)
  : User * bool * Context :=
  let (token, err) := jwt.Parse tokenString (keyFunc a) now in
  match err with
  | Some _ => (emptyUser, false, unauthorized c)
  | None =>
      if negb (jwt.Valid token) then (emptyUser, false, unauthorized c)
      else
        match jwt.get (jwt.Claims token) go"user_id" with
        | Some (jwt.VFloat64 userID) =>
            match jwt.get (jwt.Claims token) go"username" with
            | Some (jwt.VString username) =>
                ({| ID := float64_to_int userID;
                    Username := username;
                    Password := [] |}, true, c)
            | _ => (emptyUser, false, unauthorized c)
            end
        | _ => (emptyUser, false, unauthorized c)
        end
  end.

Definition prefix : gostring := go"Bearer ".

(** [AuthMiddleware].  [wire] reads a header suffix as a compact
    token.  The handlers that follow run when the chain was not
    aborted. *)
Definition AuthMiddleware (a : Api) (now : Z)
           (wire : gostring -> jwt.TokenString)
           (authHeader : gostring) (c : Context) : Context :=
  if str_eqb authHeader [] then
    gin.Abort (gin.write c (JSON 401 "error" "Authorization header is missing"))
  else if negb (strings.HasPrefix authHeader prefix) then
    gin.Abort (gin.write c (JSON 401 "error" "Authorization header must start with Bearer"))
  else
    let jwtToken := skipn (List.length prefix) authHeader in
    if str_eqb jwtToken [] then
      gin.Abort (gin.write c (JSON 401 "error" "Token is missing"))
    else
      let '(user, ok, c) := validateToken a now (wire jwtToken) c in
      if negb ok then c
      else gin.SetPrincipal c (ID user) (Username user).

(** The recovery handler that [gin.Default()] installs: a panic of a
    handler becomes status 500, unless a response was sent before. *)
Definition Recovery (o : Outcome Context) : Context :=
  match o with
  | Returned c => c
  | Panicked c => gin.Abort (gin.write c (Status StatusInternalServerError))
  end.

End server.

(** ** Package [strconv] *)

Module strconv.

Definition isDigit (r : Z) : bool := (48 <=? r) && (r <=? 57).

(** The value of a run of decimal digits read after [acc]; any other
    character is a syntax error. *)
Fixpoint digitsValue (tok : list Z) (acc : Z) : option Z :=
  match tok with
  | [] => Some acc
  | r :: tok' =>
      if isDigit r then digitsValue tok' (acc * 10 + (r - 48)) else None
  end.

(** [ParseUint(tok, 10, 64)]. *)
Definition ParseUint (tok : list Z) : option Z :=
  match tok with
  | [] => None
  | _ :: _ =>
      match digitsValue tok 0 with
      | Some v => if v <? 2 ^ 64 then Some v else None
      | None => None
      end
  end.

(** [ParseInt(tok, 10, 64)]. *)
Definition ParseInt (tok : list Z) : option Z :=
  match tok with
  | [] => None
  | r :: tok' =>
      let neg := r =? 45 in
      let digits := if (r =? 43) || (r =? 45) then tok' else tok in
      match digits with
      | [] => None
      | _ :: _ =>
          match digitsValue digits 0 with
          | Some v =>
              if neg then (if v <=? 2 ^ 63 then Some (- v) else None)
              else (if v <? 2 ^ 63 then Some v else None)
          | None => None
          end
      end
  end.

Definition digit (d : Z) : ascii := byte_of (48 + d).

(** The decimal digits of [n >= 0], most significant first; [fuel]
    bounds their number. *)
Fixpoint decimal (fuel : nat) (n : Z) : gostring :=
  match fuel with
  | O => []
  | S fuel' =>
      if n <? 10 then [digit n]
      else decimal fuel' (n / 10) ++ [digit (n mod 10)]
  end.

(** [FormatInt(n, 10)], which is also what the verb [%d] prints. *)
Definition FormatInt (n : Z) : gostring :=
  if n <? 0 then "-"%char :: decimal (S (Z.to_nat (Z.log2 (- n)))) (- n)
  else decimal (S (Z.to_nat (Z.log2 n))) n.

End strconv.

(** ** Package [fmt]: scanning *)

Module fmt.

(** [isSpace]. *)
Definition isSpace (r : Z) : bool :=
  ((0x0009 <=? r) && (r <=? 0x000d))
  || (r =? 0x0020) || (r =? 0x0085) || (r =? 0x00a0) || (r =? 0x1680)
  || ((0x2000 <=? r) && (r <=? 0x200a))
  || ((0x2028 <=? r) && (r <=? 0x2029))
  || (r =? 0x202f) || (r =? 0x205f) || (r =? 0x3000).

(** A scanner reads runes from the input and returns a value and the
    input left, or fails ([None]); [Sscanf] turns every failure into
    its error result.  Inputs are shorter than the [2^30] runes at
    which [Sscanf] stops reading. *)
Definition Scanner (A : Type) := list Z -> option (A * list Z).

Definition andThen {A B : Type} (p : Scanner A) (k : A -> Scanner B) : Scanner B :=
  fun rs => match p rs with
            | Some (a, rs') => k a rs'
            | None => None
            end.

Definition ret {A : Type} (a : A) : Scanner A := fun rs => Some (a, rs).

(** [SkipSpace] as [Sscanf] runs it: spaces are passed over, a
    newline is an error. *)
Fixpoint skip (rs : list Z) : option (list Z) :=
  match rs with
  | [] => Some []
  | r :: rest =>
      if r =? 10 then None
      else if isSpace r then skip rest
      else Some rs
  end.

Definition SkipSpace : Scanner unit :=
  fun rs => match skip rs with
            | Some rs' => Some (tt, rs')
            | None => None
            end.

(** [notEOF]. *)
Definition notEOF : Scanner unit :=
  fun rs => match rs with [] => None | _ :: _ => Some (tt, rs) end.

(** The digits the verb [%d] accepts. *)
Definition isNumberRune (r : Z) : bool := strconv.isDigit r.
Definition isSign (r : Z) : bool := (r =? 43) || (r =? 45).

(** [for s.accept(ok) {}]: the longest run of accepted runes. *)
Fixpoint acceptAll (ok : Z -> bool) (rs : list Z) : list Z * list Z :=
  match rs with
  | [] => ([], [])
  | r :: rest =>
      if ok r then let (tok, rest') := acceptAll ok rest in (r :: tok, rest')
      else ([], rs)
  end.

(** [s.accept(ok)] once. *)
Definition accept (ok : Z -> bool) : Scanner (list Z) :=
  fun rs => match rs with
            | r :: rest => if ok r then Some ([r], rest) else Some ([], rs)
            | [] => Some ([], [])
            end.

(** [scanNumber(digits, false)] for the decimal digits. *)
Definition scanNumber : Scanner (list Z) :=
  fun rs => match rs with
            | [] => None
            | r :: rest =>
                if isNumberRune r
                then let (tok, rest') := acceptAll isNumberRune rest in
                     Some (r :: tok, rest')
                else None
            end.

Definition fromOption {A : Type} (o : option A) : Scanner A :=
  fun rs => match o with Some a => Some (a, rs) | None => None end.

(** [scanInt('d', bitSize)]. *)
Definition scanInt (bitSize : Z) : Scanner Z :=
  andThen SkipSpace (fun _ =>
  andThen notEOF (fun _ =>
  andThen (accept isSign) (fun sign =>
  andThen scanNumber (fun tok =>
  andThen (fromOption (strconv.ParseInt (sign ++ tok))) (fun i =>
  if (- 2 ^ (bitSize - 1) <=? i) && (i <? 2 ^ (bitSize - 1))
  then ret i else fun _ => None))))).

(** [scanUint('d', bitSize)]. *)
Definition scanUint (bitSize : Z) : Scanner Z :=
  andThen SkipSpace (fun _ =>
  andThen notEOF (fun _ =>
  andThen scanNumber (fun tok =>
  andThen (fromOption (strconv.ParseUint tok)) (fun i =>
  if i <? 2 ^ bitSize then ret i else fun _ => None)))).

(** A literal character of the format: the next rune of the input
    must be that character. *)
Definition literal (c : ascii) : Scanner unit :=
  fun rs => match rs with
            | r :: rest => if r =? byte_val c then Some (tt, rest) else None
            | [] => None
            end.

(** A verb [%d] of the format: spaces are passed over, then the
    operand is scanned by the scanner of its type. *)
Definition verb {A : Type} (operand : Scanner A) : Scanner A :=
  andThen SkipSpace (fun _ => operand).

(** [Sscanf(str, format, ...)]: what is left of the input once the
    format is exhausted is ignored. *)
Definition Sscanf {A : Type} (str : gostring) (format : Scanner A) : option A :=
  match format (utf8.runes str) with
  | Some (a, _) => Some a
  | None => None
  end.

(** The format ["v=%d"] with an [*int] operand. *)
Definition format_version : Scanner Z :=
  andThen (literal "v") (fun _ =>
  andThen (literal "=") (fun _ =>
  verb (scanInt 64))).

(** The format ["m=%d,t=%d,p=%d"] with operands [*uint32], [*uint32]
    and [*uint8]. *)
Definition format_params : Scanner (Z * Z * Z) :=
  andThen (literal "m") (fun _ =>
  andThen (literal "=") (fun _ =>
  andThen (verb (scanUint 32)) (fun m =>
  andThen (literal ",") (fun _ =>
  andThen (literal "t") (fun _ =>
  andThen (literal "=") (fun _ =>
  andThen (verb (scanUint 32)) (fun t =>
  andThen (literal ",") (fun _ =>
  andThen (literal "p") (fun _ =>
  andThen (literal "=") (fun _ =>
  andThen (verb (scanUint 8)) (fun p =>
  ret (m, t, p)))))))))))).

End fmt.

(** ** Package [encoding/base64]: [RawStdEncoding] *)

Module base64.

Definition encodeStd : gostring :=
  go"ABCDEFGHIJKLMNOPQRSTUVWXYZabcdefghijklmnopqrstuvwxyz0123456789+/".

Definition encode (v : Z) : ascii := nth (Z.to_nat v) encodeStd "A"%char.

Definition sextet (val : Z) (shift : Z) : ascii :=
  encode (Z.land (Z.shiftr val shift) 0x3F).

(** [EncodeToString(src)], without padding. *)
Fixpoint EncodeToString (src : list ascii) : gostring :=
  match src with
  | [] => []
  | [a] =>
      let val := Z.shiftl (byte_val a) 16 in
      [sextet val 18; sextet val 12]
  | [a; b] =>
      let val := Z.lor (Z.shiftl (byte_val a) 16) (Z.shiftl (byte_val b) 8) in
      [sextet val 18; sextet val 12; sextet val 6]
  | a :: b :: c :: rest =>
      let val := Z.lor (Z.shiftl (byte_val a) 16)
                       (Z.lor (Z.shiftl (byte_val b) 8) (byte_val c)) in
      sextet val 18 :: sextet val 12 :: sextet val 6 :: sextet val 0
             :: EncodeToString rest
  end.

(** [decodeMap]: the position of a character in the alphabet. *)
Fixpoint index (c : ascii) (alphabet : gostring) (i : Z) : option Z :=
  match alphabet with
  | [] => None
  | a :: rest => if Ascii.eqb a c then Some i else index c rest (i + 1)
  end.

Definition decodeMap (c : ascii) : option Z := index c encodeStd 0.

Definition isNewline (c : ascii) : bool :=
  Ascii.eqb c "010"%char || Ascii.eqb c "013"%char.

Definition octet (val : Z) (shift : Z) : ascii :=
  byte_of (Z.land (Z.shiftr val shift) 0xFF).

(** The quanta of the input once carriage returns and line feeds are
    left out: four characters give three bytes, a last group of three
    gives two, of two gives one; a last group of one character and a
    character outside the alphabet are corrupt input. *)
Fixpoint decodeQuanta (s : gostring) : option (list ascii) :=
  match s with
  | [] => Some []
  | [_] => None
  | [a; b] =>
      match decodeMap a, decodeMap b with
      | Some x, Some y =>
          let val := Z.lor (Z.shiftl x 18) (Z.shiftl y 12) in
          Some [octet val 16]
      | _, _ => None
      end
  | [a; b; c] =>
      match decodeMap a, decodeMap b, decodeMap c with
      | Some x, Some y, Some z =>
          let val := Z.lor (Z.shiftl x 18) (Z.lor (Z.shiftl y 12) (Z.shiftl z 6)) in
          Some [octet val 16; octet val 8]
      | _, _, _ => None
      end
  | a :: b :: c :: d :: rest =>
      match decodeMap a, decodeMap b, decodeMap c, decodeMap d with
      | Some x, Some y, Some z, Some w =>
          let val := Z.lor (Z.shiftl x 18)
                           (Z.lor (Z.shiftl y 12) (Z.lor (Z.shiftl z 6) w)) in
          match decodeQuanta rest with
          | Some bytes => Some (octet val 16 :: octet val 8 :: octet val 0 :: bytes)
          | None => None
          end
      | _, _, _, _ => None
      end
  end.

(** [DecodeString(s)]; [None] is the error [CorruptInputError]. *)
Definition DecodeString (s : gostring) : option (list ascii) :=
  decodeQuanta (filter (fun c => negb (isNewline c)) s).

End base64.

(** ** Package [crypto] *)

Module crypto.

Record Argon2Config := {
  Time : Z;      (* uint32 *)
  Memory : Z;    (* uint32 *)
  Threads : Z;   (* uint8 *)
  KeyLen : Z     (* uint32 *)
}.

Record Argon2 := { config : Argon2Config }.

Definition NewArgon2 (cfg : Argon2Config) : Argon2 := {| config := cfg |}.

(** [argon2.Version]. *)
Definition Version : Z := 0x13.

Definition uint32 (x : Z) : Z := x mod 2 ^ 32.

(** The key derivation [argon2.IDKey(password, salt, time, memory,
    threads, keyLen)] belongs to a library and is a parameter of the
    model; it returns a key or panics ([None]). *)
Definition KDF := gostring -> gostring -> Z -> Z -> Z -> Z -> option gostring.

(** [fmt.Sprintf("$argon2id$v=%d$m=%d,t=%d,p=%d$%s$%s", ...)]. *)
Definition Sprintf_hash (version memory time threads : Z)
           (salt hash : gostring) : gostring :=
  go"$argon2id$v=" ++ strconv.FormatInt version
  ++ go"$m=" ++ strconv.FormatInt memory
  ++ go",t=" ++ strconv.FormatInt time
  ++ go",p=" ++ strconv.FormatInt threads
  ++ go"$" ++ salt
  ++ go"$" ++ hash.

(** [Hash], given what [rand.Read] puts into the 16 bytes of the salt
    ([inr] when it fails).  The result is [None] when the key
    derivation panics. *)
Definition Hash (IDKey : KDF) (a : Argon2) (rand : gostring + string)
           (password : gostring) : option (gostring * error) :=
  match rand with
  | inr e => Some ([], Some ("failed to generate salt: " ++ e)%string)
  | inl salt =>
      match IDKey password salt (Time (config a)) (Memory (config a))
                  (Threads (config a)) (KeyLen (config a)) with
      | None => None
      | Some hash =>
          Some (Sprintf_hash Version (Memory (config a)) (Time (config a))
                  (Threads (config a))
                  (base64.EncodeToString salt)
                  (base64.EncodeToString hash),
                None)
      end
  end.

Definition part (parts : list gostring) (i : nat) : gostring := nth i parts [].

(** The key length [Verify] computes from the digest field. *)
Definition digestKeyLen (digest : gostring) : Z := uint32 (len digest * 3 / 4).

(** [Verify].  The result is [None] when the key derivation
    panics. *)
Definition Verify (IDKey : KDF) (a : Argon2) (hash password : gostring)
  : option (bool * error) :=
  let parts := strings.Split hash "$" in
  if negb (Nat.eqb (List.length parts) 6) then
    Some (false, Some "invalid hash format"%string)
  else
    match fmt.Sscanf (part parts 2) fmt.format_version with
    | None => Some (false, Some "failed to parse version"%string)
    | Some version =>
        match fmt.Sscanf (part parts 3) fmt.format_params with
        | None => Some (false, Some "failed to parse hash"%string)
        | Some (memory, time, threads) =>
            match base64.DecodeString (part parts 4) with
            | None => Some (false, Some "failed to decode salt"%string)
            | Some salt =>
                let keyLen := digestKeyLen (part parts 5) in
                match IDKey password salt time memory threads keyLen with
                | None => None
                | Some newHash =>
                    Some (str_eqb (base64.EncodeToString newHash) (part parts 5),
                          None)
                end
            end
        end
    end.

(** The configuration with which [Verify] derives the key, when it
    gets that far: the parameters read from the fourth field and the
    length computed from the last one. *)
Definition verifyConfig (hash : gostring) : option Argon2Config :=
  let parts := strings.Split hash "$" in
  if negb (Nat.eqb (List.length parts) 6) then None
  else
    match fmt.Sscanf (part parts 2) fmt.format_version with
    | None => None
    | Some version =>
        match fmt.Sscanf (part parts 3) fmt.format_params with
        | None => None
        | Some (memory, time, threads) =>
            match base64.DecodeString (part parts 4) with
            | None => None
            | Some salt =>
                Some {| Time := time; Memory := memory; Threads := threads;
                        KeyLen := digestKeyLen (part parts 5) |}
            end
        end
    end.

(** A stand-in for the key derivation, for concrete runs: a key of
    [keyLen] bytes that depends on every argument, and the panics of
    the library for fewer than one pass or one thread, and for a key
    of no bytes. *)
Definition sampleKDF : KDF :=
  fun password salt time memory threads keyLen =>
    if (time <? 1) || (threads <? 1) || (keyLen <? 1) then None
    else
      let seed := fold_right (fun c acc => (byte_val c + 31 * acc) mod 256)
                             ((time + memory + threads + keyLen) mod 256)
                             (password ++ salt) in
      Some (map (fun i => byte_of ((seed + Z.of_nat i) mod 256))
                (seq 0 (Z.to_nat keyLen))).

(** The configuration of the server ([initializeCryptoService]). *)
Definition serverConfig : Argon2Config :=
  {| Time := 1; Memory := 64 * 1024; Threads := 4; KeyLen := 32 |}.

End crypto.

(** ** Predicates used in the statements *)

(** The float [f] has the integer value [n]. *)
Definition float64_is_int (f : float64) (n : Z) : Prop :=
  if 0 <=? Fexp f then n = Fnum f * 2 ^ Fexp f
  else Fnum f = n * 2 ^ (- Fexp f).

(** A token signed with [key] whose [user_id] is 1.5. *)
Definition fractional_token (key : gostring) : jwt.TokenString :=
  let claims := [(go"user_id", jwt.VFloat64 (Float 3 (-1)));
                 (go"username", jwt.VString go"alice")] in
  jwt.Segments (Some jwt.SigningMethodHS256) claims
    (jwt.MAC jwt.SHA256 key jwt.SigningMethodHS256 claims).

(** The string [s] has no byte [sep]. *)
Definition without (sep : ascii) (s : gostring) : bool :=
  forallb (fun c => negb (Ascii.eqb c sep)) s.

Definition isDigitChar (c : ascii) : bool := strconv.isDigit (byte_val c).

Definition isASCII (s : gostring) : bool := forallb (fun c => byte_val c <? 0x80) s.

(** The input left after a number does not go on with a digit. *)
Definition stops (rest : list Z) : Prop :=
  match rest with
  | [] => True
  | r :: _ => strconv.isDigit r = false
  end.

(** A configuration whose fields are in the ranges of their types. *)
Definition inRange (cfg : crypto.Argon2Config) : Prop :=
  0 <= crypto.Time cfg < 2 ^ 32
  /\ 0 <= crypto.Memory cfg < 2 ^ 32
  /\ 0 <= crypto.Threads cfg < 2 ^ 8
  /\ 0 <= crypto.KeyLen cfg < 2 ^ 32.

(** * The remaining handlers and helpers *)

(** ** Package [strings], continued *)

Module strings2.

(** [strings.Index(s, substr)]: the first position at which [substr]
    begins, [None] for [-1]. *)
Fixpoint Index (s substr : gostring) : option nat :=
  if strings.HasPrefix s substr then Some O
  else match s with
       | [] => None
       | _ :: s' => option_map S (Index s' substr)
       end.

(** [strings.Contains(s, substr)]. *)
Definition Contains (s substr : gostring) : bool :=
  match Index s substr with
  | Some _ => true
  | None => false
  end.

(** The loop of [strings.Split(s, sep)] for a separator that is not
    empty: cut at the first occurrence, go on after it; [fuel] bounds
    the number of cuts. *)
Fixpoint splitLoop (fuel : nat) (s sep : gostring) : list gostring :=
  match fuel with
  | O => [s]
  | S fuel' =>
      match Index s sep with
      | None => [s]
      | Some m => firstn m s :: splitLoop fuel' (skipn (m + List.length sep) s) sep
      end
  end.

Definition Split (s sep : gostring) : list gostring :=
  splitLoop (List.length s) s sep.

End strings2.

(** ** Package [strconv], continued *)

Module strconv2.

(** [strconv.Atoi(s)]: an optional sign and decimal digits, within the
    range of [int]; [None] is the error. *)
Definition Atoi (s : gostring) : option Z := strconv.ParseInt (map byte_val s).

End strconv2.

(** ** Package [path/filepath], continued *)

Module filepath2.

Definition isByte (b : ascii) (c : ascii) : bool := Ascii.eqb c b.

(** [filepath.Ext(path)]: the suffix that begins at the last dot of
    the last element of the path; empty when that element has no
    dot. *)
Fixpoint Ext (path : gostring) : gostring :=
  match path with
  | [] => []
  | c :: rest =>
      if existsb (isByte filepath.Separator) rest then Ext rest
      else if existsb (isByte ".") rest then Ext rest
      else if Ascii.eqb c "." then path
      else []
  end.

End filepath2.

(** ** Package [db], continued *)

Module db2.

(** [CreateKey] and [AddKey]: [INSERT INTO keys (key) VALUES (?)]. *)
Definition CreateKey (fault : bool) (s : db.SQLiteDB) (key : gostring)
  : error * db.SQLiteDB :=
  if fault then (Some db.errDriver, s)
  else (None, {| db.users := db.users s; db.keys := db.keys s ++ [key] |}).

Definition AddKey (fault : bool) (s : db.SQLiteDB) (key : gostring)
  : error * db.SQLiteDB :=
  if fault then (Some db.errDriver, s)
  else (None, {| db.users := db.users s; db.keys := db.keys s ++ [key] |}).

(** [GetKeys]: [SELECT key FROM keys]. *)
Definition GetKeys (fault : bool) (s : db.SQLiteDB) : list gostring * error :=
  if fault then ([], Some db.errDriver) else (db.keys s, None).

(** [genKeys(n)]; [NewString i] is the identifier the [i]-th call of
    [uuid.NewString()] draws. *)
Definition genKeys (NewString : nat -> gostring) (n : nat) : list gostring :=
  map NewString (seq 0 n).

(** The loop of [Migrate] over the keys: it stops at the first
    insertion that fails. *)
Fixpoint insertKeys (insertFails : nat -> bool) (i : nat) (keys : list gostring)
         (s : db.SQLiteDB) : error * db.SQLiteDB :=
  match keys with
  | [] => (None, s)
  | key :: rest =>
      match AddKey (insertFails i) s key with
      | (Some e, s') => (Some e, s')
      | (None, s') => insertKeys insertFails (S i) rest s'
      end
  end.

(** [Migrate]: three keys are generated, the tables are created when
    they do not exist yet, and the keys are inserted. *)
Definition Migrate (NewString : nat -> gostring) (createFails : bool)
           (insertFails : nat -> bool) (s : db.SQLiteDB) : error * db.SQLiteDB :=
  let keys := genKeys NewString 3 in
  if createFails then (Some db.errDriver, s)
  else insertKeys insertFails 0 keys s.

End db2.

(** ** Package [auth], continued *)

Module auth2.

Record LoginRequest := { loginUsername : gostring; loginPassword : gostring }.

(** The errors of [attemptLogin]: its two sentinel values, and any
    other error by its text. *)
Inductive LoginError :=
| errUserNotFound
| errInvalidPassword
| errOther (e : string).

(** [verifyPassword]; [None] when the key derivation panics. *)
Definition verifyPassword (IDKey : crypto.KDF) (argon : crypto.Argon2)
           (storedHash providedPassword : gostring) : option (bool * error) :=
  match crypto.Verify IDKey argon storedHash providedPassword with
  | None => None
  | Some (_, Some e) => Some (false, Some e)
  | Some (valid, None) => Some (valid, None)
  end.

(** [attemptLogin].  Its calls of [ErrorHandler] pass an error that is
    not [nil] and return. *)
Definition attemptLogin (IDKey : crypto.KDF) (argon : crypto.Argon2)
           (env : auth.Env) (req : LoginRequest) (d : db.SQLiteDB)
  : option (User + LoginError) :=
  let username := auth.ToLower env (loginUsername req) in
  match db.GetUser (auth.getUserFails env) d username with
  | (_, Some e) =>
      if String.eqb e db.ErrNoRows then Some (inr errUserNotFound)
      else Some (inr (errOther e))
  | (user, None) =>
      match verifyPassword IDKey argon (Password user) (loginPassword req) with
      | None => None
      | Some (_, Some e) => Some (inr (errOther e))
      | Some (false, None) => Some (inr errInvalidPassword)
      | Some (true, None) => Some (inl user)
      end
  end.

(** [Login], on the request body as [ShouldBindJSON] reads it. *)
Definition Login (svc : auth.AuthService) (IDKey : crypto.KDF)
           (argon : crypto.Argon2) (env : auth.Env)
           (body : option LoginRequest) (d : db.SQLiteDB)
           (c : Context) : Outcome Context :=
  match body with
  | None =>
      do c <- auth.ErrorHandler (Some "invalid request"%string) c;
      Returned (gin.write c (JSON StatusBadRequest "error" "invalid request"))
  | Some req =>
      match attemptLogin IDKey argon env req d with
      | None => Panicked c
      | Some (inr errUserNotFound) | Some (inr errInvalidPassword) =>
          Returned (gin.write c
            (JSON StatusUnauthorized "error" "invalid username or password"))
      | Some (inr (errOther e)) =>
          do c <- auth.ErrorHandler (Some e) c;
          Returned c
      | Some (inl user) =>
          match auth.generateAndSendToken svc user with
          | inr e =>
              do c <- auth.ErrorHandler (Some e) c;
              Returned (gin.write c
                (JSON StatusInternalServerError "error" "failed to generate token"))
          | inl token => Returned (gin.write c (JSONToken StatusOK token))
          end
      end
  end.

(** What the two key endpoints answer: a JSON object with one text
    field (and whether the chain was aborted), or the list of keys. *)
Inductive AdminReply :=
| Reply (r : Response) (abort : bool)
| KeysReply (keys : list gostring).

(** [GetKeys]; [api_key] is the value of the header of that name. *)
Definition GetKeys (svc : auth.AuthService) (fault : bool)
           (api_key : gostring) (d : db.SQLiteDB) : AdminReply :=
  if negb (str_eqb api_key (auth.apiKey svc)) then
    Reply (JSON 401 "error" "Unauthorized") true
  else
    match db2.GetKeys fault d with
    | (_, Some _) => Reply (JSON 500 "error" "internal server error") false
    | (keys, None) => KeysReply keys
    end.

(** [AddKey], on the [key] field of the body as [ShouldBindJSON] reads
    it. *)
Definition AddKey (svc : auth.AuthService) (fault : bool)
           (api_key : gostring) (body : option gostring) (d : db.SQLiteDB)
  : AdminReply * db.SQLiteDB :=
  if negb (str_eqb api_key (auth.apiKey svc)) then
    (Reply (JSON 401 "error" "Unauthorized") true, d)
  else
    match body with
    | None => (Reply (JSON 400 "error" "invalid request") false, d)
    | Some key =>
        match db2.AddKey fault d key with
        | (Some _, d') => (Reply (JSON 500 "error" "internal server error") false, d')
        | (None, d') => (Reply (JSON 200 "message" "key added") false, d')
        end
    end.

End auth2.

(** ** Package [server], continued *)

Module server2.

(** The separator of the split. *)
Definition bearerSep : gostring := go"Bearer ".

(** [PrometheusAuthMiddleware]; [apiKey] is the value of the header
    [authorization].  Indexing the pieces at 1 panics when there is
    one piece only. *)
Definition PrometheusAuthMiddleware (a : server.Api) (apiKey : gostring)
           (c : Context) : Outcome Context :=
  if negb (strings2.Contains apiKey go"Bearer") then
    Returned (gin.Abort (gin.write c
      (JSON 401 "error" "Authorization header must start with Bearer")))
  else
    match nth_error (strings2.Split apiKey bearerSep) 1 with
    | None => Panicked c
    | Some apiKey =>
        if negb (str_eqb apiKey (server.prometheusKey a)) then
          Returned (gin.Abort (gin.write c (JSON 401 "error" "Unauthorized")))
        else Returned c
    end.

End server2.

(** ** Package [pictures], continued *)

Module pictures2.

Record pagination := { limit : Z; offset : Z }.

(** [parsePaginationParams]; the arguments are the query parameters
    [limit] and [offset] as [c.GetQuery] returns them. *)
Definition parsePaginationParams (queryLimit queryOffset : option gostring)
  : pagination :=
  let limit :=
    match queryLimit with
    | Some q =>
        match strconv2.Atoi q with
        | Some newLimit =>
            if (0 <? newLimit) && (newLimit <=? 100) then newLimit else 3
        | None => 3
        end
    | None => 3
    end in
  let offset :=
    match queryOffset with
    | Some q =>
        match strconv2.Atoi q with
        | Some newOffset => if 0 <=? newOffset then newOffset else 0
        | None => 0
        end
    | None => 0
    end in
  {| limit := limit; offset := offset |}.

Definition hexDigit (n : Z) : ascii :=
  nth (Z.to_nat n) go"0123456789abcdef" "0"%char.

(** [fmt.Sprintf("%x", bytes)]. *)
Definition hex (bytes : list ascii) : gostring :=
  flat_map (fun b => [hexDigit (byte_val b / 16); hexDigit (byte_val b mod 16)]) bytes.

(** [generateSafeFileName]; [Sum256] is the SHA-256 digest and [now]
    the text of [time.Now().String()]. *)
Definition generateSafeFileName (Sum256 : gostring -> gostring) (now : gostring)
           (originalFileName : gostring) : gostring :=
  let ext := filepath2.Ext originalFileName in
  let hashedFileName := hex (Sum256 (originalFileName ++ now)) in
  hashedFileName ++ ext.

(** The part of [*multipart.FileHeader] that is read. *)
Record FileHeader := {
  Filename : gostring;
  ContentType : gostring;
  Content : gostring
}.

(** What may go wrong while a file is saved: opening the upload,
    creating the destination, and copying, which may stop after some
    bytes. *)
Record SaveFaults := {
  openFails : bool;
  createFails : bool;
  copyStops : option nat
}.

Definition noFaults : SaveFaults :=
  {| openFails := false; createFails := false; copyStops := None |}.

Definition writeFile (fs : pictures.FileSystem) (path content : gostring)
  : pictures.FileSystem :=
  fun p => if str_eqb p path then Some content else fs p.

(** [saveUploadedFile]. *)
Definition saveUploadedFile (faults : SaveFaults) (file : FileHeader)
           (dst : gostring) (fs : pictures.FileSystem)
  : error * pictures.FileSystem :=
  if openFails faults then (Some "open failed"%string, fs)
  else if createFails faults then (Some "create failed"%string, fs)
  else match copyStops faults with
       | Some n => (Some "copy failed"%string, writeFile fs dst (firstn n (Content file)))
       | None => (None, writeFile fs dst (Content file))
       end.

Inductive UploadError :=
| ValidationError (Message : string)
| FileError (Message : string).

(** [validateAndSaveFile]. *)
Definition validateAndSaveFile (svc : pictures.PicturesService)
           (Sum256 : gostring -> gostring) (now : gostring)
           (faults : SaveFaults) (file : FileHeader) (fs : pictures.FileSystem)
  : (gostring + UploadError) * pictures.FileSystem :=
  if negb (strings.HasPrefix (ContentType file) go"image/") then
    (inr (ValidationError "Invalid file type"), fs)
  else
    let filename := generateSafeFileName Sum256 now (Filename file) in
    let savePath := filepath.Join [pictures.basePath svc; filename] in
    match saveUploadedFile faults file savePath fs with
    | (Some _, fs') => (inr (FileError "Failed to save the file"), fs')
    | (None, fs') => (inl filename, fs')
    end.

End pictures2.

(** ** Auxiliary definitions of the further properties *)

(** The row [Register] inserts. *)
Definition newUser (env : auth.Env) (req : auth.RegisterRequest)
           (hash : gostring) (d : db.SQLiteDB) : User :=
  {| ID := db.nextID (db.users d);
     Username := auth.ToLower env (auth.reqUsername req);
     Password := hash |}.

(** A directory or file name of one plain element: not empty, without
    separator, neither [.] nor [..]. *)
Definition plainName (s : gostring) : bool :=
  negb (str_eqb s []) && without filepath.Separator s
  && negb (str_eqb s filepath.dot) && negb (str_eqb s filepath.dotdot).

(** An environment in which no statement fails and passwords are hashed
    by [hash]. *)
Definition noFaultsEnv (hash : gostring -> gostring) : auth.Env :=
  {| auth.containsKeyFails := false; auth.getUserFails := false;
     auth.insertFails := false; auth.selectFails := false;
     auth.deleteKeyFails := false;
     auth.argonHash := fun p => inl (hash p);
     auth.ToLower := asciiToLower |}.

(** Sample requests, tables and services. *)
Definition aliceRequest : auth.RegisterRequest :=
  {| auth.reqUsername := go"Alice"; auth.reqPassword := go"pw1"; auth.reqKey := go"k" |}.

Definition oneKey : db.SQLiteDB := {| db.users := []; db.keys := [go"k"; go"k"] |}.

Definition sampleService : auth.AuthService :=
  {| auth.jwtKey := go"secret"; auth.apiKey := go"admin" |}.

(** The environment of the server: no statement fails, and passwords
    are hashed by [Hash] under the configuration of the server, with a
    fixed salt. *)
Definition sampleEnv : auth.Env :=
  {| auth.containsKeyFails := false; auth.getUserFails := false;
     auth.insertFails := false; auth.selectFails := false;
     auth.deleteKeyFails := false;
     auth.argonHash := fun p =>
       match crypto.Hash crypto.sampleKDF (crypto.NewArgon2 crypto.serverConfig)
                         (inl go"0123456789abcdef") p with
       | Some (h, None) => inl h
       | _ => inr "hashing failed"%string
       end;
     auth.ToLower := asciiToLower |}.

Definition hunterRequest : auth.RegisterRequest :=
  {| auth.reqUsername := go"Alice"; auth.reqPassword := go"hunter2";
     auth.reqKey := go"k" |}.

Definition hunterRow : User :=
  {| ID := 1; Username := go"alice";
     Password := go"$argon2id$v=19$m=65536,t=1,p=4$MDEyMzQ1Njc4OWFiY2RlZg$lZaXmJmam5ydnp+goaKjpKWmp6ipqqusra6vsLGys7Q" |}.

Definition hunterToken : jwt.TokenString :=
  match auth.generateAndSendToken sampleService hunterRow with
  | inl t => t
  | inr _ => jwt.Malformed []
  end.

(** * Properties *)


(** ** Strings *)

Lemma str_eqb_refl (s : gostring) : str_eqb s s = true.
Proof.
  induction s as [|a s IH]; simpl; [reflexivity|].
  now rewrite Ascii.eqb_refl, IH.
Qed.

Lemma str_eqb_eq (s t : gostring) : str_eqb s t = true <-> s = t.
Proof.
  split; [|intros ->; apply str_eqb_refl].
  revert t; induction s as [|a s IH]; intros [|b t]; simpl; try discriminate; auto.
  intros H. apply andb_true_iff in H as [Hab Hst].
  apply Ascii.eqb_eq in Hab. apply IH in Hst. congruence.
Qed.

Lemma str_eqb_neq (s t : gostring) : str_eqb s t = false <-> s <> t.
Proof.
  split.
  - intros H E. apply str_eqb_eq in E. congruence.
  - intros H. destruct (str_eqb s t) eqn:E; [|reflexivity].
    apply str_eqb_eq in E. contradiction.
Qed.

Lemma HasPrefix_split (s p : gostring) :
  strings.HasPrefix s p = true -> s = p ++ skipn (List.length p) s.
Proof.
  revert s; induction p as [|a p IH]; intros s H; simpl in *; [reflexivity|].
  destruct s as [|c s]; [discriminate|].
  apply andb_true_iff in H as [Hc Hs].
  apply Ascii.eqb_eq in Hc. subst c. simpl. f_equal. now apply IH.
Qed.

(** ** Bytes *)

Lemma byte_val_range (c : ascii) : 0 <= byte_val c < 256.
Proof.
  unfold byte_val. pose proof (N_ascii_bounded c). lia.
Qed.

Lemma byte_val_of (z : Z) : 0 <= z < 256 -> byte_val (byte_of z) = z.
Proof.
  intros H. unfold byte_val, byte_of.
  rewrite N_ascii_embedding by lia. lia.
Qed.

Lemma byte_of_val (c : ascii) : byte_of (byte_val c) = c.
Proof.
  unfold byte_val, byte_of. rewrite N2Z.id. apply ascii_N_embedding.
Qed.

(** ** Bit operations as arithmetic *)

Lemma land_shifted_low (hi lo n : Z) :
  0 <= n -> 0 <= lo < 2 ^ n -> Z.land (hi * 2 ^ n) lo = 0.
Proof.
  intros Hn Hlo. apply Z.bits_inj'. intros i Hi.
  rewrite Z.land_spec, Z.bits_0.
  destruct (Z.ltb_spec i n) as [Hlt|Hge].
  - rewrite Z.mul_pow2_bits_low by lia. reflexivity.
  - destruct (Z.eq_dec lo 0) as [->|Hnz].
    + rewrite Z.bits_0. apply andb_false_r.
    + rewrite (Z.bits_above_log2 lo i); [apply andb_false_r|lia|].
      apply Z.log2_lt_pow2; [lia|].
      apply Z.lt_le_trans with (2 ^ n); [lia|].
      apply Z.pow_le_mono_r; lia.
Qed.

Lemma lor_shiftl (hi lo n : Z) :
  0 <= n -> 0 <= lo < 2 ^ n -> Z.lor (Z.shiftl hi n) lo = hi * 2 ^ n + lo.
Proof.
  intros Hn Hlo. rewrite Z.shiftl_mul_pow2 by lia.
  pose proof (land_shifted_low hi lo n Hn Hlo) as H0.
  rewrite <- (Z.lxor_lor _ _ H0). symmetry. now apply Z.add_nocarry_lxor.
Qed.

Lemma mask6 (x : Z) : Z.land x 0x3F = x mod 64.
Proof. change 0x3F with (Z.ones 6). now rewrite Z.land_ones. Qed.

Lemma mask8 (x : Z) : Z.land x 0xFF = x mod 256.
Proof. change 0xFF with (Z.ones 8). now rewrite Z.land_ones. Qed.

(** ** Splitting *)


Lemma without_app (sep : ascii) (s t : gostring) :
  without sep (s ++ t) = without sep s && without sep t.
Proof. apply forallb_app. Qed.

Lemma Split_without (sep : ascii) (s : gostring) :
  without sep s = true -> strings.Split s sep = [s].
Proof.
  induction s as [|c s IH]; simpl; [reflexivity|].
  intros H. apply andb_true_iff in H as [Hc Hs].
  apply negb_true_iff in Hc. rewrite Hc, (IH Hs). reflexivity.
Qed.

Lemma Split_app (sep : ascii) (s t : gostring) :
  without sep s = true ->
  strings.Split (s ++ sep :: t) sep = s :: strings.Split t sep.
Proof.
  induction s as [|c s IH]; simpl.
  - intros _. now rewrite Ascii.eqb_refl.
  - intros H. apply andb_true_iff in H as [Hc Hs].
    apply negb_true_iff in Hc. rewrite Hc, (IH Hs). reflexivity.
Qed.

(** ** Decimal numbers *)


Lemma digit_val (d : Z) : 0 <= d < 10 -> byte_val (strconv.digit d) = 48 + d.
Proof. intros H. unfold strconv.digit. apply byte_val_of. lia. Qed.

Lemma digit_isDigit (d : Z) : 0 <= d < 10 -> isDigitChar (strconv.digit d) = true.
Proof.
  intros H. unfold isDigitChar, strconv.isDigit. rewrite digit_val by assumption.
  apply andb_true_iff. split; apply Z.leb_le; lia.
Qed.

Lemma decimal_digits (fuel : nat) (n : Z) :
  0 <= n -> forallb isDigitChar (strconv.decimal fuel n) = true.
Proof.
  revert n. induction fuel as [|fuel IH]; intros n Hn; simpl; [reflexivity|].
  destruct (Z.ltb_spec n 10).
  - simpl. rewrite digit_isDigit by lia. reflexivity.
  - rewrite forallb_app, IH by (apply Z.div_pos; lia). simpl.
    rewrite digit_isDigit; [reflexivity|]. apply Z.mod_pos_bound. lia.
Qed.

Lemma decimal_nonempty (fuel : nat) (n : Z) : strconv.decimal (S fuel) n <> [].
Proof.
  simpl. destruct (n <? 10); [discriminate|].
  intros H. apply app_eq_nil in H as [_ H]. discriminate.
Qed.

Lemma digitsValue_app (l1 l2 : list Z) (acc : Z) :
  strconv.digitsValue (l1 ++ l2) acc =
  match strconv.digitsValue l1 acc with
  | Some v => strconv.digitsValue l2 v
  | None => None
  end.
Proof.
  revert acc. induction l1 as [|r l1 IH]; intros acc; simpl; [reflexivity|].
  destruct (strconv.isDigit r); [apply IH|reflexivity].
Qed.

Lemma digitsValue_digit (d acc : Z) :
  0 <= d < 10 ->
  strconv.digitsValue [byte_val (strconv.digit d)] acc = Some (acc * 10 + d).
Proof.
  intros Hd. cbn [strconv.digitsValue]. rewrite digit_val by assumption.
  unfold strconv.isDigit.
  destruct (Z.leb_spec 48 (48 + d)); [|lia].
  destruct (Z.leb_spec (48 + d) 57); [|lia].
  cbn [andb]. f_equal. lia.
Qed.

Lemma decimal_value (fuel : nat) (n : Z) :
  0 <= n < 10 ^ Z.of_nat fuel ->
  strconv.digitsValue (map byte_val (strconv.decimal fuel n)) 0 = Some n.
Proof.
  revert n. induction fuel as [|fuel IH]; intros n Hn.
  - simpl in *. f_equal. lia.
  - cbn [strconv.decimal]. destruct (Z.ltb_spec n 10) as [Hs|Hb].
    + cbn [map]. rewrite digitsValue_digit by lia. f_equal; lia.
    + rewrite map_app, digitsValue_app, IH.
      * cbn [map]. rewrite digitsValue_digit by (apply Z.mod_pos_bound; lia).
        pose proof (Z.div_mod n 10). f_equal; lia.
      * rewrite Nat2Z.inj_succ, Z.pow_succ_r in Hn by lia.
        split; [apply Z.div_pos; lia|].
        apply Z.div_lt_upper_bound; lia.
Qed.

Lemma fuel_enough (n : Z) : 0 <= n -> n < 10 ^ Z.of_nat (S (Z.to_nat (Z.log2 n))).
Proof.
  intros Hn. rewrite Nat2Z.inj_succ, Z2Nat.id by apply Z.log2_nonneg.
  destruct (Z.eq_dec n 0) as [->|Hnz].
  - simpl. lia.
  - apply Z.lt_le_trans with (2 ^ Z.succ (Z.log2 n)).
    + apply Z.log2_spec. lia.
    + apply Z.pow_le_mono_l. lia.
Qed.

Lemma FormatInt_digits (n : Z) :
  0 <= n -> forallb isDigitChar (strconv.FormatInt n) = true.
Proof.
  intros Hn. unfold strconv.FormatInt.
  destruct (Z.ltb_spec n 0); [lia|]. now apply decimal_digits.
Qed.

Lemma FormatInt_nonempty (n : Z) : 0 <= n -> strconv.FormatInt n <> [].
Proof.
  intros Hn. unfold strconv.FormatInt.
  destruct (Z.ltb_spec n 0); [lia|]. apply decimal_nonempty.
Qed.

Lemma FormatInt_value (n : Z) :
  0 <= n -> strconv.digitsValue (map byte_val (strconv.FormatInt n)) 0 = Some n.
Proof.
  intros Hn. unfold strconv.FormatInt.
  destruct (Z.ltb_spec n 0); [lia|].
  apply decimal_value. split; [assumption|now apply fuel_enough].
Qed.

(** ** Runes of ASCII text *)


Lemma runes_ascii (s : gostring) : isASCII s = true -> utf8.runes s = map byte_val s.
Proof.
  induction s as [|c s IH]; simpl; [reflexivity|].
  intros H. apply andb_true_iff in H as [Hc Hs].
  rewrite Hc, (IH Hs). reflexivity.
Qed.

Lemma forallb_impl {A : Type} (p q : A -> bool) (l : list A) :
  (forall x, p x = true -> q x = true) -> forallb p l = true -> forallb q l = true.
Proof.
  intros Hpq. induction l as [|x l IH]; simpl; [reflexivity|].
  intros H. apply andb_true_iff in H as [Hx Hl].
  now rewrite (Hpq x Hx), (IH Hl).
Qed.

Lemma isDigitChar_range (c : ascii) : isDigitChar c = true -> 48 <= byte_val c <= 57.
Proof.
  unfold isDigitChar, strconv.isDigit. intros H.
  apply andb_true_iff in H as [H1 H2]. apply Z.leb_le in H1, H2. lia.
Qed.

Lemma digits_ascii (s : gostring) : forallb isDigitChar s = true -> isASCII s = true.
Proof.
  apply forallb_impl. intros c H. apply isDigitChar_range in H.
  apply Z.ltb_lt. lia.
Qed.

Lemma digits_without (sep : ascii) (s : gostring) :
  isDigitChar sep = false -> forallb isDigitChar s = true -> without sep s = true.
Proof.
  intros Hsep. apply forallb_impl. intros c H.
  apply negb_true_iff. destruct (Ascii.eqb_spec c sep); [congruence|reflexivity].
Qed.

(** ** Scanning a printed number *)


Lemma digits_runes (s : gostring) :
  forallb isDigitChar s = true -> forallb strconv.isDigit (map byte_val s) = true.
Proof.
  induction s as [|c s IH]; simpl; [reflexivity|].
  intros H. apply andb_true_iff in H as [Hc Hs].
  unfold isDigitChar in Hc. now rewrite Hc, (IH Hs).
Qed.

Lemma acceptAll_digits (ds rest : list Z) :
  forallb strconv.isDigit ds = true -> stops rest ->
  fmt.acceptAll fmt.isNumberRune (ds ++ rest) = (ds, rest).
Proof.
  intros Hds Hrest. induction ds as [|d ds IH]; simpl in *.
  - destruct rest as [|r rest]; [reflexivity|].
    simpl. unfold fmt.isNumberRune. now rewrite Hrest.
  - apply andb_true_iff in Hds as [Hd Hds].
    unfold fmt.isNumberRune at 1. rewrite Hd, (IH Hds). reflexivity.
Qed.

Lemma isDigit_not_space (r : Z) :
  strconv.isDigit r = true -> (r =? 10) = false /\ fmt.isSpace r = false.
Proof.
  unfold strconv.isDigit, fmt.isSpace. intros H.
  apply andb_true_iff in H as [H1 H2]. apply Z.leb_le in H1, H2.
  split; [apply Z.eqb_neq; lia|].
  repeat match goal with
         | |- context [?a <=? ?b] => destruct (Z.leb_spec a b); try lia
         | |- context [?a =? ?b] => destruct (Z.eqb_spec a b); try lia
         end; reflexivity.
Qed.

Lemma skip_digit (r : Z) (rs : list Z) :
  strconv.isDigit r = true -> fmt.skip (r :: rs) = Some (r :: rs).
Proof.
  intros H. destruct (isDigit_not_space r H) as [Hn Hs].
  simpl. now rewrite Hn, Hs.
Qed.

Lemma scanUint_printed (bits n : Z) (rest : list Z) :
  0 <= n < 2 ^ bits -> 0 <= bits <= 64 -> stops rest ->
  fmt.verb (fmt.scanUint bits) (map byte_val (strconv.FormatInt n) ++ rest)
  = Some (n, rest).
Proof.
  intros Hn Hbits Hrest.
  assert (Hn0 : 0 <= n) by lia.
  pose proof (FormatInt_digits n Hn0) as Hd. apply digits_runes in Hd.
  pose proof (FormatInt_nonempty n Hn0) as Hne.
  pose proof (FormatInt_value n Hn0) as Hv.
  destruct (map byte_val (strconv.FormatInt n)) as [|d ds] eqn:E.
  { destruct (strconv.FormatInt n); [contradiction|discriminate]. }
  simpl in Hd. apply andb_true_iff in Hd as [Hd Hds].
  unfold fmt.verb, fmt.scanUint, fmt.andThen, fmt.SkipSpace.
  cbn [app]. rewrite !skip_digit by assumption.
  cbn [fmt.notEOF fmt.scanNumber]. unfold fmt.isNumberRune at 1. rewrite Hd.
  rewrite acceptAll_digits by assumption.
  unfold fmt.fromOption, strconv.ParseUint. rewrite Hv.
  assert (H64 : n < 2 ^ 64).
  { apply Z.lt_le_trans with (2 ^ bits); [lia|]. apply Z.pow_le_mono_r; lia. }
  destruct (Z.ltb_spec n (2 ^ 64)); [|lia].
  destruct (Z.ltb_spec n (2 ^ bits)); [|lia].
  reflexivity.
Qed.

Lemma isASCII_app (s t : gostring) : isASCII (s ++ t) = isASCII s && isASCII t.
Proof. apply forallb_app. Qed.

Lemma FormatInt_ascii (n : Z) : 0 <= n -> isASCII (strconv.FormatInt n) = true.
Proof. intros H. apply digits_ascii. now apply FormatInt_digits. Qed.

Lemma FormatInt_without (sep : ascii) (n : Z) :
  isDigitChar sep = false -> 0 <= n -> without sep (strconv.FormatInt n) = true.
Proof. intros Hs H. apply digits_without; [assumption|now apply FormatInt_digits]. Qed.

Lemma andThen_literal {B : Type} (c : ascii) (k : unit -> fmt.Scanner B)
      (rest : list Z) :
  fmt.andThen (fmt.literal c) k (byte_val c :: rest) = k tt rest.
Proof. unfold fmt.andThen, fmt.literal. now rewrite Z.eqb_refl. Qed.

Lemma andThen_scanUint {B : Type} (bits n : Z) (k : Z -> fmt.Scanner B)
      (rest : list Z) :
  0 <= n < 2 ^ bits -> 0 <= bits <= 64 -> stops rest ->
  fmt.andThen (fmt.verb (fmt.scanUint bits)) k
    (map byte_val (strconv.FormatInt n) ++ rest) = k n rest.
Proof.
  intros Hn Hb Hr. unfold fmt.andThen at 1.
  now rewrite scanUint_printed.
Qed.

(** One step of a format over a printed text: a literal meets its own
    character, a verb meets the number printed for it. *)
Ltac scan_step :=
  first [ rewrite andThen_literal
        | rewrite andThen_scanUint; [ | lia | lia | first [reflexivity | exact I] ] ].

(** [Sscanf] reads back the cost parameters that [Sprintf] printed. *)
Lemma Sscanf_params_printed (m t p : Z) :
  0 <= m < 2 ^ 32 -> 0 <= t < 2 ^ 32 -> 0 <= p < 2 ^ 8 ->
  fmt.Sscanf (go"m=" ++ strconv.FormatInt m ++ go",t=" ++ strconv.FormatInt t
              ++ go",p=" ++ strconv.FormatInt p) fmt.format_params
  = Some (m, t, p).
Proof.
  intros Hm Ht Hp. unfold fmt.Sscanf.
  rewrite runes_ascii.
  2:{ rewrite !isASCII_app, !FormatInt_ascii by lia. reflexivity. }
  rewrite <- (app_nil_r (strconv.FormatInt p)).
  rewrite !map_app. cbn [map list_ascii_of_string app].
  unfold fmt.format_params. repeat scan_step. reflexivity.
Qed.

(** ** Base64 *)

Lemma list_ind3 {A : Type} (P : list A -> Prop) :
  P [] -> (forall a, P [a]) -> (forall a b, P [a; b]) ->
  (forall a b c l, P l -> P (a :: b :: c :: l)) ->
  forall l, P l.
Proof.
  intros H0 H1 H2 H3 l.
  enough (H : P l /\ (forall a, P (a :: l)) /\ (forall a b, P (a :: b :: l)))
    by apply H.
  induction l as [|x l (IH0 & IH1 & IH2)]; auto.
Qed.

Lemma sextet_range (x : Z) : 0 <= Z.land x 0x3F < 64.
Proof. rewrite mask6. apply Z.mod_pos_bound. lia. Qed.

Lemma below_64 (P : Z -> Prop) :
  (forall k : nat, (k < 64)%nat -> P (Z.of_nat k)) ->
  forall v, 0 <= v < 64 -> P v.
Proof.
  intros H v Hv. rewrite <- (Z2Nat.id v) by lia. apply H. lia.
Qed.

Lemma encode_properties (v : Z) :
  0 <= v < 64 ->
  base64.decodeMap (base64.encode v) = Some v
  /\ base64.isNewline (base64.encode v) = false
  /\ Ascii.eqb (base64.encode v) "$" = false.
Proof.
  revert v. apply below_64. intros k Hk.
  do 64 (destruct k as [|k]; [repeat split|]).
  lia.
Qed.

Lemma decodeMap_sextet (val shift : Z) :
  base64.decodeMap (base64.sextet val shift) = Some (Z.land (Z.shiftr val shift) 0x3F).
Proof. apply encode_properties, sextet_range. Qed.

Lemma sextet_plain (val shift : Z) :
  negb (base64.isNewline (base64.sextet val shift)) = true
  /\ negb (Ascii.eqb (base64.sextet val shift) "$") = true.
Proof.
  destruct (encode_properties _ (sextet_range (Z.shiftr val shift))) as (_ & Hn & Hd).
  unfold base64.sextet. now rewrite Hn, Hd.
Qed.

Lemma EncodeToString_plain (src : list ascii) :
  forallb (fun c => negb (base64.isNewline c)) (base64.EncodeToString src) = true
  /\ without "$" (base64.EncodeToString src) = true.
Proof.
  unfold without. induction src as [|a|a b|a b c l [IH1 IH2]] using list_ind3;
    cbn [base64.EncodeToString forallb];
    repeat match goal with
           | |- context [base64.sextet ?v ?s] =>
               let H1 := fresh in let H2 := fresh in
               destruct (sextet_plain v s) as [H1 H2]; rewrite ?H1, ?H2;
               clear H1 H2
           end; auto.
Qed.

Lemma filter_all {A : Type} (p : A -> bool) (l : list A) :
  forallb p l = true -> filter p l = l.
Proof.
  induction l as [|x l IH]; simpl; [reflexivity|].
  intros H. apply andb_true_iff in H as [Hx Hl]. now rewrite Hx, (IH Hl).
Qed.

(** The three bytes of a quantum, written out and read back. *)
Lemma quantum_round_trip (x y z : Z) :
  0 <= x < 256 -> 0 <= y < 256 -> 0 <= z < 256 ->
  let val := Z.lor (Z.shiftl x 16) (Z.lor (Z.shiftl y 8) z) in
  let s3 := Z.land (Z.shiftr val 18) 0x3F in
  let s2 := Z.land (Z.shiftr val 12) 0x3F in
  let s1 := Z.land (Z.shiftr val 6) 0x3F in
  let s0 := Z.land (Z.shiftr val 0) 0x3F in
  let val' := Z.lor (Z.shiftl s3 18) (Z.lor (Z.shiftl s2 12) (Z.lor (Z.shiftl s1 6) s0)) in
  Z.land (Z.shiftr val' 16) 0xFF = x
  /\ Z.land (Z.shiftr val' 8) 0xFF = y
  /\ Z.land (Z.shiftr val' 0) 0xFF = z.
Proof.
  intros Hx Hy Hz. cbv zeta.
  rewrite (lor_shiftl y z 8) by lia.
  rewrite (lor_shiftl x _ 16) by lia.
  rewrite !mask6, !mask8, !Z.shiftr_div_pow2 by lia.
  set (v := x * 2 ^ 16 + (y * 2 ^ 8 + z)).
  assert (Hv : v = x * 65536 + y * 256 + z) by (unfold v; lia).
  clearbody v.
  assert (H3 : 0 <= (v / 2 ^ 18) mod 64 < 64) by (apply Z.mod_pos_bound; lia).
  assert (H2 : 0 <= (v / 2 ^ 12) mod 64 < 64) by (apply Z.mod_pos_bound; lia).
  assert (H1 : 0 <= (v / 2 ^ 6) mod 64 < 64) by (apply Z.mod_pos_bound; lia).
  assert (H0 : 0 <= (v / 2 ^ 0) mod 64 < 64) by (apply Z.mod_pos_bound; lia).
  rewrite (lor_shiftl _ _ 6) by lia.
  rewrite (lor_shiftl _ _ 12) by lia.
  rewrite (lor_shiftl _ _ 18) by lia.
  change (2 ^ 18) with 262144 in *. change (2 ^ 16) with 65536 in *.
  change (2 ^ 12) with 4096 in *. change (2 ^ 8) with 256 in *.
  change (2 ^ 6) with 64 in *. change (2 ^ 0) with 1 in *.
  repeat split; Z.div_mod_to_equations; lia.
Qed.

Lemma quantum1_round_trip (x : Z) :
  0 <= x < 256 ->
  let val := Z.shiftl x 16 in
  let s3 := Z.land (Z.shiftr val 18) 0x3F in
  let s2 := Z.land (Z.shiftr val 12) 0x3F in
  let val' := Z.lor (Z.shiftl s3 18) (Z.shiftl s2 12) in
  Z.land (Z.shiftr val' 16) 0xFF = x.
Proof.
  intros Hx. cbv zeta.
  rewrite !mask6, !mask8, !Z.shiftr_div_pow2, (Z.shiftl_mul_pow2 x) by lia.
  set (v := x * 2 ^ 16).
  assert (Hv : v = x * 65536) by (unfold v; lia).
  clearbody v.
  assert (H3 : 0 <= (v / 2 ^ 18) mod 64 < 64) by (apply Z.mod_pos_bound; lia).
  assert (H2 : 0 <= (v / 2 ^ 12) mod 64 < 64) by (apply Z.mod_pos_bound; lia).
  rewrite (Z.shiftl_mul_pow2 _ 12) by lia.
  rewrite (lor_shiftl _ _ 18) by lia.
  change (2 ^ 18) with 262144 in *. change (2 ^ 16) with 65536 in *.
  change (2 ^ 12) with 4096 in *.
  Z.div_mod_to_equations; lia.
Qed.

Lemma quantum2_round_trip (x y : Z) :
  0 <= x < 256 -> 0 <= y < 256 ->
  let val := Z.lor (Z.shiftl x 16) (Z.shiftl y 8) in
  let s3 := Z.land (Z.shiftr val 18) 0x3F in
  let s2 := Z.land (Z.shiftr val 12) 0x3F in
  let s1 := Z.land (Z.shiftr val 6) 0x3F in
  let val' := Z.lor (Z.shiftl s3 18) (Z.lor (Z.shiftl s2 12) (Z.shiftl s1 6)) in
  Z.land (Z.shiftr val' 16) 0xFF = x
  /\ Z.land (Z.shiftr val' 8) 0xFF = y.
Proof.
  intros Hx Hy. cbv zeta.
  rewrite (Z.shiftl_mul_pow2 y 8) by lia.
  rewrite (lor_shiftl x _ 16) by lia.
  rewrite !mask6, !mask8, !Z.shiftr_div_pow2 by lia.
  set (v := x * 2 ^ 16 + y * 2 ^ 8).
  assert (Hv : v = x * 65536 + y * 256) by (unfold v; lia).
  clearbody v.
  assert (H3 : 0 <= (v / 2 ^ 18) mod 64 < 64) by (apply Z.mod_pos_bound; lia).
  assert (H2 : 0 <= (v / 2 ^ 12) mod 64 < 64) by (apply Z.mod_pos_bound; lia).
  assert (H1 : 0 <= (v / 2 ^ 6) mod 64 < 64) by (apply Z.mod_pos_bound; lia).
  rewrite (Z.shiftl_mul_pow2 _ 6) by lia.
  rewrite (lor_shiftl _ _ 12) by lia.
  rewrite (lor_shiftl _ _ 18) by lia.
  change (2 ^ 18) with 262144 in *. change (2 ^ 16) with 65536 in *.
  change (2 ^ 12) with 4096 in *. change (2 ^ 8) with 256 in *.
  change (2 ^ 6) with 64 in *.
  split; Z.div_mod_to_equations; lia.
Qed.

Lemma decodeQuanta_EncodeToString (src : list ascii) :
  base64.decodeQuanta (base64.EncodeToString src) = Some src.
Proof.
  induction src as [|a|a b|a b c l IH] using list_ind3.
  - reflexivity.
  - cbn [base64.EncodeToString base64.decodeQuanta].
    rewrite !decodeMap_sextet. unfold base64.octet.
    rewrite (quantum1_round_trip _ (byte_val_range a)), byte_of_val. reflexivity.
  - cbn [base64.EncodeToString base64.decodeQuanta].
    rewrite !decodeMap_sextet. unfold base64.octet.
    destruct (quantum2_round_trip _ _ (byte_val_range a) (byte_val_range b)) as [Ha Hb].
    rewrite Ha, Hb, !byte_of_val. reflexivity.
  - cbn [base64.EncodeToString base64.decodeQuanta].
    rewrite !decodeMap_sextet, IH. unfold base64.octet.
    destruct (quantum_round_trip _ _ _ (byte_val_range a) (byte_val_range b)
                (byte_val_range c)) as (Ha & Hb & Hc).
    rewrite Ha, Hb, Hc, !byte_of_val. reflexivity.
Qed.

(** Decoding undoes encoding. *)
Lemma DecodeString_EncodeToString (src : list ascii) :
  base64.DecodeString (base64.EncodeToString src) = Some src.
Proof.
  unfold base64.DecodeString.
  rewrite filter_all by apply EncodeToString_plain.
  apply decodeQuanta_EncodeToString.
Qed.

(** The length of the text gives back the number of bytes: three
    quarters of it, rounded down. *)
Lemma EncodeToString_length (src : list ascii) :
  len (base64.EncodeToString src) * 3 / 4 = len src.
Proof.
  unfold len.
  induction src as [|a|a b|a b c l IH] using list_ind3;
    try reflexivity.
  cbn [base64.EncodeToString List.length].
  rewrite !Nat2Z.inj_succ.
  revert IH. generalize (Z.of_nat (List.length (base64.EncodeToString l))).
  generalize (Z.of_nat (List.length l)). intros n m IH.
  Z.div_mod_to_equations. lia.
Qed.

(** ** Password hashes *)

Lemma Split_Sprintf_hash (version memory time threads : Z) (salt hash : list ascii) :
  0 <= version -> 0 <= memory -> 0 <= time -> 0 <= threads ->
  strings.Split
    (crypto.Sprintf_hash version memory time threads
       (base64.EncodeToString salt) (base64.EncodeToString hash)) "$"
  = [ [];
      go"argon2id";
      go"v=" ++ strconv.FormatInt version;
      go"m=" ++ strconv.FormatInt memory ++ go",t=" ++ strconv.FormatInt time
        ++ go",p=" ++ strconv.FormatInt threads;
      base64.EncodeToString salt;
      base64.EncodeToString hash ].
Proof.
  intros Hv Hm Ht Hp. unfold crypto.Sprintf_hash.
  change (go"$argon2id$v=") with ("$"%char :: go"argon2id" ++ "$"%char :: go"v=").
  change (go"$m=") with ("$"%char :: go"m=").
  change (go"$") with ["$"%char].
  repeat (repeat rewrite <- app_assoc; cbn [app]).
  rewrite (Split_app "$" [] _ eq_refl : strings.Split ("$"%char :: _) "$" = _).
  rewrite (Split_app "$" go"argon2id") by reflexivity.
  rewrite (app_assoc go"v=").
  rewrite (Split_app "$" (go"v=" ++ _)).
  2:{ rewrite without_app, FormatInt_without by (assumption || reflexivity). reflexivity. }
  replace (go"m=" ++ strconv.FormatInt memory ++ go",t=" ++ strconv.FormatInt time
             ++ go",p=" ++ strconv.FormatInt threads ++ "$"%char
             :: base64.EncodeToString salt ++ "$"%char :: base64.EncodeToString hash)
    with ((go"m=" ++ strconv.FormatInt memory ++ go",t=" ++ strconv.FormatInt time
             ++ go",p=" ++ strconv.FormatInt threads) ++ "$"%char
             :: base64.EncodeToString salt ++ "$"%char :: base64.EncodeToString hash)
    by (repeat rewrite <- app_assoc; reflexivity).
  rewrite (Split_app "$" (go"m=" ++ _)).
  2:{ rewrite !without_app, !FormatInt_without by (assumption || reflexivity). reflexivity. }
  rewrite (Split_app "$" (base64.EncodeToString salt)) by apply EncodeToString_plain.
  rewrite Split_without by apply EncodeToString_plain.
  reflexivity.
Qed.


Lemma Sscanf_version_printed :
  fmt.Sscanf (go"v=" ++ strconv.FormatInt crypto.Version) fmt.format_version = Some 19.
Proof. reflexivity. Qed.

(** What [Verify] reads off a hash that [Hash] wrote. *)
Lemma verifyConfig_Sprintf_hash (cfg : crypto.Argon2Config) (salt digest : list ascii) :
  inRange cfg ->
  crypto.verifyConfig
    (crypto.Sprintf_hash crypto.Version (crypto.Memory cfg) (crypto.Time cfg)
       (crypto.Threads cfg) (base64.EncodeToString salt)
       (base64.EncodeToString digest))
  = Some {| crypto.Time := crypto.Time cfg; crypto.Memory := crypto.Memory cfg;
            crypto.Threads := crypto.Threads cfg;
            crypto.KeyLen := crypto.uint32 (len digest) |}.
Proof.
  intros (Ht & Hm & Hp & Hk). unfold crypto.verifyConfig.
  rewrite Split_Sprintf_hash by (try lia; discriminate).
  cbn [List.length Nat.eqb negb crypto.part nth].
  rewrite Sscanf_version_printed, Sscanf_params_printed by assumption.
  rewrite DecodeString_EncodeToString.
  unfold crypto.digestKeyLen. rewrite EncodeToString_length. reflexivity.
Qed.

(** [Verify] derives the key with [verifyConfig] and the decoded salt,
    and compares its encoding with the last field. *)
Lemma Verify_after_parse (IDKey : crypto.KDF) (a : crypto.Argon2)
      (hash password : gostring) (cfg : crypto.Argon2Config) :
  crypto.verifyConfig hash = Some cfg ->
  exists salt,
    base64.DecodeString (crypto.part (strings.Split hash "$") 4) = Some salt
    /\ crypto.Verify IDKey a hash password
       = match IDKey password salt (crypto.Time cfg) (crypto.Memory cfg)
                     (crypto.Threads cfg) (crypto.KeyLen cfg) with
         | None => None
         | Some newHash =>
             Some (str_eqb (base64.EncodeToString newHash)
                           (crypto.part (strings.Split hash "$") 5), None)
         end.
Proof.
  unfold crypto.verifyConfig, crypto.Verify.
  destruct (negb _); [discriminate|].
  destruct (fmt.Sscanf _ fmt.format_version) as [version|]; [|discriminate].
  destruct (fmt.Sscanf _ fmt.format_params) as [[[memory time] threads]|]; [|discriminate].
  destruct (base64.DecodeString _) as [salt|]; [|discriminate].
  intros H. inversion H; subst. exists salt. split; reflexivity.
Qed.

Lemma verifyConfig_None (hash : gostring) :
  let parts := strings.Split hash "$" in
  crypto.verifyConfig hash = None <->
  List.length parts <> 6%nat
  \/ fmt.Sscanf (crypto.part parts 2) fmt.format_version = None
  \/ fmt.Sscanf (crypto.part parts 3) fmt.format_params = None
  \/ base64.DecodeString (crypto.part parts 4) = None.
Proof.
  cbv zeta. unfold crypto.verifyConfig.
  destruct (Nat.eqb_spec (List.length (strings.Split hash "$")) 6) as [E|E];
    cbn [negb]; [|tauto].
  destruct (fmt.Sscanf _ fmt.format_version) as [version|]; [|tauto].
  destruct (fmt.Sscanf _ fmt.format_params) as [[[memory time] threads]|]; [|tauto].
  destruct (base64.DecodeString _) as [salt|]; [|tauto].
  split; [discriminate|]. intros [H|[H|[H|H]]]; congruence.
Qed.

Lemma Verify_parse_error (IDKey : crypto.KDF) (a : crypto.Argon2)
      (hash password : gostring) :
  crypto.verifyConfig hash = None ->
  exists e, crypto.Verify IDKey a hash password = Some (false, Some e).
Proof.
  unfold crypto.verifyConfig, crypto.Verify.
  destruct (negb _); [eauto|].
  destruct (fmt.Sscanf _ fmt.format_version) as [version|]; [|eauto].
  destruct (fmt.Sscanf _ fmt.format_params) as [[[memory time] threads]|]; [|eauto].
  destruct (base64.DecodeString _) as [salt|]; [discriminate|eauto].
Qed.

Lemma uint32_small (x : Z) : 0 <= x < 2 ^ 32 -> crypto.uint32 x = x.
Proof. intros H. unfold crypto.uint32. now apply Z.mod_small. Qed.

(** C2.  A hash written by [Hash] verifies against the password it was
    made from, with no error: for every configuration within the
    ranges of its types, every salt and every password for which the
    key derivation returns a key of the requested length.  The
    verifier may be any [Argon2] value: [Verify] takes every parameter
    from the hash. *)
Theorem hash_round_trip :
  forall (IDKey : crypto.KDF) (a verifier : crypto.Argon2)
         (salt password digest : gostring),
    inRange (crypto.config a) ->
    IDKey password salt (crypto.Time (crypto.config a))
          (crypto.Memory (crypto.config a)) (crypto.Threads (crypto.config a))
          (crypto.KeyLen (crypto.config a)) = Some digest ->
    len digest = crypto.KeyLen (crypto.config a) ->
    exists hash,
      crypto.Hash IDKey a (inl salt) password = Some (hash, None)
      /\ crypto.Verify IDKey verifier hash password = Some (true, None).
Proof.
  intros IDKey a verifier salt password digest Hr Hkdf Hlen.
  unfold crypto.Hash. rewrite Hkdf. eexists. split; [reflexivity|].
  pose proof (verifyConfig_Sprintf_hash (crypto.config a) salt digest Hr) as Hcfg.
  destruct (Verify_after_parse IDKey verifier _ password _ Hcfg) as (salt' & Hs & Hv).
  rewrite Hv. clear Hv.
  rewrite Split_Sprintf_hash in * by (destruct Hr as (? & ? & ? & ?); try lia; discriminate).
  cbn [crypto.part nth] in *.
  rewrite DecodeString_EncodeToString in Hs. inversion Hs; subst salt'.
  cbn [crypto.Time crypto.Memory crypto.Threads crypto.KeyLen].
  rewrite Hlen, uint32_small by apply Hr.
  rewrite Hkdf, str_eqb_refl. reflexivity.
Qed.

Lemma hash_round_trip_witness :
  let a := crypto.NewArgon2 crypto.serverConfig in
  exists hash,
    crypto.Hash crypto.sampleKDF a (inl go"0123456789abcdef") go"hunter2"
    = Some (hash, None)
    /\ crypto.Verify crypto.sampleKDF a hash go"hunter2" = Some (true, None).
Proof.
  intros a.
  eapply (hash_round_trip crypto.sampleKDF a a go"0123456789abcdef" go"hunter2").
  - unfold inRange. simpl. lia.
  - reflexivity.
  - reflexivity.
Defined.




(** C6, as the code has it.  [Verify] returns an error exactly when the
    hash does not split into six fields at the dollar signs, or
    [Sscanf] fails on the third field, or on the fourth, or the fifth
    field is not base64; the boolean is then [false].  When none of
    the four checks fails, [Verify] derives a key with the salt and
    the numbers it has read: when the key derivation returns, [Verify]
    returns without error, with [true] exactly when the encoding of
    the key equals the last field, hence [(false, nil)] for a hash
    that does not match and for a last field that is not base64; when
    the key derivation panics, so does [Verify]. *)
Theorem Verify_error_discipline :
  forall (IDKey : crypto.KDF) (a : crypto.Argon2) (hash password : gostring),
    let parts := strings.Split hash "$" in
    ((exists b e, crypto.Verify IDKey a hash password = Some (b, Some e))
     <-> (List.length parts <> 6%nat
          \/ fmt.Sscanf (crypto.part parts 2) fmt.format_version = None
          \/ fmt.Sscanf (crypto.part parts 3) fmt.format_params = None
          \/ base64.DecodeString (crypto.part parts 4) = None))
    /\ (forall b e, crypto.Verify IDKey a hash password = Some (b, Some e) -> b = false)
    /\ (forall version memory time threads salt,
          List.length parts = 6%nat ->
          fmt.Sscanf (crypto.part parts 2) fmt.format_version = Some version ->
          fmt.Sscanf (crypto.part parts 3) fmt.format_params
          = Some (memory, time, threads) ->
          base64.DecodeString (crypto.part parts 4) = Some salt ->
          match IDKey password salt time memory threads
                      (crypto.digestKeyLen (crypto.part parts 5)) with
          | Some newHash =>
              crypto.Verify IDKey a hash password
              = Some (str_eqb (base64.EncodeToString newHash) (crypto.part parts 5),
                      None)
              /\ (base64.EncodeToString newHash <> crypto.part parts 5 ->
                  crypto.Verify IDKey a hash password = Some (false, None))
              /\ (base64.DecodeString (crypto.part parts 5) = None ->
                  crypto.Verify IDKey a hash password = Some (false, None))
          | None => crypto.Verify IDKey a hash password = None
          end).
Proof.
  intros IDKey a hash password parts.
  split; [|split].
  - pose proof (verifyConfig_None hash) as Hnone. cbv zeta in Hnone. fold parts in Hnone.
    destruct (crypto.verifyConfig hash) as [cfg|] eqn:Hcfg.
    + destruct (Verify_after_parse IDKey a hash password cfg Hcfg) as (salt & Hs & Hv).
      rewrite Hv. split.
      * intros (b & e & H). destruct (IDKey password salt _ _ _ _); discriminate.
      * intros H. apply Hnone in H. discriminate.
    + destruct (Verify_parse_error IDKey a hash password Hcfg) as [e He].
      split; [intros _; now apply Hnone|intros _; eauto].
  - intros b e. unfold crypto.Verify. fold parts.
    destruct (negb _); [intros H; now inversion H|].
    destruct (fmt.Sscanf _ fmt.format_version) as [version|];
      [|intros H; now inversion H].
    destruct (fmt.Sscanf _ fmt.format_params) as [[[memory time] threads]|];
      [|intros H; now inversion H].
    destruct (base64.DecodeString _) as [salt|]; [|intros H; now inversion H].
    destruct (IDKey password salt _ _ _ _); discriminate.
  - intros version memory time threads salt Hlen Hv Hp Hs.
    unfold crypto.Verify. fold parts. rewrite Hlen, Hv, Hp, Hs. cbn [Nat.eqb negb].
    destruct (IDKey password salt time memory threads _) as [newHash|];
      [|reflexivity].
    split; [reflexivity|]. split.
    + intros Hne. apply str_eqb_neq in Hne. now rewrite Hne.
    + intros Hd.
      destruct (str_eqb (base64.EncodeToString newHash) (crypto.part parts 5)) eqn:E;
        [|reflexivity].
      apply str_eqb_eq in E. rewrite <- E, DecodeString_EncodeToString in Hd.
      discriminate.
Qed.

(** C6, as the specification has it, fails.  A digest field that is
    not base64 and text after the version and after the cost
    parameters are no errors: [Verify] does not decode the digest
    field, and [Sscanf] ignores what follows the last number. *)
Lemma Verify_no_error_on_malformed_hash :
  let a := crypto.NewArgon2 crypto.serverConfig in
  base64.DecodeString go"!!!!" = None
  /\ crypto.Verify crypto.sampleKDF a
       go"$argon2id$v=19$m=65536,t=1,p=4$c2FsdA$!!!!" go"pw"
     = Some (false, None)
  /\ crypto.Verify crypto.sampleKDF a
       go"$argon2id$v=19abc$m=65536,t=1,p=4xyz$c2FsdA$AAAA" go"pw"
     = Some (false, None).
Proof. intros a. repeat split. Qed.

(** A parameter that is a number but exceeds its type is an error; a
    pass count of zero makes the key derivation panic. *)
Example Verify_threads_overflow :
  crypto.Verify crypto.sampleKDF (crypto.NewArgon2 crypto.serverConfig)
    go"$argon2id$v=19$m=65536,t=1,p=256$c2FsdA$AAAA" go"pw"
  = Some (false, Some "failed to parse hash"%string).
Proof. reflexivity. Qed.

Example Verify_wrong_password :
  crypto.Verify crypto.sampleKDF (crypto.NewArgon2 crypto.serverConfig)
    go"$argon2id$v=19$m=65536,t=1,p=4$MDEyMzQ1Njc4OWFiY2RlZg$lZaXmJmam5ydnp+goaKjpKWmp6ipqqusra6vsLGys7Q"
    go"hunter3"
  = Some (false, None).
Proof. reflexivity. Qed.

(** ** The date gate of [GetPicture] *)

Lemma outsideAllowedDates_false (cal : pictures.Calendar) (now : pictures.Time) :
  pictures.outsideAllowedDates cal now = false <->
  pictures.Day now = pictures.anniversaryDay cal
  \/ pictures.Month now = pictures.valentineDay cal
  \/ pictures.Month now = pictures.valentineMonth cal.
Proof.
  unfold pictures.outsideAllowedDates.
  destruct (Z.eqb_spec (pictures.Day now) (pictures.anniversaryDay cal));
    destruct (Z.eqb_spec (pictures.Month now) (pictures.valentineDay cal));
    destruct (Z.eqb_spec (pictures.Month now) (pictures.valentineMonth cal));
    simpl; intuition congruence.
Qed.

(** C4.  The gate of [GetPicture] compares the month, not the day, with
    [valentineDay]: with Valentine's Day as February 14 it lets every
    day of February through, whatever the anniversary day.  On
    February 15 access is granted, where the rule of the specification
    (anniversary day, or February 14 exactly) denies it. *)
Theorem gate_open_all_february :
  forall anniversary day : Z,
    pictures.outsideAllowedDates (pictures.calendar anniversary)
      {| pictures.Day := day; pictures.Month := 2 |} = false.
Proof.
  intros anniversary day. apply outsideAllowedDates_false. simpl. auto.
Qed.

Example GetPicture_february_15 :
  let svc := {| pictures.basePath := go"images" |} in
  let fs := fun p => if str_eqb p go"images/a.png" then Some go"PNG" else None in
  pictures.GetPicture svc (pictures.calendar 3)
    {| pictures.Day := 15; pictures.Month := 2 |} fs go"a.png" newContext
  = Returned {| written := Some (File go"images/a.png" go"PNG");
                aborted := false; principal := None |}.
Proof. reflexivity. Qed.

(** ** The path check of [GetPicture] *)

(** C9.  The check [HasPrefix(filePath, basePath)] compares characters,
    not path elements.  With the base directory [images] the name
    [../images2/secret.png] is cleaned to [images2/secret.png], a path
    outside [images] that still begins with its characters: the handler
    does not answer 400 and serves the file. *)
Theorem GetPicture_serves_sibling_directory :
  let svc := {| pictures.basePath := go"images" |} in
  let name := go"../images2/secret.png" in
  let fs := fun p => if str_eqb p go"images2/secret.png" then Some go"secret" else None in
  filepath.Join [pictures.basePath svc; name] = go"images2/secret.png"
  /\ pictures.insideDir (pictures.basePath svc)
       (filepath.Join [pictures.basePath svc; name]) = false
  /\ pictures.GetPicture svc (pictures.calendar 14)
       {| pictures.Day := 14; pictures.Month := 2 |} fs name newContext
     = Returned {| written := Some (File go"images2/secret.png" go"secret");
                   aborted := false; principal := None |}.
Proof. repeat split. Qed.

(** Names that climb above the base directory are refused. *)
Example GetPicture_refuses_parent :
  let svc := {| pictures.basePath := go"images" |} in
  pictures.GetPicture svc (pictures.calendar 14)
    {| pictures.Day := 14; pictures.Month := 2 |} (fun _ => Some go"x")
    go"../../etc/passwd" newContext
  = Returned {| written := Some (JSON StatusBadRequest "error" "invalid file path");
                aborted := false; principal := None |}.
Proof. reflexivity. Qed.

(** ** Bearer extraction *)

Section Bearer.

Variable now : Z.
Variable wire : gostring -> jwt.TokenString.

(** [AuthMiddleware] lets a request through only when the header is
    [Bearer ] followed by a non-empty token that [validateToken]
    accepts, and hands exactly that token to [validateToken]; every
    other request is answered 401 and aborted. *)
Lemma AuthMiddleware_bearer (a : server.Api) (authHeader : gostring) :
  let c' := server.AuthMiddleware a now wire authHeader newContext in
  (exists tok user,
      authHeader = server.prefix ++ tok /\ tok <> []
      /\ server.validateToken a now (wire tok) newContext = (user, true, newContext)
      /\ c' = gin.SetPrincipal newContext (ID user) (Username user))
  \/ (aborted c' = true /\ principal c' = None
      /\ exists msg, written c' = Some (JSON 401 "error" msg)).
Proof.
  unfold server.AuthMiddleware. cbv zeta.
  destruct (str_eqb authHeader []) eqn:He.
  { right. simpl. eauto. }
  destruct (strings.HasPrefix authHeader server.prefix) eqn:Hp.
  2:{ right. simpl. eauto. }
  apply HasPrefix_split in Hp.
  remember (skipn (List.length server.prefix) authHeader) as tok eqn:Etok.
  cbn [negb].
  destruct (str_eqb tok []) eqn:Ht.
  { right. simpl. eauto. }
  apply str_eqb_neq in Ht.
  destruct (server.validateToken a now (wire tok) newContext)
    as [[user ok] c1] eqn:Hv.
  assert (Hrej : forall u, (u, false, server.unauthorized newContext) = (user, ok, c1) ->
            aborted (if negb ok then c1 else gin.SetPrincipal c1 (ID user) (Username user)) = true /\
            principal (if negb ok then c1 else gin.SetPrincipal c1 (ID user) (Username user)) = None /\
            exists msg, written (if negb ok then c1 else gin.SetPrincipal c1 (ID user) (Username user))
                        = Some (JSON 401 "error" msg)).
  { intros u E. inversion E; subst. simpl. eauto. }
  pose proof Hv as Hcall.
  unfold server.validateToken in Hv.
  destruct (jwt.Parse _ _ _) as [token [e|]]; [right; eapply Hrej; eauto|].
  destruct (negb (jwt.Valid token)); [right; eapply Hrej; eauto|].
  destruct (jwt.get _ _) as [[| | |f| |]|];
    try (right; eapply Hrej; eauto; fail).
  destruct (jwt.get _ _) as [[| | | |s|]|];
    try (right; eapply Hrej; eauto; fail).
  inversion Hv; subst ok c1. left. cbn [negb].
  exists tok, user. repeat split; auto.
  now rewrite <- H0.
Qed.

(** C7.  [Refresh] calls [ErrorHandler] with a [nil] error on each of
    its rejections; [err.Error()] then panics before the 401 is
    written.  For a missing header, a header without the prefix and
    an empty token, the handler panics, and the recovery handler
    answers 500 where [AuthMiddleware] answers 401. *)
Theorem Refresh_rejections_panic :
  forall svc : auth.AuthService,
    (auth.Refresh svc now wire go"" newContext = Panicked newContext
     /\ auth.Refresh svc now wire go"Basic abc" newContext = Panicked newContext
     /\ auth.Refresh svc now wire go"Bearer " newContext = Panicked newContext)
    /\ written (server.Recovery (auth.Refresh svc now wire go"" newContext))
       = Some (Status StatusInternalServerError)
    /\ forall a : server.Api,
        written (server.AuthMiddleware a now wire go"" newContext)
        = Some (JSON StatusUnauthorized "error" "Authorization header is missing").
Proof. intros svc. repeat split. Qed.

End Bearer.

(** ** Registration *)






(** Served alone, the statement machine of [Register] stops within
    five steps with the response and the tables of the handler. *)
Lemma run_agrees_with_Register (svc : auth.AuthService) (env : auth.Env)
      (req : auth.RegisterRequest) (d : db.SQLiteDB) :
  exists r d',
    auth.run svc env req 5 auth.AtContainsKey d = (auth.Finished r, d')
    /\ auth.Register svc env (Some req) (newContext, d)
       = Returned (gin.write newContext r, d').
Proof.
  unfold auth.Register, auth.run, auth.step. cbn [snd fst].
  destruct (db.ContainsKey _ d _) as [[|] [e|]];
    try (do 2 eexists; split; reflexivity).
  destruct (db.GetUser _ d _) as [u0 [e0|]];
    try (do 2 eexists; split; reflexivity).
  destruct (auth.argonHash env _) as [hash|e1];
    try (do 2 eexists; split; reflexivity).
  unfold db.CreateUser.
  destruct (db.insertUser _ d _ hash) as [[e2|] d1];
    try (do 2 eexists; split; reflexivity).
  destruct (db.GetUser _ d1 _) as [user [e3|]];
    try (do 2 eexists; split; reflexivity).
  destruct (db.DeleteKey _ d1 _) as [[e4|] d2];
    try (do 2 eexists; split; reflexivity).
Qed.

(** C3.  Two registrations that present the same key, their statements
    interleaved so that both key checks run before either deletion:
    both handlers answer 200 with a token and both accounts exist.
    The existence check and the deletion are separate statements, with
    the creation of the user between them. *)
Theorem concurrent_registrations_share_a_key :
  forall (svc : auth.AuthService) (hash : gostring -> gostring),
    let env := {| auth.containsKeyFails := false; auth.getUserFails := false;
                  auth.insertFails := false; auth.selectFails := false;
                  auth.deleteKeyFails := false;
                  auth.argonHash := fun p => inl (hash p);
                  auth.ToLower := asciiToLower |} in
    let alice := {| auth.reqUsername := go"Alice"; auth.reqPassword := go"pw1";
                    auth.reqKey := go"k" |} in
    let bob := {| auth.reqUsername := go"Bob"; auth.reqPassword := go"pw2";
                  auth.reqKey := go"k" |} in
    let d0 := {| db.users := []; db.keys := [go"k"] |} in
    let ua := {| ID := 1; Username := go"alice"; Password := hash go"pw1" |} in
    let ub := {| ID := 2; Username := go"bob"; Password := hash go"pw2" |} in
    exists ta tb,
      jwt.SignedString (auth.newToken ua) (auth.jwtKey svc) = inl ta
      /\ jwt.SignedString (auth.newToken ub) (auth.jwtKey svc) = inl tb
      /\ auth.interleave svc env alice bob
           [true; false; true; false; true; true; true; false; false; false]
           auth.AtContainsKey auth.AtContainsKey d0
         = (auth.Finished (JSONToken StatusOK ta),
            auth.Finished (JSONToken StatusOK tb),
            {| db.users := [ua; ub]; db.keys := [] |}).
Proof.
  intros svc hash. cbv zeta. do 2 eexists. repeat split.
Qed.

(** ** Numbers in claims *)


Lemma float64_to_int_exact (f : float64) (n : Z) :
  minInt64 <= n <= maxInt64 -> float64_is_int f n -> float64_to_int f = n.
Proof.
  intros Hr Hn. unfold float64_to_int, float64_trunc.
  unfold float64_is_int in Hn.
  destruct (0 <=? Fexp f) eqn:He.
  - rewrite <- Hn.
    destruct (Z.leb_spec minInt64 n); [|lia].
    destruct (Z.leb_spec n maxInt64); [|lia]. reflexivity.
  - apply Z.leb_gt in He.
    assert (Hp : 0 < 2 ^ (- Fexp f)) by (apply Z.pow_pos_nonneg; lia).
    rewrite Hn, Z.quot_mul by lia.
    destruct (Z.leb_spec minInt64 n); [|lia].
    destruct (Z.leb_spec n maxInt64); [|lia]. reflexivity.
Qed.

Lemma float64_of_int_value (n : Z) :
  float64_representable n -> float64_is_int (float64_of_int n) n.
Proof.
  intros (m & e & He & Hm & Hn).
  unfold float64_of_int, float64_is_int.
  destruct (Z.leb_spec (Z.log2 (Z.abs n) + 1) 53) as [Hb|Hb]; simpl.
  - rewrite Z.mul_1_r. reflexivity.
  - set (a := Z.abs n) in *.
    set (sh := Z.log2 a + 1 - 53) in *.
    assert (Hsh : 0 < sh) by (unfold sh; lia).
    assert (Hm0 : m <> 0).
    { intros ->. subst n. simpl in a. unfold a in Hb. simpl in Hb. lia. }
    assert (Ha : a = Z.abs m * 2 ^ e).
    { unfold a. subst n. rewrite Z.abs_mul. f_equal.
      apply Z.abs_eq. apply Z.pow_nonneg. lia. }
    assert (Hlog : Z.log2 a = e + Z.log2 (Z.abs m)).
    { rewrite Ha. apply Z.log2_mul_pow2; lia. }
    assert (Hlm : Z.log2 (Z.abs m) < 53).
    { apply Z.log2_lt_pow2; lia. }
    assert (Hle : sh <= e) by (unfold sh; lia).
    assert (Hdiv : a = Z.abs m * 2 ^ (e - sh) * 2 ^ sh).
    { rewrite Ha, <- Z.mul_assoc, <- Z.pow_add_r by lia. do 2 f_equal. lia. }
    assert (Hpow : 0 < 2 ^ sh) by (apply Z.pow_pos_nonneg; lia).
    assert (Hr : Z.land a (Z.ones sh) = 0).
    { rewrite Z.land_ones by lia. rewrite Hdiv. apply Z.mod_mul. lia. }
    assert (Hq : Z.shiftr a sh = Z.abs m * 2 ^ (e - sh)).
    { rewrite Z.shiftr_div_pow2 by lia. rewrite Hdiv. apply Z.div_mul. lia. }
    assert (Hhalf : 0 < Z.shiftl 1 (sh - 1)).
    { rewrite Z.shiftl_1_l. apply Z.pow_pos_nonneg; lia. }
    rewrite Hr.
    destruct (Z.ltb_spec (Z.shiftl 1 (sh - 1)) 0); [lia|].
    destruct (Z.eqb_spec 0 (Z.shiftl 1 (sh - 1))); [lia|].
    cbn [orb andb Fexp Fnum].
    destruct (Z.leb_spec 0 sh); [|lia].
    rewrite Hq, <- Z.mul_assoc, <- Hdiv.
    unfold a. rewrite Z.mul_comm. symmetry. apply Z.abs_sgn.
Qed.

(** An integer that is a [float64] and an [int] survives the passage
    through JSON. *)
Lemma float64_int_round_trip (n : Z) :
  minInt64 <= n <= maxInt64 -> float64_representable n ->
  float64_to_int (float64_of_int n) = n.
Proof.
  intros Hr Hn. apply float64_to_int_exact; [assumption|].
  now apply float64_of_int_value.
Qed.

Lemma small_int_representable (n : Z) :
  Z.abs n < 2 ^ 53 -> float64_representable n.
Proof. intros H. exists n, 0. repeat split; [lia|assumption|lia]. Qed.

(** ** Strings in JSON *)

Lemma readBack_valid_fuel (n : nat) :
  forall s : gostring,
    (List.length s <= n)%nat -> utf8.ValidString s = true -> json.readBack s = s.
Proof.
  induction n as [|n IH]; intros s Hlen Hv.
  - destruct s; [reflexivity|cbn in Hlen; lia].
  - destruct s as [|b0 t0]; [reflexivity|].
    cbn [utf8.ValidString json.readBack] in *. cbv zeta in *.
    destruct (byte_val b0 <? 0x80).
    { f_equal. apply IH; [cbn in Hlen; lia|assumption]. }
    destruct (utf8.first (byte_val b0)) as [[[[| |] lo] hi]|]; [| | |discriminate].
    + destruct t0 as [|b1 t1]; [discriminate|].
      apply andb_true_iff in Hv as [H1 Hv]. rewrite H1.
      do 2 f_equal. apply IH; [cbn in Hlen; lia|assumption].
    + destruct t0 as [|b1 [|b2 t2]]; try discriminate.
      apply andb_true_iff in Hv as [H1 Hv]. rewrite H1.
      do 3 f_equal. apply IH; [cbn in Hlen; lia|assumption].
    + destruct t0 as [|b1 [|b2 [|b3 t3]]]; try discriminate.
      apply andb_true_iff in Hv as [H1 Hv]. rewrite H1.
      do 4 f_equal. apply IH; [cbn in Hlen; lia|assumption].
Qed.

(** Valid UTF-8 passes through JSON unchanged. *)
Lemma readBack_valid (s : gostring) :
  utf8.ValidString s = true -> json.readBack s = s.
Proof. apply (readBack_valid_fuel (List.length s)). lia. Qed.

Lemma ValidString_ascii (s : gostring) :
  forallb (fun c => byte_val c <? 0x80) s = true -> utf8.ValidString s = true.
Proof.
  induction s as [|c s IH]; [reflexivity|].
  cbn [forallb utf8.ValidString]. intros H. apply andb_true_iff in H as [Hc Hs].
  cbv zeta. rewrite Hc. now apply IH.
Qed.

(** ** Tokens *)

Lemma Verify_MAC (h : jwt.Hash) (key : gostring) (claims : jwt.MapClaims) :
  jwt.Verify (jwt.SigningMethodHMAC h) claims
    (jwt.MAC h key (jwt.SigningMethodHMAC h) claims) key = true.
Proof.
  unfold jwt.Verify. destruct (jwt.Signature_eq_dec _ _); [reflexivity|contradiction].
Qed.

Lemma Parse_accepts (ts : jwt.TokenString) (keyFunc : jwt.Token -> gostring + string)
      (now : Z) (token : jwt.Token) :
  jwt.Parse ts keyFunc now = (token, None) ->
  jwt.Valid token = true
  /\ exists alg sig, ts = jwt.Segments alg (jwt.Claims token) sig.
Proof.
  unfold jwt.Parse. destruct ts as [raw|[method|] claims sig]; try discriminate.
  destruct (keyFunc _) as [key|e]; try discriminate.
  destruct (_ && _); try discriminate.
  intros H. inversion H; subst. simpl. eauto.
Qed.

Lemma validateToken_agree (svc : auth.AuthService) (a : server.Api)
      (now : Z) (ts : jwt.TokenString) (c : Context) :
  server.jwtKey a = auth.jwtKey svc ->
  server.validateToken a now ts c = auth.validateToken svc now ts c.
Proof.
  intros Hk. unfold server.validateToken, auth.validateToken.
  replace (jwt.Parse ts (server.keyFunc a) now)
    with (jwt.Parse ts (auth.keyFunc svc) now); [reflexivity|].
  unfold jwt.Parse, server.keyFunc, auth.keyFunc. rewrite Hk. reflexivity.
Qed.

(** C8, as the code has it.  A token that [jwt.Parse] accepts and whose
    [user_id] is any number and [username] any string is accepted by
    both [validateToken] functions: no number is refused.  The user id
    is the number with its fractional part discarded (the least [int]
    when it is out of range); it is the number itself when that is an
    integer in the range of [int]. *)
Theorem validateToken_converts_by_truncation :
  forall (svc : auth.AuthService) (a : server.Api) (now : Z)
         (ts : jwt.TokenString) (token : jwt.Token)
         (f : float64) (u : gostring) (c : Context),
    server.jwtKey a = auth.jwtKey svc ->
    jwt.Parse ts (auth.keyFunc svc) now = (token, None) ->
    jwt.get (jwt.Claims token) go"user_id" = Some (jwt.VFloat64 f) ->
    jwt.get (jwt.Claims token) go"username" = Some (jwt.VString u) ->
    auth.validateToken svc now ts c
    = ({| ID := float64_to_int f; Username := u; Password := [] |}, true, c)
    /\ server.validateToken a now ts c
       = ({| ID := float64_to_int f; Username := u; Password := [] |}, true, c)
    /\ (forall n, minInt64 <= n <= maxInt64 -> float64_is_int f n ->
                  float64_to_int f = n).
Proof.
  intros svc a now ts token f u c Hk Hp Hid Hname.
  assert (Hauth : auth.validateToken svc now ts c
                  = ({| ID := float64_to_int f; Username := u; Password := [] |}, true, c)).
  { unfold auth.validateToken. rewrite Hp.
    destruct (Parse_accepts _ _ _ _ Hp) as [Hv _].
    rewrite Hv, Hid, Hname. reflexivity. }
  repeat split.
  - exact Hauth.
  - rewrite (validateToken_agree svc a now ts c Hk). exact Hauth.
  - intros n Hr Hn. now apply float64_to_int_exact.
Qed.


Lemma validateToken_converts_by_truncation_witness :
  let svc := {| auth.jwtKey := go"secret"; auth.apiKey := go"admin" |} in
  let a := {| server.jwtKey := go"secret"; server.prometheusKey := go"p";
              server.apiKey := go"admin" |} in
  auth.validateToken svc 0 (fractional_token go"secret") newContext
  = ({| ID := 1; Username := go"alice"; Password := [] |}, true, newContext)
  /\ server.validateToken a 0 (fractional_token go"secret") newContext
     = ({| ID := 1; Username := go"alice"; Password := [] |}, true, newContext).
Proof.
  intros svc a.
  destruct (validateToken_converts_by_truncation svc a 0
              (fractional_token go"secret")
              {| jwt.Method := jwt.SigningMethodHS256;
                 jwt.Claims := [(go"user_id", jwt.VFloat64 (Float 3 (-1)));
                                (go"username", jwt.VString go"alice")];
                 jwt.Valid := true |}
              (Float 3 (-1)) go"alice" newContext
              eq_refl eq_refl eq_refl eq_refl) as (H1 & H2 & _).
  split; [exact H1 | exact H2].
Defined.

(** C8, as the specification has it, fails: a signed token whose
    [user_id] is 1.5 is not refused; both [validateToken] functions
    accept it and return the user id 1, although 1.5 is no integer. *)
Lemma validateToken_accepts_fractional_id :
  let svc := {| auth.jwtKey := go"secret"; auth.apiKey := go"admin" |} in
  let a := {| server.jwtKey := go"secret"; server.prometheusKey := go"p";
              server.apiKey := go"admin" |} in
  jwt.get [(go"user_id", jwt.VFloat64 (Float 3 (-1)));
           (go"username", jwt.VString go"alice")] go"user_id"
  = Some (jwt.VFloat64 (Float 3 (-1)))
  /\ (forall n, ~ float64_is_int (Float 3 (-1)) n)
  /\ auth.validateToken svc 0 (fractional_token go"secret") newContext
     = ({| ID := 1; Username := go"alice"; Password := [] |}, true, newContext)
  /\ server.validateToken a 0 (fractional_token go"secret") newContext
     = ({| ID := 1; Username := go"alice"; Password := [] |}, true, newContext).
Proof.
  intros svc a. split; [reflexivity|]. split.
  - intros n H. unfold float64_is_int in H. simpl in H. lia.
  - split; reflexivity.
Qed.

(** C1, as the code has it.  A token issued for a user whose id is an
    [int] that is a [float64] and whose name is valid UTF-8, empty or
    not, validates, under the same key and at any time, to the
    principal it was issued for: the same id and the same user name,
    with no password. *)
Theorem token_round_trip :
  forall (svc : auth.AuthService) (now : Z) (user : User) (c : Context),
    minInt64 <= ID user <= maxInt64 ->
    float64_representable (ID user) ->
    utf8.ValidString (Username user) = true ->
    exists tokenString,
      auth.generateAndSendToken svc user = inl tokenString
      /\ auth.validateToken svc now tokenString c
         = ({| ID := ID user; Username := Username user; Password := [] |}, true, c).
Proof.
  intros svc now user c Hr Hrep Hname.
  eexists. split; [reflexivity|].
  unfold auth.validateToken, jwt.Parse. cbn [auth.keyFunc jwt.Method].
  cbn -[jwt.Verify jwt.MAC float64_of_int float64_to_int json.readBack].
  unfold jwt.SigningMethodHS256.
  rewrite Verify_MAC. cbn -[float64_of_int float64_to_int json.readBack].
  rewrite float64_int_round_trip by assumption.
  rewrite readBack_valid by assumption. reflexivity.
Qed.

Lemma token_round_trip_witness :
  let svc := {| auth.jwtKey := go"secret"; auth.apiKey := go"admin" |} in
  let user := {| ID := 7; Username := go"alice"; Password := go"$argon2id$" |} in
  exists tokenString,
    auth.generateAndSendToken svc user = inl tokenString
    /\ auth.validateToken svc 1700000000 tokenString newContext
       = ({| ID := 7; Username := go"alice"; Password := [] |}, true, newContext).
Proof.
  intros svc user.
  apply (token_round_trip svc 1700000000 user newContext).
  - unfold minInt64, maxInt64. simpl. lia.
  - apply small_int_representable. simpl. lia.
  - reflexivity.
Defined.

(** C1, as the specification has it, fails: a user name that is not
    empty need not come back.  The name of one byte [0xFF] is not
    valid UTF-8; the token issued for it carries U+FFFD, and
    [validateToken] returns that name of three bytes. *)
Lemma token_round_trip_loses_invalid_bytes :
  let svc := {| auth.jwtKey := go"secret"; auth.apiKey := go"admin" |} in
  let user := {| ID := 7; Username := [byte_of 0xFF]; Password := go"$argon2id$" |} in
  Username user <> []
  /\ utf8.ValidString (Username user) = false
  /\ exists tokenString,
      auth.generateAndSendToken svc user = inl tokenString
      /\ auth.validateToken svc 1700000000 tokenString newContext
         = ({| ID := 7; Username := [byte_of 0xEF; byte_of 0xBF; byte_of 0xBD];
               Password := [] |}, true, newContext)
      /\ [byte_of 0xEF; byte_of 0xBF; byte_of 0xBD] <> Username user.
Proof.
  intros svc user. split; [discriminate|]. split; [reflexivity|].
  eexists. split; [reflexivity|]. split; [reflexivity|discriminate].
Qed.

(** * Further properties *)

(** ** Password hashes, continued *)

Lemma EncodeToString_injective (x y : list ascii) :
  base64.EncodeToString x = base64.EncodeToString y -> x = y.
Proof.
  intros H. apply (f_equal base64.DecodeString) in H.
  rewrite !DecodeString_EncodeToString in H. now inversion H.
Qed.

Lemma str_eqb_EncodeToString (x y : list ascii) :
  str_eqb (base64.EncodeToString x) (base64.EncodeToString y) = str_eqb x y.
Proof.
  destruct (str_eqb x y) eqn:E.
  - apply str_eqb_eq in E. subst. apply str_eqb_refl.
  - apply str_eqb_neq. intros H. apply EncodeToString_injective in H.
    apply str_eqb_neq in E. contradiction.
Qed.

(** [Verify] on a hash in the format of [Hash], for any password. *)
Lemma Verify_Sprintf_hash (IDKey : crypto.KDF) (verifier : crypto.Argon2)
      (cfg : crypto.Argon2Config) (salt digest q : gostring) :
  inRange cfg -> len digest = crypto.KeyLen cfg ->
  crypto.Verify IDKey verifier
    (crypto.Sprintf_hash crypto.Version (crypto.Memory cfg) (crypto.Time cfg)
       (crypto.Threads cfg) (base64.EncodeToString salt)
       (base64.EncodeToString digest)) q
  = match IDKey q salt (crypto.Time cfg) (crypto.Memory cfg) (crypto.Threads cfg)
                (crypto.KeyLen cfg) with
    | None => None
    | Some newHash => Some (str_eqb newHash digest, None)
    end.
Proof.
  intros Hr Hlen.
  pose proof (verifyConfig_Sprintf_hash cfg salt digest Hr) as Hcfg.
  destruct (Verify_after_parse IDKey verifier _ q _ Hcfg) as (salt' & Hs & Hv).
  rewrite Hv. clear Hv.
  rewrite Split_Sprintf_hash in * by (destruct Hr as (? & ? & ? & ?); try lia; discriminate).
  cbn [crypto.part nth] in *.
  rewrite DecodeString_EncodeToString in Hs. inversion Hs; subst salt'.
  cbn [crypto.Time crypto.Memory crypto.Threads crypto.KeyLen].
  rewrite Hlen, uint32_small by apply Hr.
  destruct (IDKey q salt _ _ _ _); [|reflexivity].
  now rewrite str_eqb_EncodeToString.
Qed.

(** X1.  A hash written by [Hash] for one password, verified against
    any candidate: [Verify] never returns an error, and it accepts the
    candidate exactly when the key derived from it, with the salt and
    the parameters of the hash, is the digest that was stored. *)
Theorem Verify_accepts_exactly_matching_keys :
  forall (IDKey : crypto.KDF) (a verifier : crypto.Argon2)
         (salt password candidate digest hash : gostring),
    inRange (crypto.config a) ->
    IDKey password salt (crypto.Time (crypto.config a))
          (crypto.Memory (crypto.config a)) (crypto.Threads (crypto.config a))
          (crypto.KeyLen (crypto.config a)) = Some digest ->
    len digest = crypto.KeyLen (crypto.config a) ->
    crypto.Hash IDKey a (inl salt) password = Some (hash, None) ->
    crypto.Verify IDKey verifier hash candidate
    = match IDKey candidate salt (crypto.Time (crypto.config a))
                  (crypto.Memory (crypto.config a)) (crypto.Threads (crypto.config a))
                  (crypto.KeyLen (crypto.config a)) with
      | None => None
      | Some newHash => Some (str_eqb newHash digest, None)
      end.
Proof.
  intros IDKey a verifier salt password candidate digest hash Hr Hkdf Hlen Hhash.
  unfold crypto.Hash in Hhash. rewrite Hkdf in Hhash. inversion Hhash; subst hash.
  now apply Verify_Sprintf_hash.
Qed.

Lemma Verify_accepts_exactly_matching_keys_witness :
  let a := crypto.NewArgon2 crypto.serverConfig in
  crypto.Verify crypto.sampleKDF a
    go"$argon2id$v=19$m=65536,t=1,p=4$MDEyMzQ1Njc4OWFiY2RlZg$lZaXmJmam5ydnp+goaKjpKWmp6ipqqusra6vsLGys7Q"
    go"hunter3"
  = Some (false, None).
Proof.
  intros a.
  rewrite (Verify_accepts_exactly_matching_keys crypto.sampleKDF a a
             go"0123456789abcdef" go"hunter2" go"hunter3"
             (match crypto.sampleKDF go"hunter2" go"0123456789abcdef" 1 65536 4 32 with
              | Some d => d | None => [] end)).
  - reflexivity.
  - unfold inRange. simpl. lia.
  - reflexivity.
  - reflexivity.
  - reflexivity.
Defined.

(** X2.  Two hashes written with different salts are different
    strings, whatever the passwords. *)
Theorem Hash_distinct_salts :
  forall (IDKey : crypto.KDF) (a : crypto.Argon2)
         (salt1 salt2 password1 password2 hash1 hash2 : gostring),
    inRange (crypto.config a) ->
    crypto.Hash IDKey a (inl salt1) password1 = Some (hash1, None) ->
    crypto.Hash IDKey a (inl salt2) password2 = Some (hash2, None) ->
    salt1 <> salt2 ->
    hash1 <> hash2.
Proof.
  intros IDKey a salt1 salt2 p1 p2 h1 h2 Hr H1 H2 Hne Heq.
  unfold crypto.Hash in H1, H2.
  destruct (IDKey p1 salt1 _ _ _ _) as [d1|]; [|discriminate].
  destruct (IDKey p2 salt2 _ _ _ _) as [d2|]; [|discriminate].
  inversion H1 as [E1]. inversion H2 as [E2]. clear H1 H2.
  rewrite <- E1, <- E2 in Heq.
  assert (Hnn : 0 <= crypto.Version /\ 0 <= crypto.Memory (crypto.config a)
                /\ 0 <= crypto.Time (crypto.config a)
                /\ 0 <= crypto.Threads (crypto.config a)).
  { destruct Hr as (? & ? & ? & ?). repeat split; try lia. discriminate. }
  destruct Hnn as (Hv & Hm & Ht & Hp).
  apply (f_equal (fun h => crypto.part (strings.Split h "$") 4)) in Heq.
  rewrite !Split_Sprintf_hash in Heq by assumption.
  cbn [crypto.part nth] in Heq.
  apply EncodeToString_injective in Heq. contradiction.
Qed.

Lemma Hash_distinct_salts_witness :
  go"$argon2id$v=19$m=65536,t=1,p=4$MDEyMzQ1Njc4OWFiY2RlZg$lZaXmJmam5ydnp+goaKjpKWmp6ipqqusra6vsLGys7Q"
  <> match crypto.Hash crypto.sampleKDF (crypto.NewArgon2 crypto.serverConfig)
             (inl go"0123456789abcdeg") go"hunter2" with
     | Some (h, _) => h
     | None => []
     end.
Proof.
  apply (Hash_distinct_salts crypto.sampleKDF (crypto.NewArgon2 crypto.serverConfig)
           go"0123456789abcdef" go"0123456789abcdeg" go"hunter2" go"hunter2").
  - unfold inRange. simpl. lia.
  - reflexivity.
  - reflexivity.
  - discriminate.
Defined.

(** ** Tokens, continued *)

Lemma validateToken_cases (svc : auth.AuthService) (now : Z)
      (ts : jwt.TokenString) (c : Context) :
  (exists user, auth.validateToken svc now ts c = (user, true, c))
  \/ auth.validateToken svc now ts c = (emptyUser, false, auth.unauthorized c).
Proof.
  unfold auth.validateToken.
  destruct (jwt.Parse _ _ _) as [token [e|]]; [now right|].
  destruct (negb (jwt.Valid token)); [now right|].
  destruct (jwt.get _ _) as [[| | |f| |]|]; try now right.
  destruct (jwt.get _ _) as [[| | | |s|]|]; try now right.
  left. eauto.
Qed.

Lemma Verify_true (method : jwt.SigningMethod) (claims : jwt.MapClaims)
      (sig : jwt.Signature) (key : gostring) :
  jwt.Verify method claims sig key = true ->
  exists h, method = jwt.SigningMethodHMAC h /\ sig = jwt.MAC h key method claims.
Proof.
  unfold jwt.Verify. destruct method as [h| | | |]; try discriminate.
  destruct (jwt.Signature_eq_dec _ _) as [E|]; [|discriminate].
  intros _. eauto.
Qed.

Lemma validateToken_accepted (svc : auth.AuthService) (now : Z)
      (ts : jwt.TokenString) (c c' : Context) (user : User) :
  auth.validateToken svc now ts c = (user, true, c') ->
  c' = c /\ Password user = []
  /\ exists h claims f,
      ts = jwt.Segments (Some (jwt.SigningMethodHMAC h)) claims
             (jwt.MAC h (auth.jwtKey svc) (jwt.SigningMethodHMAC h) claims)
      /\ jwt.MapClaims_Valid claims now = true
      /\ jwt.get claims go"user_id" = Some (jwt.VFloat64 f)
      /\ ID user = float64_to_int f
      /\ jwt.get claims go"username" = Some (jwt.VString (Username user)).
Proof.
  unfold auth.validateToken, jwt.Parse.
  destruct ts as [raw|[method|] claims sig]; try discriminate.
  unfold auth.keyFunc. cbn [jwt.Method].
  destruct method as [h| | | |]; try discriminate.
  destruct (jwt.MapClaims_Valid claims now) eqn:Hvalid; [|discriminate].
  destruct (jwt.Verify _ claims sig _) eqn:Hsig; [|discriminate].
  cbn [andb negb jwt.Valid jwt.Claims].
  destruct (jwt.get claims go"user_id") as [[| | |f| |]|] eqn:Hid; try discriminate.
  destruct (jwt.get claims go"username") as [[| | | |s|]|] eqn:Hname; try discriminate.
  intros H. inversion H; subst. cbn [ID Username Password].
  apply Verify_true in Hsig as (h' & Hm & Hs). inversion Hm; subst h'.
  repeat split. exists h, claims, f. subst sig. repeat split; assumption.
Qed.

(** X3.  [validateToken] accepts a token only when its header names an
    HMAC method, its signature is the tag of that method under the key
    of the service over the header and the claims it carries, the time
    claims present hold, [user_id] is a number and [username] a
    string; the request context is then left as it was and the user
    returned carries that name, the number converted by [int()], and
    no password. *)
Theorem validateToken_accepts_only_signed :
  forall (svc : auth.AuthService) (now : Z) (ts : jwt.TokenString)
         (c c' : Context) (user : User),
    auth.validateToken svc now ts c = (user, true, c') ->
    c' = c /\ Password user = []
    /\ exists h claims f,
        ts = jwt.Segments (Some (jwt.SigningMethodHMAC h)) claims
               (jwt.MAC h (auth.jwtKey svc) (jwt.SigningMethodHMAC h) claims)
        /\ jwt.MapClaims_Valid claims now = true
        /\ jwt.get claims go"user_id" = Some (jwt.VFloat64 f)
        /\ ID user = float64_to_int f
        /\ jwt.get claims go"username" = Some (jwt.VString (Username user)).
Proof. intros. eapply validateToken_accepted; eauto. Qed.

Lemma validateToken_accepts_only_signed_witness :
  exists h claims f,
    fractional_token go"secret"
    = jwt.Segments (Some (jwt.SigningMethodHMAC h)) claims
        (jwt.MAC h go"secret" (jwt.SigningMethodHMAC h) claims)
    /\ jwt.MapClaims_Valid claims 0 = true
    /\ jwt.get claims go"user_id" = Some (jwt.VFloat64 f)
    /\ 1 = float64_to_int f
    /\ jwt.get claims go"username" = Some (jwt.VString go"alice").
Proof.
  destruct (validateToken_accepts_only_signed
              {| auth.jwtKey := go"secret"; auth.apiKey := go"admin" |} 0
              (fractional_token go"secret") newContext newContext
              {| ID := 1; Username := go"alice"; Password := [] |} eq_refl)
    as (_ & _ & H).
  exact H.
Defined.

(** X4.  A string that is not a token, and a token whose header names
    no HMAC method (none, RSA, RSA-PSS, ECDSA, or a method that is
    not registered) are refused by both [validateToken] functions,
    whatever claims and signature they carry and whatever the keys
    are: 401 is written and the chain aborted. *)
Theorem validateToken_refuses_other_methods :
  forall (svc : auth.AuthService) (a : server.Api) (now : Z)
         (ts : jwt.TokenString) (c : Context),
    (forall h claims sig,
        ts <> jwt.Segments (Some (jwt.SigningMethodHMAC h)) claims sig) ->
    auth.validateToken svc now ts c = (emptyUser, false, auth.unauthorized c)
    /\ server.validateToken a now ts c = (emptyUser, false, server.unauthorized c).
Proof.
  intros svc a now ts c Hother.
  unfold auth.validateToken, server.validateToken, jwt.Parse.
  destruct ts as [raw|[method|] claims sig]; [split; reflexivity| |split; reflexivity].
  destruct method as [h| | | |];
    try (cbn [auth.keyFunc server.keyFunc jwt.Method]; split; reflexivity).
  exfalso. exact (Hother h claims sig eq_refl).
Qed.

Lemma validateToken_refuses_other_methods_witness :
  let claims := [(go"user_id", jwt.VFloat64 (Float 1 0));
                 (go"username", jwt.VString go"admin")] in
  let ts := jwt.Segments (Some jwt.SigningMethodNone) claims (jwt.SigBytes []) in
  auth.validateToken {| auth.jwtKey := go"secret"; auth.apiKey := go"admin" |} 0
    ts newContext
  = (emptyUser, false, auth.unauthorized newContext)
  /\ server.validateToken
       {| server.jwtKey := go"secret"; server.prometheusKey := go"p";
          server.apiKey := go"admin" |} 0 ts newContext
     = (emptyUser, false, server.unauthorized newContext).
Proof.
  intros claims ts.
  apply (validateToken_refuses_other_methods
           {| auth.jwtKey := go"secret"; auth.apiKey := go"admin" |}
           {| server.jwtKey := go"secret"; server.prometheusKey := go"p";
              server.apiKey := go"admin" |} 0 ts newContext).
  intros h claims' sig. discriminate.
Defined.

(** ** Refresh and the middleware *)

Lemma HasPrefix_prefix_app (p s : gostring) : strings.HasPrefix (p ++ s) p = true.
Proof.
  induction p as [|a p IH]; simpl; [reflexivity|].
  now rewrite Ascii.eqb_refl, IH.
Qed.

Lemma skipn_app_prefix (p s : gostring) : skipn (List.length p) (p ++ s) = s.
Proof. induction p as [|a p IH]; simpl; auto. Qed.

Lemma Refresh_with_token (svc : auth.AuthService) (now : Z)
      (wire : gostring -> jwt.TokenString) (tok : gostring) (c : Context) :
  tok <> [] ->
  auth.Refresh svc now wire (auth.prefix ++ tok) c
  = let '(user, valid, c) := auth.validateToken svc now (wire tok) c in
    if negb valid then
      do c <- auth.ErrorHandler None c;
      Returned (gin.write c (JSON 401 "error" "Unauthorized"))
    else
      match jwt.SignedString (auth.newToken user) (auth.jwtKey svc) with
      | inr _ => Returned (gin.write c (JSON 401 "error" "failed to sign token"))
      | inl tokenString => Returned (gin.write c (JSONToken 200 tokenString))
      end.
Proof.
  intros Htok. unfold auth.Refresh.
  change (str_eqb (auth.prefix ++ tok) []) with false.
  rewrite HasPrefix_prefix_app. cbn [negb].
  rewrite skipn_app_prefix.
  apply str_eqb_neq in Htok. rewrite Htok. reflexivity.
Qed.

(** X5.  [Refresh] with a bearer token that [validateToken] accepts
    answers 200 with a token for the user the old token named; when
    the id of that user is an [int] that is a [float64], as the id of
    every user row is, and the name valid UTF-8, as every string
    decoded from a token is, the new token validates at any time to
    the same principal. *)
Theorem Refresh_reissues_for_the_same_principal :
  forall (svc : auth.AuthService) (now : Z)
         (wire : gostring -> jwt.TokenString) (tok : gostring) (user : User),
    tok <> [] ->
    auth.validateToken svc now (wire tok) newContext = (user, true, newContext) ->
    exists t,
      auth.Refresh svc now wire (auth.prefix ++ tok) newContext
      = Returned (gin.write newContext (JSONToken 200 t))
      /\ (minInt64 <= ID user <= maxInt64 -> float64_representable (ID user) ->
          utf8.ValidString (Username user) = true ->
          forall now' c,
            auth.validateToken svc now' t c
            = ({| ID := ID user; Username := Username user; Password := [] |}, true, c)).
Proof.
  intros svc now wire tok user Htok Hv.
  rewrite Refresh_with_token, Hv by assumption. cbn [negb].
  eexists. split; [reflexivity|].
  intros Hr Hrep Hname now' c.
  unfold auth.validateToken, jwt.Parse. cbn [auth.keyFunc jwt.Method].
  cbn -[jwt.Verify jwt.MAC float64_of_int float64_to_int json.readBack].
  unfold jwt.SigningMethodHS256.
  rewrite Verify_MAC. cbn -[float64_of_int float64_to_int json.readBack].
  rewrite float64_int_round_trip by assumption.
  rewrite readBack_valid by assumption. reflexivity.
Qed.

Lemma Refresh_reissues_for_the_same_principal_witness :
  let svc := {| auth.jwtKey := go"secret"; auth.apiKey := go"admin" |} in
  exists t,
    auth.Refresh svc 0 (fun _ => fractional_token go"secret")
      (auth.prefix ++ go"x.y.z") newContext
    = Returned (gin.write newContext (JSONToken 200 t))
    /\ (minInt64 <= 1 <= maxInt64 -> float64_representable 1 ->
        utf8.ValidString go"alice" = true ->
        forall now' c,
          auth.validateToken svc now' t c
          = ({| ID := 1; Username := go"alice"; Password := [] |}, true, c)).
Proof.
  intros svc.
  apply (Refresh_reissues_for_the_same_principal svc 0
           (fun _ => fractional_token go"secret") go"x.y.z"
           {| ID := 1; Username := go"alice"; Password := [] |}).
  - discriminate.
  - reflexivity.
Defined.

(** X6.  [Refresh] with a bearer token that [validateToken] refuses:
    [validateToken] has written 401 and aborted the chain when
    [ErrorHandler] panics on its [nil] error, so the client receives
    the 401 of [validateToken], and no token. *)
Theorem Refresh_refused_token_answers_401 :
  forall (svc : auth.AuthService) (now : Z)
         (wire : gostring -> jwt.TokenString) (tok : gostring)
         (user : User) (c' : Context),
    tok <> [] ->
    auth.validateToken svc now (wire tok) newContext = (user, false, c') ->
    auth.Refresh svc now wire (auth.prefix ++ tok) newContext
    = Panicked (auth.unauthorized newContext)
    /\ server.Recovery (auth.Refresh svc now wire (auth.prefix ++ tok) newContext)
       = {| written := Some (JSON 401 "error" "Unauthorized");
            aborted := true; principal := None |}.
Proof.
  intros svc now wire tok user c' Htok Hv.
  rewrite Refresh_with_token by assumption.
  destruct (validateToken_cases svc now (wire tok) newContext) as [[u Hok]|Hrej].
  - rewrite Hok in Hv. discriminate.
  - rewrite Hrej. split; reflexivity.
Qed.

Lemma Refresh_refused_token_answers_401_witness :
  let svc := {| auth.jwtKey := go"secret"; auth.apiKey := go"admin" |} in
  server.Recovery (auth.Refresh svc 0 (fun raw => jwt.Malformed raw)
                     (auth.prefix ++ go"garbage") newContext)
  = {| written := Some (JSON 401 "error" "Unauthorized");
       aborted := true; principal := None |}.
Proof.
  intros svc.
  apply (Refresh_refused_token_answers_401 svc 0 (fun raw => jwt.Malformed raw)
           go"garbage" emptyUser (auth.unauthorized newContext)).
  - discriminate.
  - reflexivity.
Defined.

Lemma Refresh_without_token (svc : auth.AuthService) (now : Z)
      (wire : gostring -> jwt.TokenString) (authHeader : gostring) (c : Context) :
  str_eqb authHeader [] = true
  \/ strings.HasPrefix authHeader auth.prefix = false
  \/ str_eqb (skipn (List.length auth.prefix) authHeader) [] = true ->
  auth.Refresh svc now wire authHeader c = Panicked c.
Proof.
  unfold auth.Refresh. intros [H|[H|H]].
  - now rewrite H.
  - rewrite H. destruct (str_eqb authHeader []); reflexivity.
  - rewrite H. destruct (str_eqb authHeader []); [reflexivity|].
    destruct (strings.HasPrefix authHeader auth.prefix); reflexivity.
Qed.

(** X7.  The middleware of the protected routes and [Refresh] decide
    alike when they hold the same key: a header passes
    [AuthMiddleware] exactly when [Refresh] answers it with 200 and a
    token. *)
Theorem AuthMiddleware_passes_iff_Refresh_reissues :
  forall (svc : auth.AuthService) (a : server.Api) (now : Z)
         (wire : gostring -> jwt.TokenString) (authHeader : gostring),
    server.jwtKey a = auth.jwtKey svc ->
    (aborted (server.AuthMiddleware a now wire authHeader newContext) = false
     <-> exists t,
          auth.Refresh svc now wire authHeader newContext
          = Returned (gin.write newContext (JSONToken 200 t))).
Proof.
  intros svc a now wire authHeader Hk.
  unfold server.AuthMiddleware.
  destruct (str_eqb authHeader []) eqn:He.
  { rewrite Refresh_without_token by auto. cbn. split; [discriminate|].
    intros [t H]. discriminate. }
  destruct (strings.HasPrefix authHeader server.prefix) eqn:Hp; cbn [negb].
  2:{ rewrite Refresh_without_token by auto. cbn. split; [discriminate|].
      intros [t H]. discriminate. }
  destruct (str_eqb (skipn (List.length server.prefix) authHeader) []) eqn:Ht.
  { rewrite Refresh_without_token by auto. cbn. split; [discriminate|].
    intros [t H]. discriminate. }
  apply HasPrefix_split in Hp. apply str_eqb_neq in Ht.
  remember (skipn (List.length server.prefix) authHeader) as tok eqn:Etok.
  clear Etok He. subst authHeader. change server.prefix with auth.prefix.
  rewrite Refresh_with_token by assumption.
  rewrite (validateToken_agree svc a now (wire tok) newContext Hk).
  destruct (validateToken_cases svc now (wire tok) newContext) as [[u Hok]|Hrej].
  - rewrite Hok. cbn. split; [eauto|reflexivity].
  - rewrite Hrej. cbn. split; [discriminate|]. intros [t H]. discriminate.
Qed.

Lemma AuthMiddleware_passes_iff_Refresh_reissues_witness :
  let svc := {| auth.jwtKey := go"secret"; auth.apiKey := go"admin" |} in
  let a := {| server.jwtKey := go"secret"; server.prometheusKey := go"p";
              server.apiKey := go"admin" |} in
  aborted (server.AuthMiddleware a 0 (fun _ => fractional_token go"secret")
             go"Bearer x.y.z" newContext) = false
  <-> exists t,
       auth.Refresh svc 0 (fun _ => fractional_token go"secret")
         go"Bearer x.y.z" newContext
       = Returned (gin.write newContext (JSONToken 200 t)).
Proof.
  intros svc a.
  apply (AuthMiddleware_passes_iff_Refresh_reissues svc a 0
           (fun _ => fractional_token go"secret") go"Bearer x.y.z").
  reflexivity.
Defined.

(** ** Registration, continued *)

Lemma str_eqb_sym (s t : gostring) : str_eqb s t = str_eqb t s.
Proof.
  destruct (str_eqb s t) eqn:E.
  - apply str_eqb_eq in E. subst. symmetry. apply str_eqb_refl.
  - symmetry. apply str_eqb_neq. apply str_eqb_neq in E. congruence.
Qed.

Lemma ContainsKey_after_DeleteKey (d : db.SQLiteDB) (key : gostring) :
  db.ContainsKey false (snd (db.DeleteKey false d key)) key = (false, None).
Proof.
  unfold db.ContainsKey, db.DeleteKey. cbn [snd db.keys].
  replace (filter (str_eqb key) (filter (fun k => negb (str_eqb k key)) (db.keys d)))
    with (@nil gostring); [reflexivity|].
  induction (db.keys d) as [|k ks IH]; simpl; [reflexivity|].
  destruct (str_eqb k key) eqn:E; simpl; [exact IH|].
  now rewrite str_eqb_sym, E.
Qed.

Lemma NoDup_snoc {A : Type} (l : list A) (x : A) :
  NoDup l -> ~ In x l -> NoDup (l ++ [x]).
Proof.
  induction l as [|a l IH]; simpl; intros Hl Hx.
  - constructor; [tauto|constructor].
  - inversion Hl; subst. constructor.
    + rewrite in_app_iff. simpl. intuition congruence.
    + apply IH; [assumption|tauto].
Qed.

Lemma find_none_name (us : list User) (name : gostring) :
  find (fun u => str_eqb (Username u) name) us = None ->
  ~ In name (map Username us).
Proof.
  induction us as [|u us IH]; simpl; [tauto|].
  destruct (str_eqb (Username u) name) eqn:E; [discriminate|].
  apply str_eqb_neq in E. intros H [H1|H1]; [contradiction|]. now apply IH.
Qed.

Lemma find_snoc_name (us : list User) (u : User) :
  find (fun v => str_eqb (Username v) (Username u)) us = None ->
  find (fun v => str_eqb (Username v) (Username u)) (us ++ [u]) = Some u.
Proof.
  induction us as [|v us IH]; simpl.
  - now rewrite str_eqb_refl.
  - destruct (str_eqb (Username v) (Username u)); [discriminate|exact IH].
Qed.

(** What [Register] does to the tables, in every run. *)
Lemma Register_effect (svc : auth.AuthService) (env : auth.Env)
      (body : option auth.RegisterRequest) (d : db.SQLiteDB) :
  exists r d1,
    auth.Register svc env body (newContext, d) = Returned (gin.write newContext r, d1)
    /\ (d1 = d /\ (forall t, r <> JSONToken StatusOK t)
        \/ exists req hash,
            body = Some req
            /\ db.ContainsKey false d (auth.reqKey req) = (true, None)
            /\ snd (db.GetUser (auth.getUserFails env) d
                      (auth.ToLower env (auth.reqUsername req))) <> None
            /\ auth.argonHash env (auth.reqPassword req) = inl hash
            /\ db.users d1 = db.users d ++ [newUser env req hash d]
            /\ (db.keys d1 = db.keys d /\ (forall t, r <> JSONToken StatusOK t)
                \/ d1 = snd (db.DeleteKey false
                               {| db.users := db.users d ++ [newUser env req hash d];
                                  db.keys := db.keys d |} (auth.reqKey req))
                   /\ exists user,
                       db.GetUser false d1 (auth.ToLower env (auth.reqUsername req))
                       = (user, None)
                       /\ jwt.SignedString (auth.newToken user) (auth.jwtKey svc)
                          = inl (match r with JSONToken _ t => t
                                            | _ => jwt.Malformed [] end)
                       /\ exists t, r = JSONToken StatusOK t)).
Proof.
  unfold auth.Register. destruct body as [req|]; cbn [snd fst].
  2:{ do 2 eexists. split; [reflexivity|]. left. split; [reflexivity|discriminate]. }
  unfold db.ContainsKey at 1.
  destruct (auth.containsKeyFails env) eqn:Hck.
  { do 2 eexists. split; [reflexivity|]. left. split; [reflexivity|discriminate]. }
  destruct (0 <? _) eqn:Hcount.
  2:{ do 2 eexists. split; [reflexivity|]. left. split; [reflexivity|discriminate]. }
  destruct (db.GetUser _ d _) as [u0 [e0|]] eqn:Hget.
  2:{ do 2 eexists. split; [reflexivity|]. left. split; [reflexivity|discriminate]. }
  destruct (auth.argonHash env _) as [hash|e1] eqn:Hh.
  2:{ do 2 eexists. split; [reflexivity|]. left. split; [reflexivity|discriminate]. }
  unfold db.CreateUser, db.insertUser.
  destruct (auth.insertFails env).
  { do 2 eexists. split; [reflexivity|]. left. split; [reflexivity|discriminate]. }
  fold (newUser env req hash d).
  assert (Hcommon : db.ContainsKey false d (auth.reqKey req) = (true, None)
                    /\ snd (db.GetUser (auth.getUserFails env) d
                              (auth.ToLower env (auth.reqUsername req))) <> None).
  { split; [unfold db.ContainsKey; now rewrite Hcount|]. rewrite Hget. discriminate. }
  destruct Hcommon as [Hc1 Hc2].
  destruct (db.GetUser (auth.selectFails env) _ _) as [user [e2|]] eqn:Hsel.
  { do 2 eexists. split; [reflexivity|]. right. exists req, hash.
    repeat split; auto. left. split; [reflexivity|discriminate]. }
  unfold db.DeleteKey at 1.
  destruct (auth.deleteKeyFails env).
  { do 2 eexists. split; [reflexivity|]. right. exists req, hash.
    repeat split; auto. left. split; [reflexivity|discriminate]. }
  assert (Hsel' : db.GetUser false
                    {| db.users := db.users d ++ [newUser env req hash d];
                       db.keys := filter (fun k => negb (str_eqb k (auth.reqKey req)))
                                         (db.keys d) |}
                    (auth.ToLower env (auth.reqUsername req)) = (user, None)).
  { unfold db.GetUser in *. destruct (auth.selectFails env); [discriminate|].
    cbn [db.users] in *. exact Hsel. }
  destruct (jwt.SignedString _ _) as [tokenString|e4] eqn:Hsign.
  - do 2 eexists. split; [reflexivity|]. right. exists req, hash.
    repeat split; auto. right. split; [reflexivity|].
    exists user. repeat split; eauto.
  - unfold auth.newToken, jwt.SignedString in Hsign. discriminate.
Qed.

Lemma Register_returned (svc : auth.AuthService) (env : auth.Env)
      (body : option auth.RegisterRequest) (d d1 : db.SQLiteDB) (c1 : Context)
      (r : Response) (d1' : db.SQLiteDB) :
  auth.Register svc env body (newContext, d) = Returned (c1, d1) ->
  auth.Register svc env body (newContext, d) = Returned (gin.write newContext r, d1') ->
  written c1 = Some r /\ d1' = d1.
Proof.
  intros H1 H2. rewrite H1 in H2. inversion H2; subst. split; reflexivity.
Qed.

(** What a successful registration leaves, when the username check
    was answered by the database. *)
Lemma Register_success (svc : auth.AuthService) (env : auth.Env)
      (req : auth.RegisterRequest) (d d1 : db.SQLiteDB) (c1 : Context)
      (t : jwt.TokenString) :
  auth.getUserFails env = false ->
  auth.Register svc env (Some req) (newContext, d) = Returned (c1, d1) ->
  written c1 = Some (JSONToken StatusOK t) ->
  exists hash,
    auth.argonHash env (auth.reqPassword req) = inl hash
    /\ find (fun u => str_eqb (Username u) (auth.ToLower env (auth.reqUsername req)))
            (db.users d) = None
    /\ db.users d1 = db.users d ++ [newUser env req hash d]
    /\ db.keys d1 = filter (fun k => negb (str_eqb k (auth.reqKey req))) (db.keys d)
    /\ jwt.SignedString (auth.newToken (newUser env req hash d)) (auth.jwtKey svc) = inl t.
Proof.
  intros Hgu Hrun Hw.
  destruct (Register_effect svc env (Some req) d) as (r & d1' & Heq & Hcases).
  destruct (Register_returned _ _ _ _ _ _ _ _ Hrun Heq) as [Hr ->].
  rewrite Hw in Hr. inversion Hr; subst r. clear Hr.
  destruct Hcases as [[_ Hno]|(req' & hash & Hb & _ & Hfree & Hh & Hus & Hk)].
  { exfalso. now apply (Hno t). }
  inversion Hb; subst req'. clear Hb.
  destruct Hk as [[_ Hno]|(Hd & user & Hsel & Hsign & _)].
  { exfalso. now apply (Hno t). }
  assert (Hnone : find (fun u => str_eqb (Username u)
                                   (auth.ToLower env (auth.reqUsername req)))
                       (db.users d) = None).
  { unfold db.GetUser in Hfree. rewrite Hgu in Hfree.
    destruct (find _ _); [now elim Hfree|reflexivity]. }
  exists hash. repeat split; auto.
  - rewrite Hd. reflexivity.
  - unfold db.GetUser in Hsel. rewrite Hus in Hsel.
    pose proof (find_snoc_name (db.users d) (newUser env req hash d)) as Hf.
    cbn [newUser Username] in Hf. rewrite (Hf Hnone) in Hsel.
    inversion Hsel; subst user. exact Hsign.
Qed.

(** X8.  A key serves one registration when requests come one after
    the other: once [Register] has answered 200, every later request
    with that key is answered 401 "invalid key" and changes nothing,
    even if the key had been stored more than once. *)
Theorem Register_key_is_single_use :
  forall (svc : auth.AuthService) (env : auth.Env) (req : auth.RegisterRequest)
         (d d1 : db.SQLiteDB) (c1 : Context) (t : jwt.TokenString),
    auth.Register svc env (Some req) (newContext, d) = Returned (c1, d1) ->
    written c1 = Some (JSONToken StatusOK t) ->
    forall (svc' : auth.AuthService) (env' : auth.Env)
           (req' : auth.RegisterRequest) (c' : Context),
      auth.reqKey req' = auth.reqKey req ->
      auth.containsKeyFails env' = false ->
      auth.Register svc' env' (Some req') (c', d1)
      = Returned (gin.write c' (JSON StatusUnauthorized "error" "invalid key"), d1).
Proof.
  intros svc env req d d1 c1 t Hrun Hw svc' env' req' c' Hkey Hck.
  destruct (Register_effect svc env (Some req) d) as (r & d1' & Heq & Hcases).
  destruct (Register_returned _ _ _ _ _ _ _ _ Hrun Heq) as [Hr ->].
  rewrite Hw in Hr. inversion Hr; subst r. clear Hr.
  destruct Hcases as [[_ Hno]|(rq & hash & Hb & _ & _ & _ & _ & Hk)].
  { exfalso. now apply (Hno t). }
  inversion Hb; subst rq. clear Hb.
  destruct Hk as [[_ Hno]|(Hd & _)].
  { exfalso. now apply (Hno t). }
  unfold auth.Register. cbn [snd fst]. rewrite Hck, Hkey, Hd.
  rewrite ContainsKey_after_DeleteKey. reflexivity.
Qed.

Lemma Register_key_is_single_use_witness :
  let d1 := {| db.users := [{| ID := 1; Username := go"alice"; Password := go"h" |}];
               db.keys := [] |} in
  auth.Register sampleService (noFaultsEnv (fun _ => go"h"))
    (Some {| auth.reqUsername := go"Bob"; auth.reqPassword := go"pw2";
             auth.reqKey := go"k" |}) (newContext, d1)
  = Returned (gin.write newContext (JSON StatusUnauthorized "error" "invalid key"), d1).
Proof.
  intros d1.
  eapply (Register_key_is_single_use sampleService (noFaultsEnv (fun _ => go"h"))
            aliceRequest oneKey d1).
  - reflexivity.
  - reflexivity.
  - reflexivity.
  - reflexivity.
Defined.

(** X9.  [Register] keeps the user names of the table pairwise
    different, as long as the database answers its username check: a
    row is inserted only for a name no row has. *)
Theorem Register_keeps_usernames_unique :
  forall (svc : auth.AuthService) (env : auth.Env)
         (body : option auth.RegisterRequest) (d d1 : db.SQLiteDB) (c1 : Context),
    auth.getUserFails env = false ->
    NoDup (map Username (db.users d)) ->
    auth.Register svc env body (newContext, d) = Returned (c1, d1) ->
    NoDup (map Username (db.users d1)).
Proof.
  intros svc env body d d1 c1 Hgu Hnd Hrun.
  destruct (Register_effect svc env body d) as (r & d1' & Heq & Hcases).
  destruct (Register_returned _ _ _ _ _ _ _ _ Hrun Heq) as [_ ->].
  destruct Hcases as [[-> _]|(req & hash & _ & _ & Hfree & _ & Hus & _)];
    [assumption|].
  rewrite Hus, map_app. apply NoDup_snoc; [assumption|].
  apply find_none_name. unfold db.GetUser in Hfree. rewrite Hgu in Hfree.
  cbn [newUser Username].
  destruct (find _ _); [now elim Hfree|reflexivity].
Qed.

Lemma Register_keeps_usernames_unique_witness :
  NoDup (map Username
           [{| ID := 1; Username := go"alice"; Password := go"h" |}]).
Proof.
  apply (Register_keeps_usernames_unique sampleService (noFaultsEnv (fun _ => go"h"))
           (Some aliceRequest) oneKey
           {| db.users := [{| ID := 1; Username := go"alice"; Password := go"h" |}];
              db.keys := [] |}
           (gin.write newContext
              (JSONToken StatusOK
                 (match auth.generateAndSendToken sampleService
                          {| ID := 1; Username := go"alice"; Password := go"h" |} with
                  | inl t => t | inr _ => jwt.Malformed [] end)))).
  - reflexivity.
  - constructor.
  - reflexivity.
Defined.

(** X11.  A registration answered with 200, the username check having
    been answered by the database: the table has one more row, with a
    fresh id, the name in lower case and the hash in place of the
    password; every copy of the key is gone; and the token in the
    response is the token of that row. *)
Theorem Register_success_stores_name_and_hash :
  forall (svc : auth.AuthService) (env : auth.Env) (req : auth.RegisterRequest)
         (d d1 : db.SQLiteDB) (c1 : Context) (t : jwt.TokenString),
    auth.getUserFails env = false ->
    auth.Register svc env (Some req) (newContext, d) = Returned (c1, d1) ->
    written c1 = Some (JSONToken StatusOK t) ->
    exists hash,
      auth.argonHash env (auth.reqPassword req) = inl hash
      /\ db.users d1
         = db.users d ++ [{| ID := db.nextID (db.users d);
                             Username := auth.ToLower env (auth.reqUsername req);
                             Password := hash |}]
      /\ db.ContainsKey false d1 (auth.reqKey req) = (false, None)
      /\ auth.generateAndSendToken svc
           {| ID := db.nextID (db.users d);
              Username := auth.ToLower env (auth.reqUsername req);
              Password := hash |} = inl t.
Proof.
  intros svc env req d d1 c1 t Hgu Hrun Hw.
  destruct (Register_success svc env req d d1 c1 t Hgu Hrun Hw)
    as (hash & Hh & _ & Hus & Hk & Hsign).
  exists hash. repeat split; auto.
  pose proof (ContainsKey_after_DeleteKey d (auth.reqKey req)) as Hc.
  unfold db.ContainsKey in *. cbn [snd db.DeleteKey db.keys] in Hc.
  rewrite Hk. exact Hc.
Qed.

Lemma Register_success_stores_name_and_hash_witness :
  exists hash,
    auth.argonHash (noFaultsEnv (fun _ => go"h")) go"pw1" = inl hash
    /\ [{| ID := 1; Username := go"alice"; Password := go"h" |}]
       = [] ++ [{| ID := 1; Username := go"alice"; Password := hash |}]
    /\ db.ContainsKey false
         {| db.users := [{| ID := 1; Username := go"alice"; Password := go"h" |}];
            db.keys := [] |} go"k" = (false, None)
    /\ auth.generateAndSendToken sampleService
         {| ID := 1; Username := go"alice"; Password := hash |}
       = inl (match auth.generateAndSendToken sampleService
                      {| ID := 1; Username := go"alice"; Password := go"h" |} with
              | inl t => t | inr _ => jwt.Malformed [] end).
Proof.
  apply (Register_success_stores_name_and_hash sampleService
           (noFaultsEnv (fun _ => go"h")) aliceRequest oneKey
           {| db.users := [{| ID := 1; Username := go"alice"; Password := go"h" |}];
              db.keys := [] |}
           (gin.write newContext
              (JSONToken StatusOK
                 (match auth.generateAndSendToken sampleService
                          {| ID := 1; Username := go"alice"; Password := go"h" |} with
                  | inl t => t | inr _ => jwt.Malformed [] end)))).
  - reflexivity.
  - reflexivity.
  - reflexivity.
Defined.

(** ** Login *)

Lemma Hash_format (IDKey : crypto.KDF) (a : crypto.Argon2)
      (salt password digest hash : gostring) :
  IDKey password salt (crypto.Time (crypto.config a))
        (crypto.Memory (crypto.config a)) (crypto.Threads (crypto.config a))
        (crypto.KeyLen (crypto.config a)) = Some digest ->
  crypto.Hash IDKey a (inl salt) password = Some (hash, None) ->
  hash = crypto.Sprintf_hash crypto.Version (crypto.Memory (crypto.config a))
           (crypto.Time (crypto.config a)) (crypto.Threads (crypto.config a))
           (base64.EncodeToString salt) (base64.EncodeToString digest).
Proof.
  intros Hk Hh. unfold crypto.Hash in Hh. rewrite Hk in Hh. now inversion Hh.
Qed.

(** X12.  Registration followed by login.  When [Register] has answered
    200 for a request whose password was hashed by [Hash], [Login]
    with the same password and a user name that has the same lower
    case answers 200 with the token [Register] returned, whatever the
    configuration of the verifier. *)
Theorem Login_after_Register :
  forall (svc : auth.AuthService) (IDKey : crypto.KDF)
         (a verifier : crypto.Argon2) (env : auth.Env)
         (req : auth.RegisterRequest) (d d1 : db.SQLiteDB) (c1 c : Context)
         (t : jwt.TokenString) (salt digest hash name : gostring),
    auth.getUserFails env = false ->
    inRange (crypto.config a) ->
    IDKey (auth.reqPassword req) salt (crypto.Time (crypto.config a))
          (crypto.Memory (crypto.config a)) (crypto.Threads (crypto.config a))
          (crypto.KeyLen (crypto.config a)) = Some digest ->
    len digest = crypto.KeyLen (crypto.config a) ->
    crypto.Hash IDKey a (inl salt) (auth.reqPassword req) = Some (hash, None) ->
    auth.argonHash env (auth.reqPassword req) = inl hash ->
    auth.Register svc env (Some req) (newContext, d) = Returned (c1, d1) ->
    written c1 = Some (JSONToken StatusOK t) ->
    auth.ToLower env name = auth.ToLower env (auth.reqUsername req) ->
    auth2.Login svc IDKey verifier env
      (Some {| auth2.loginUsername := name;
               auth2.loginPassword := auth.reqPassword req |}) d1 c
    = Returned (gin.write c (JSONToken StatusOK t)).
Proof.
  intros svc IDKey a verifier env req d d1 c1 c t salt digest hash name
         Hgu Hr Hkdf Hlen Hhash Henv Hrun Hw Hname.
  destruct (Register_success svc env req d d1 c1 t Hgu Hrun Hw)
    as (hash' & Hh & Hnone & Hus & _ & Hsign).
  rewrite Henv in Hh. inversion Hh; subst hash'. clear Hh.
  unfold auth2.Login, auth2.attemptLogin, db.GetUser.
  cbn [auth2.loginUsername auth2.loginPassword]. rewrite Hgu, Hname, Hus.
  pose proof (find_snoc_name (db.users d) (newUser env req hash d)) as Hf.
  cbn [newUser Username] in Hf. rewrite (Hf Hnone).
  unfold auth2.verifyPassword. cbn [newUser Password].
  rewrite (Hash_format IDKey a salt _ digest hash Hkdf Hhash) at 1.
  rewrite (Verify_Sprintf_hash IDKey verifier (crypto.config a) salt digest _ Hr Hlen).
  rewrite Hkdf, str_eqb_refl.
  unfold auth.generateAndSendToken.
  change (auth.newToken {| ID := db.nextID (db.users d);
                           Username := auth.ToLower env (auth.reqUsername req);
                           Password := hash |})
    with (auth.newToken (newUser env req hash d)).
  rewrite Hsign. reflexivity.
Qed.

Lemma Login_after_Register_witness :
  auth2.Login sampleService crypto.sampleKDF (crypto.NewArgon2 crypto.serverConfig)
    sampleEnv
    (Some {| auth2.loginUsername := go"ALICE"; auth2.loginPassword := go"hunter2" |})
    {| db.users := [hunterRow]; db.keys := [] |} newContext
  = Returned (gin.write newContext (JSONToken StatusOK hunterToken)).
Proof.
  apply (Login_after_Register sampleService crypto.sampleKDF
           (crypto.NewArgon2 crypto.serverConfig)
           (crypto.NewArgon2 crypto.serverConfig) sampleEnv hunterRequest oneKey
           {| db.users := [hunterRow]; db.keys := [] |}
           (gin.write newContext (JSONToken StatusOK hunterToken)) newContext
           hunterToken go"0123456789abcdef"
           (match crypto.sampleKDF go"hunter2" go"0123456789abcdef" 1 65536 4 32 with
            | Some dg => dg | None => [] end)
           (Password hunterRow) go"ALICE").
  - reflexivity.
  - unfold inRange. simpl. lia.
  - reflexivity.
  - reflexivity.
  - reflexivity.
  - reflexivity.
  - vm_compute. reflexivity.
  - reflexivity.
  - reflexivity.
Defined.

(** X13.  [Login] answers an unknown user name and a wrong password
    alike: 401 with the text "invalid username or password". *)
Theorem Login_same_answer_for_unknown_user_and_wrong_password :
  forall (svc : auth.AuthService) (IDKey : crypto.KDF) (argon : crypto.Argon2)
         (env : auth.Env) (req : auth2.LoginRequest) (d : db.SQLiteDB) (c : Context),
    auth.getUserFails env = false ->
    (find (fun u => str_eqb (Username u)
                      (auth.ToLower env (auth2.loginUsername req)))
          (db.users d) = None
     \/ exists user,
         find (fun u => str_eqb (Username u)
                          (auth.ToLower env (auth2.loginUsername req)))
              (db.users d) = Some user
         /\ crypto.Verify IDKey argon (Password user) (auth2.loginPassword req)
            = Some (false, None)) ->
    auth2.Login svc IDKey argon env (Some req) d c
    = Returned (gin.write c
        (JSON StatusUnauthorized "error" "invalid username or password")).
Proof.
  intros svc IDKey argon env req d c Hgu H.
  unfold auth2.Login, auth2.attemptLogin, db.GetUser. rewrite Hgu.
  destruct H as [Hnone|(user & Hfound & Hv)].
  - rewrite Hnone. reflexivity.
  - rewrite Hfound. unfold auth2.verifyPassword. rewrite Hv. reflexivity.
Qed.

Lemma Login_same_answer_for_unknown_user_and_wrong_password_witness :
  auth2.Login sampleService crypto.sampleKDF (crypto.NewArgon2 crypto.serverConfig)
    sampleEnv
    (Some {| auth2.loginUsername := go"alice"; auth2.loginPassword := go"hunter3" |})
    {| db.users := [hunterRow]; db.keys := [] |} newContext
  = Returned (gin.write newContext
      (JSON StatusUnauthorized "error" "invalid username or password")).
Proof.
  apply (Login_same_answer_for_unknown_user_and_wrong_password
           sampleService crypto.sampleKDF (crypto.NewArgon2 crypto.serverConfig)
           sampleEnv).
  - reflexivity.
  - right. exists hunterRow. split; reflexivity.
Defined.

(** X14.  When the lookup of the user fails in the driver, or the stored
    hash cannot be parsed, [Login] returns without writing a response:
    the branch for other errors logs and returns. *)
Theorem Login_writes_nothing_on_other_errors :
  forall (svc : auth.AuthService) (IDKey : crypto.KDF) (argon : crypto.Argon2)
         (env : auth.Env) (req : auth2.LoginRequest) (d : db.SQLiteDB) (c : Context),
    (auth.getUserFails env = true
     \/ exists user,
         db.GetUser (auth.getUserFails env) d
           (auth.ToLower env (auth2.loginUsername req)) = (user, None)
         /\ crypto.verifyConfig (Password user) = None) ->
    auth2.Login svc IDKey argon env (Some req) d c = Returned c.
Proof.
  intros svc IDKey argon env req d c H.
  unfold auth2.Login, auth2.attemptLogin.
  destruct H as [Hf|(user & Hget & Hbad)].
  - unfold db.GetUser. rewrite Hf. reflexivity.
  - rewrite Hget. unfold auth2.verifyPassword.
    destruct (Verify_parse_error IDKey argon (Password user)
                (auth2.loginPassword req) Hbad) as [e He].
    rewrite He. reflexivity.
Qed.

Lemma Login_writes_nothing_on_other_errors_witness :
  auth2.Login sampleService crypto.sampleKDF (crypto.NewArgon2 crypto.serverConfig)
    sampleEnv
    (Some {| auth2.loginUsername := go"bob"; auth2.loginPassword := go"pw" |})
    {| db.users := [{| ID := 1; Username := go"bob"; Password := go"plain" |}];
       db.keys := [] |} newContext
  = Returned newContext.
Proof.
  apply (Login_writes_nothing_on_other_errors
           sampleService crypto.sampleKDF (crypto.NewArgon2 crypto.serverConfig)
           sampleEnv).
  right. exists {| ID := 1; Username := go"bob"; Password := go"plain" |}.
  split; reflexivity.
Defined.

(** ** The key endpoints and the seeding of keys *)

(** X15.  Both key endpoints answer 401 and abort for every presented
    key other than the configured one, a prefix or an extension of it
    included, leaving the tables as they were and listing nothing;
    with the configured key they never answer 401. *)
Theorem key_endpoints_require_the_admin_key :
  forall (svc : auth.AuthService) (fault : bool) (api_key : gostring)
         (body : option gostring) (d : db.SQLiteDB),
    (api_key <> auth.apiKey svc ->
     auth2.GetKeys svc fault api_key d = auth2.Reply (JSON 401 "error" "Unauthorized") true
     /\ auth2.AddKey svc fault api_key body d
        = (auth2.Reply (JSON 401 "error" "Unauthorized") true, d))
    /\ (api_key = auth.apiKey svc ->
        (forall abort, auth2.GetKeys svc fault api_key d
                       <> auth2.Reply (JSON 401 "error" "Unauthorized") abort)
        /\ (forall abort, fst (auth2.AddKey svc fault api_key body d)
                          <> auth2.Reply (JSON 401 "error" "Unauthorized") abort)).
Proof.
  intros svc fault api_key body d. unfold auth2.GetKeys, auth2.AddKey. split.
  - intros Hne. apply str_eqb_neq in Hne. rewrite Hne. split; reflexivity.
  - intros ->. rewrite str_eqb_refl. cbn [negb]. split; intros abort.
    + unfold db2.GetKeys. destruct fault; discriminate.
    + destruct body as [key|]; [|discriminate].
      unfold db2.AddKey. destruct fault; discriminate.
Qed.

(** X16.  A key added through [AddKey] with the admin key is listed last
    by [GetKeys], passes the key check of [Register], and the users
    are untouched. *)
Theorem AddKey_then_GetKeys_and_ContainsKey :
  forall (svc : auth.AuthService) (key : gostring) (d : db.SQLiteDB),
    exists d1,
      auth2.AddKey svc false (auth.apiKey svc) (Some key) d
      = (auth2.Reply (JSON 200 "message" "key added") false, d1)
      /\ auth2.GetKeys svc false (auth.apiKey svc) d1
         = auth2.KeysReply (db.keys d ++ [key])
      /\ db.ContainsKey false d1 key = (true, None)
      /\ db.users d1 = db.users d.
Proof.
  intros svc key d. unfold auth2.AddKey, auth2.GetKeys.
  rewrite str_eqb_refl. cbn [negb db2.AddKey db2.GetKeys].
  eexists. split; [reflexivity|]. cbn [db.keys db.users]. repeat split.
  unfold db.ContainsKey. cbn [db.keys]. rewrite filter_app. cbn [filter].
  rewrite str_eqb_refl, length_app. cbn [List.length].
  destruct (Z.ltb_spec 0 (Z.of_nat (List.length (filter (str_eqb key) (db.keys d)) + 1)));
    [reflexivity|lia].
Qed.

(** X17.  [Migrate] never removes a row.  A run inserts the three keys
    it generates, in order, up to the first insertion that fails; a
    run without error has inserted all three, also into a table that
    holds keys already, so that two such runs leave six more keys. *)
Theorem Migrate_adds_its_keys_on_every_run :
  forall (NewString NewString' : nat -> gostring) (createFails : bool)
         (insertFails : nat -> bool) (s : db.SQLiteDB),
    (exists n,
        (n <= 3)%nat
        /\ db.keys (snd (db2.Migrate NewString createFails insertFails s))
           = db.keys s ++ firstn n (db2.genKeys NewString 3)
        /\ db.users (snd (db2.Migrate NewString createFails insertFails s)) = db.users s
        /\ (fst (db2.Migrate NewString createFails insertFails s) = None -> n = 3%nat))
    /\ db.keys (snd (db2.Migrate NewString' false (fun _ => false)
                       (snd (db2.Migrate NewString false (fun _ => false) s))))
       = db.keys s ++ db2.genKeys NewString 3 ++ db2.genKeys NewString' 3.
Proof.
  intros NewString NewString' createFails insertFails s. split.
  - unfold db2.Migrate. destruct createFails.
    { exists 0%nat. cbn. rewrite app_nil_r. repeat split; [lia|discriminate]. }
    cbn [db2.genKeys seq map db2.insertKeys]. unfold db2.AddKey.
    destruct (insertFails 0%nat).
    { exists 0%nat. cbn. rewrite app_nil_r. repeat split; [lia|discriminate]. }
    destruct (insertFails 1%nat).
    { exists 1%nat. cbn. repeat split; [lia|discriminate]. }
    destruct (insertFails 2%nat).
    { exists 2%nat. cbn. rewrite <- app_assoc. repeat split; [lia|discriminate]. }
    exists 3%nat. cbn. rewrite <- !app_assoc. repeat split. lia.
  - cbn. rewrite <- !app_assoc. reflexivity.
Qed.

(** ** Pagination *)

Lemma Atoi_FormatInt (n : Z) :
  0 <= n <= maxInt64 -> strconv2.Atoi (strconv.FormatInt n) = Some n.
Proof.
  intros Hn. unfold strconv2.Atoi, strconv.ParseInt.
  assert (Hn0 : 0 <= n) by lia.
  pose proof (FormatInt_digits n Hn0) as Hd. apply digits_runes in Hd.
  pose proof (FormatInt_nonempty n Hn0) as Hne.
  pose proof (FormatInt_value n Hn0) as Hv.
  destruct (map byte_val (strconv.FormatInt n)) as [|r tok] eqn:E.
  { destruct (strconv.FormatInt n); [contradiction|discriminate]. }
  cbn [forallb] in Hd. apply andb_true_iff in Hd as [Hr _].
  unfold strconv.isDigit in Hr. apply andb_true_iff in Hr as [H1 H2].
  apply Z.leb_le in H1, H2.
  destruct (Z.eqb_spec r 45); [lia|]. destruct (Z.eqb_spec r 43); [lia|].
  cbn [orb]. rewrite Hv. unfold maxInt64 in Hn.
  destruct (Z.ltb_spec n (2 ^ 63)); [reflexivity|lia].
Qed.

Lemma parsePaginationParams_range (queryLimit queryOffset : option gostring) :
  1 <= pictures2.limit (pictures2.parsePaginationParams queryLimit queryOffset) <= 100
  /\ 0 <= pictures2.offset (pictures2.parsePaginationParams queryLimit queryOffset).
Proof.
  unfold pictures2.parsePaginationParams.
  cbn [pictures2.limit pictures2.offset]. split.
  - destruct queryLimit as [q|]; [|lia].
    destruct (strconv2.Atoi q) as [n|]; [|lia].
    destruct (Z.ltb_spec 0 n); destruct (Z.leb_spec n 100); cbn [andb]; lia.
  - destruct queryOffset as [q|]; [|lia].
    destruct (strconv2.Atoi q) as [n|]; [|lia].
    destruct (Z.leb_spec 0 n); lia.
Qed.

(** X18.  Whatever the query says, the page asked of the database has a
    limit between 1 and 100 and an offset that is not negative. *)
Theorem parsePaginationParams_bounds :
  forall queryLimit queryOffset : option gostring,
    let p := pictures2.parsePaginationParams queryLimit queryOffset in
    1 <= pictures2.limit p <= 100 /\ 0 <= pictures2.offset p.
Proof.
  intros queryLimit queryOffset p. apply parsePaginationParams_range.
Qed.

(** X19.  A limit from 1 to 100 and an offset from 0 up, written in
    decimal, are taken as they are written. *)
Theorem parsePaginationParams_reads_decimal :
  forall n m : Z,
    1 <= n <= 100 -> 0 <= m <= maxInt64 ->
    pictures2.parsePaginationParams (Some (strconv.FormatInt n))
                                    (Some (strconv.FormatInt m))
    = {| pictures2.limit := n; pictures2.offset := m |}.
Proof.
  intros n m Hn Hm. unfold pictures2.parsePaginationParams.
  rewrite !Atoi_FormatInt by (unfold maxInt64 in *; lia).
  destruct (Z.ltb_spec 0 n); [|lia]. destruct (Z.leb_spec n 100); [|lia].
  destruct (Z.leb_spec 0 m); [|lia]. reflexivity.
Qed.

Lemma parsePaginationParams_reads_decimal_witness :
  pictures2.parsePaginationParams (Some go"25") (Some go"50")
  = {| pictures2.limit := 25; pictures2.offset := 50 |}.
Proof.
  apply (parsePaginationParams_reads_decimal 25 50).
  - lia.
  - unfold maxInt64. simpl. lia.
Defined.

(** ** Saved files *)

Lemma Join_plain (base name : gostring) :
  plainName base = true ->
  without filepath.Separator name = true -> name <> filepath.dotdot ->
  filepath.Join [base; name]
  = if str_eqb name [] || str_eqb name filepath.dot then base
    else base ++ filepath.Separator :: name.
Proof.
  unfold plainName. intros Hb Hn Hdd.
  apply andb_true_iff in Hb as [Hb Hb4]. apply andb_true_iff in Hb as [Hb Hb3].
  apply andb_true_iff in Hb as [Hb1 Hb2].
  apply negb_true_iff in Hb1, Hb3, Hb4. apply str_eqb_neq in Hdd.
  destruct base as [|c base']; [discriminate|].
  cbn [filepath.Join strings.Join].
  set (base := c :: base') in *.
  unfold filepath.Clean.
  assert (Hpath : base ++ [filepath.Separator] ++ name
                  = c :: base' ++ filepath.Separator :: name) by reflexivity.
  rewrite Hpath.
  assert (Hc : Ascii.eqb c filepath.Separator = false).
  { unfold base, without in Hb2. cbn [forallb] in Hb2.
    apply andb_true_iff in Hb2 as [Hc _]. now apply negb_true_iff in Hc. }
  rewrite Hc.
  change (c :: base' ++ filepath.Separator :: name)
    with (base ++ filepath.Separator :: name).
  rewrite Split_app by assumption. rewrite Split_without by assumption.
  cbn [filepath.clean_elems]. rewrite Hb1, Hb3, Hb4. cbn [orb].
  destruct (str_eqb name [] || str_eqb name filepath.dot) eqn:Hskip.
  - cbn [rev app strings.Join]. reflexivity.
  - rewrite Hdd. cbn [rev app strings.Join]. reflexivity.
Qed.

Lemma Join_plain_inside (base name : gostring) :
  plainName base = true ->
  without filepath.Separator name = true -> name <> filepath.dotdot ->
  pictures.insideDir base (filepath.Join [base; name]) = true
  /\ strings.HasPrefix (filepath.Join [base; name]) base = true.
Proof.
  intros Hb Hn Hdd. rewrite Join_plain by assumption.
  unfold pictures.insideDir.
  destruct (str_eqb name [] || str_eqb name filepath.dot).
  - rewrite str_eqb_refl. split; [reflexivity|].
    rewrite <- (app_nil_r base) at 1. apply HasPrefix_prefix_app.
  - split.
    + apply orb_true_iff. right.
      change (base ++ filepath.Separator :: name)
        with (base ++ [filepath.Separator] ++ name).
      rewrite app_assoc. apply HasPrefix_prefix_app.
    + apply HasPrefix_prefix_app.
Qed.

Lemma Ext_shape (path : gostring) :
  filepath2.Ext path = []
  \/ exists rest,
      filepath2.Ext path = "."%char :: rest
      /\ existsb (filepath2.isByte ".") rest = false
      /\ existsb (filepath2.isByte filepath.Separator) rest = false.
Proof.
  induction path as [|c rest IH]; cbn [filepath2.Ext]; [now left|].
  destruct (existsb (filepath2.isByte filepath.Separator) rest) eqn:Hs; [exact IH|].
  destruct (existsb (filepath2.isByte ".") rest) eqn:Hd; [exact IH|].
  destruct (Ascii.eqb_spec c "."); [|now left].
  subst c. right. exists rest. auto.
Qed.

Lemma below_16 (P : Z -> Prop) :
  (forall k : nat, (k < 16)%nat -> P (Z.of_nat k)) ->
  forall v, 0 <= v < 16 -> P v.
Proof.
  intros H v Hv. rewrite <- (Z2Nat.id v) by lia. apply H. lia.
Qed.

Lemma hexDigit_plain (n : Z) :
  0 <= n < 16 ->
  Ascii.eqb (pictures2.hexDigit n) "." = false
  /\ Ascii.eqb (pictures2.hexDigit n) filepath.Separator = false.
Proof.
  revert n. apply below_16. intros k Hk.
  do 16 (destruct k as [|k]; [split; reflexivity|]). lia.
Qed.

Lemma hex_plain (bytes : list ascii) :
  forallb (fun c => negb (Ascii.eqb c ".") && negb (Ascii.eqb c filepath.Separator))
          (pictures2.hex bytes) = true.
Proof.
  unfold pictures2.hex. induction bytes as [|b bytes IH]; [reflexivity|].
  cbn [flat_map app forallb].
  pose proof (byte_val_range b) as Hb.
  destruct (hexDigit_plain (byte_val b / 16)) as [H1 H2].
  { split; [apply Z.div_pos; lia|apply Z.div_lt_upper_bound; lia]. }
  destruct (hexDigit_plain (byte_val b mod 16)) as [H3 H4].
  { apply Z.mod_pos_bound. lia. }
  rewrite H1, H2, H3, H4, IH. reflexivity.
Qed.

Lemma existsb_false_without (b : ascii) (s : gostring) :
  existsb (filepath2.isByte b) s = false -> without b s = true.
Proof.
  unfold without, filepath2.isByte. induction s as [|c s IH]; [reflexivity|].
  cbn [existsb forallb]. intros H. apply orb_false_iff in H as [Hc Hs].
  now rewrite Hc, (IH Hs).
Qed.

Lemma generateSafeFileName_plain (Sum256 : gostring -> gostring)
      (now original : gostring) :
  without filepath.Separator (pictures2.generateSafeFileName Sum256 now original) = true
  /\ pictures2.generateSafeFileName Sum256 now original <> filepath.dotdot.
Proof.
  unfold pictures2.generateSafeFileName.
  pose proof (hex_plain (Sum256 (original ++ now))) as Hhex.
  set (h := pictures2.hex (Sum256 (original ++ now))) in *.
  assert (Hhsep : without filepath.Separator h = true).
  { unfold without. revert Hhex. apply forallb_impl. intros c Hc.
    apply andb_true_iff in Hc. tauto. }
  destruct (Ext_shape original) as [He|(rest & He & Hd & Hs)]; rewrite He.
  - rewrite app_nil_r. split; [assumption|].
    intros Heq. rewrite Heq in Hhex. discriminate.
  - split.
    + rewrite without_app, Hhsep. cbn [andb].
      unfold without. cbn [forallb]. cbn.
      now apply existsb_false_without.
    + destruct h as [|c h'].
      * cbn [app]. intros Heq. inversion Heq; subst rest. discriminate.
      * cbn [app]. intros Heq. inversion Heq; subst c.
        cbn [forallb] in Hhex. discriminate.
Qed.

(** X20.  The name [generateSafeFileName] makes has no separator and is
    not [..], whatever the uploaded file is called; joined to a base
    directory of one plain name, such as [images], it gives a path
    inside that directory. *)
Theorem generateSafeFileName_stays_in_base :
  forall (Sum256 : gostring -> gostring) (now original base : gostring),
    plainName base = true ->
    without filepath.Separator (pictures2.generateSafeFileName Sum256 now original) = true
    /\ pictures2.generateSafeFileName Sum256 now original <> filepath.dotdot
    /\ pictures.insideDir base
         (filepath.Join [base; pictures2.generateSafeFileName Sum256 now original])
       = true.
Proof.
  intros Sum256 now original base Hb.
  destruct (generateSafeFileName_plain Sum256 now original) as [Hs Hd].
  repeat split; try assumption.
  now apply Join_plain_inside.
Qed.

Lemma generateSafeFileName_stays_in_base_witness :
  let name := pictures2.generateSafeFileName (fun m => m) go"2024-02-14"
                go"../../etc/passwd.png" in
  without filepath.Separator name = true
  /\ name <> filepath.dotdot
  /\ pictures.insideDir go"images" (filepath.Join [go"images"; name]) = true.
Proof.
  intros name.
  apply (generateSafeFileName_stays_in_base (fun m => m) go"2024-02-14"
           go"../../etc/passwd.png" go"images").
  reflexivity.
Defined.

(** X21.  [validateAndSaveFile] changes the file system at one path at
    most: the safe name under the base directory, and only for a file
    whose content type begins with [image/].  With a base directory of
    one plain name that path lies inside it. *)
Theorem validateAndSaveFile_writes_only_the_safe_path :
  forall (svc : pictures.PicturesService) (Sum256 : gostring -> gostring)
         (now : gostring) (faults : pictures2.SaveFaults)
         (file : pictures2.FileHeader) (fs : pictures.FileSystem) (p : gostring),
    plainName (pictures.basePath svc) = true ->
    snd (pictures2.validateAndSaveFile svc Sum256 now faults file fs) p <> fs p ->
    strings.HasPrefix (pictures2.ContentType file) go"image/" = true
    /\ p = filepath.Join [pictures.basePath svc;
                          pictures2.generateSafeFileName Sum256 now
                            (pictures2.Filename file)]
    /\ pictures.insideDir (pictures.basePath svc) p = true.
Proof.
  intros svc Sum256 now faults file fs p Hb.
  unfold pictures2.validateAndSaveFile.
  destruct (strings.HasPrefix _ go"image/"); cbn [negb snd]; [|congruence].
  unfold pictures2.saveUploadedFile.
  destruct (pictures2.openFails faults); cbn [snd]; [congruence|].
  destruct (pictures2.createFails faults); cbn [snd]; [congruence|].
  assert (Hw : forall content,
             pictures2.writeFile fs
               (filepath.Join [pictures.basePath svc;
                  pictures2.generateSafeFileName Sum256 now (pictures2.Filename file)])
               content p <> fs p ->
             p = filepath.Join [pictures.basePath svc;
                   pictures2.generateSafeFileName Sum256 now (pictures2.Filename file)]).
  { intros content. unfold pictures2.writeFile.
    destruct (str_eqb p _) eqn:E; [intros _; now apply str_eqb_eq|congruence]. }
  destruct (generateSafeFileName_plain Sum256 now (pictures2.Filename file)) as [Hs Hd].
  destruct (pictures2.copyStops faults); cbn [snd]; intros H; apply Hw in H;
    (split; [reflexivity|]; split; [exact H|]; rewrite H;
     now apply Join_plain_inside).
Qed.

Lemma validateAndSaveFile_writes_only_the_safe_path_witness :
  let svc := {| pictures.basePath := go"images" |} in
  let file := {| pictures2.Filename := go"a.png";
                 pictures2.ContentType := go"image/png";
                 pictures2.Content := go"PNG" |} in
  let p := filepath.Join [go"images";
             pictures2.generateSafeFileName (fun m => m) go"t" go"a.png"] in
  strings.HasPrefix go"image/png" go"image/" = true
  /\ p = p
  /\ pictures.insideDir go"images" p = true.
Proof.
  intros svc file p.
  apply (validateAndSaveFile_writes_only_the_safe_path svc (fun m => m) go"t"
           pictures2.noFaults file (fun _ => None) p).
  - reflexivity.
  - discriminate.
Defined.

(** X22.  A picture saved by [validateAndSaveFile] is served by
    [GetPicture] under the name that was returned, on a date the gate
    lets through: the bytes served are the bytes uploaded. *)
Theorem uploaded_picture_is_served :
  forall (svc : pictures.PicturesService) (Sum256 : gostring -> gostring)
         (stamp : gostring) (file : pictures2.FileHeader)
         (fs fs' : pictures.FileSystem) (filename : gostring)
         (cal : pictures.Calendar) (now : pictures.Time) (c : Context),
    plainName (pictures.basePath svc) = true ->
    pictures.outsideAllowedDates cal now = false ->
    pictures2.validateAndSaveFile svc Sum256 stamp pictures2.noFaults file fs
    = (inl filename, fs') ->
    pictures.GetPicture svc cal now fs' filename c
    = Returned (gin.write c
        (File (filepath.Join [pictures.basePath svc; filename])
              (pictures2.Content file))).
Proof.
  intros svc Sum256 stamp file fs fs' filename cal now c Hb Hgate.
  unfold pictures2.validateAndSaveFile.
  destruct (strings.HasPrefix _ go"image/"); cbn [negb]; [|discriminate].
  cbn [pictures2.saveUploadedFile pictures2.noFaults pictures2.openFails
       pictures2.createFails pictures2.copyStops].
  intros H. inversion H; subst filename fs'. clear H.
  destruct (generateSafeFileName_plain Sum256 stamp (pictures2.Filename file)) as [Hs Hd].
  destruct (Join_plain_inside _ _ Hb Hs Hd) as [_ Hp].
  unfold pictures.GetPicture. rewrite Hgate, Hp. cbn [negb].
  unfold pictures2.writeFile. rewrite str_eqb_refl. reflexivity.
Qed.

Lemma uploaded_picture_is_served_witness :
  let svc := {| pictures.basePath := go"images" |} in
  let file := {| pictures2.Filename := go"a.png";
                 pictures2.ContentType := go"image/png";
                 pictures2.Content := go"PNG" |} in
  let filename := pictures2.generateSafeFileName (fun m => m) go"t" go"a.png" in
  pictures.GetPicture svc (pictures.calendar 3)
    {| pictures.Day := 3; pictures.Month := 7 |}
    (snd (pictures2.validateAndSaveFile svc (fun m => m) go"t" pictures2.noFaults
            file (fun _ => None)))
    filename newContext
  = Returned (gin.write newContext
      (File (filepath.Join [go"images"; filename]) go"PNG")).
Proof.
  intros svc file filename.
  apply (uploaded_picture_is_served svc (fun m => m) go"t" file (fun _ => None)).
  - reflexivity.
  - reflexivity.
  - reflexivity.
Defined.

(** ** The metrics endpoint *)

Lemma Contains_app (u p v : gostring) : strings2.Contains (u ++ p ++ v) p = true.
Proof.
  unfold strings2.Contains.
  induction u as [|c u IH]; cbn [app strings2.Index].
  - pose proof (HasPrefix_prefix_app p v) as H.
    destruct (p ++ v); cbn [strings2.Index]; now rewrite H.
  - destruct (strings.HasPrefix (c :: u ++ p ++ v) p); [reflexivity|].
    destruct (strings2.Index (u ++ p ++ v) p); [reflexivity|discriminate].
Qed.

Lemma HasPrefix_nth (p s : gostring) (i : nat) :
  strings.HasPrefix s p = true -> (i < List.length p)%nat ->
  nth_error s i = nth_error p i.
Proof.
  revert s i. induction p as [|a p IH]; intros s i H Hi; [cbn in Hi; lia|].
  destruct s as [|c s]; cbn [strings.HasPrefix] in H; [discriminate|].
  apply andb_true_iff in H as [Hc Hs]. apply Ascii.eqb_eq in Hc. subst c.
  destruct i as [|i]; [reflexivity|].
  cbn [nth_error]. apply IH; [assumption|cbn in Hi; lia].
Qed.

Lemma without_nth (b : ascii) (s : gostring) (i : nat) :
  without b s = true -> nth_error s i <> Some b.
Proof.
  unfold without. intros Hs Hn. apply nth_error_In in Hn.
  rewrite forallb_forall in Hs. specialize (Hs _ Hn).
  now rewrite Ascii.eqb_refl in Hs.
Qed.

(** No piece of a string without space begins with [Bearer ] unless
    it is past the string. *)
Lemma HasPrefix_Bearer_false (c : ascii) (u x : gostring) :
  without " " (c :: u) = true ->
  strings.HasPrefix ((c :: u) ++ server2.bearerSep ++ x) server2.bearerSep = false.
Proof.
  intros Hu. destruct (strings.HasPrefix _ _) eqn:H; [exfalso|reflexivity].
  apply (HasPrefix_nth _ _ 6) in H; [|cbn; lia].
  change (nth_error server2.bearerSep 6) with (Some " "%char) in H.
  destruct (Nat.lt_ge_cases 6 (List.length (c :: u))) as [Hl|Hl].
  - rewrite nth_error_app1 in H by assumption. exact (without_nth _ _ _ Hu H).
  - rewrite nth_error_app2 in H by assumption.
    assert (Hk : (6 - List.length (c :: u) < 6)%nat) by (cbn [List.length]; lia).
    revert H. generalize (6 - List.length (c :: u))%nat, Hk. intros k Hk'.
    do 6 (destruct k as [|k]; [discriminate|]). lia.
Qed.

Lemma Index_Bearer (u x : gostring) :
  without " " u = true ->
  strings2.Index (u ++ server2.bearerSep ++ x) server2.bearerSep
  = Some (List.length u).
Proof.
  induction u as [|c u IH]; intros Hu.
  - cbn [app]. destruct (server2.bearerSep ++ x) eqn:E; [discriminate|].
    cbn [strings2.Index]. rewrite <- E, HasPrefix_prefix_app. reflexivity.
  - pose proof (HasPrefix_Bearer_false c u x Hu) as Hp.
    cbn [app] in Hp |- *. cbn [strings2.Index]. rewrite Hp.
    unfold without in Hu. cbn [forallb] in Hu. apply andb_true_iff in Hu as [_ Hu].
    rewrite (IH Hu). reflexivity.
Qed.

Lemma Index_without (u : gostring) :
  without " " u = true -> strings2.Index u server2.bearerSep = None.
Proof.
  induction u as [|c u IH]; intros Hu; [reflexivity|].
  cbn [strings2.Index].
  destruct (strings.HasPrefix (c :: u) server2.bearerSep) eqn:H.
  - exfalso. apply (HasPrefix_nth _ _ 6) in H; [|cbn; lia].
    exact (without_nth _ _ _ Hu H).
  - unfold without in Hu. cbn [forallb] in Hu. apply andb_true_iff in Hu as [_ Hu].
    now rewrite (IH Hu).
Qed.

Lemma Split_one_piece (s sep : gostring) :
  strings2.Index s sep = None -> strings2.Split s sep = [s].
Proof.
  unfold strings2.Split. intros H.
  destruct (List.length s); cbn [strings2.splitLoop]; [reflexivity|].
  now rewrite H.
Qed.

(** X23.  [PrometheusAuthMiddleware] panics on a header that contains
    [Bearer] but nowhere [Bearer] followed by a space: the split has
    one piece and the piece at index 1 is read. *)
Theorem PrometheusAuthMiddleware_panics_without_space :
  forall (a : server.Api) (apiKey : gostring) (c : Context),
    strings2.Contains apiKey go"Bearer" = true ->
    strings2.Contains apiKey go"Bearer " = false ->
    server2.PrometheusAuthMiddleware a apiKey c = Panicked c.
Proof.
  intros a apiKey c Hin Hout. unfold server2.PrometheusAuthMiddleware.
  rewrite Hin. cbn [negb].
  rewrite Split_one_piece; [reflexivity|].
  unfold strings2.Contains in Hout.
  change server2.bearerSep with go"Bearer ".
  destruct (strings2.Index apiKey go"Bearer "); [discriminate|reflexivity].
Qed.

Lemma PrometheusAuthMiddleware_panics_without_space_witness :
  server2.PrometheusAuthMiddleware
    {| server.jwtKey := go"k"; server.prometheusKey := go"metrics";
       server.apiKey := go"admin" |}
    go"Bearer" newContext
  = Panicked newContext.
Proof.
  apply PrometheusAuthMiddleware_panics_without_space; reflexivity.
Defined.

(** X24.  [PrometheusAuthMiddleware] compares the piece between the
    first and the second [Bearer ] with the key: what stands before
    the first one and after the second one is not looked at.  For a
    key and a leading part without space the request passes untouched
    exactly when the key is the configured one, and is answered 401
    and aborted otherwise. *)
Theorem PrometheusAuthMiddleware_checks_second_piece :
  forall (a : server.Api) (lead key rest : gostring) (c : Context),
    without " " lead = true ->
    without " " key = true ->
    rest = [] \/ strings.HasPrefix rest go"Bearer " = true ->
    server2.PrometheusAuthMiddleware a (lead ++ go"Bearer " ++ key ++ rest) c
    = if str_eqb key (server.prometheusKey a) then Returned c
      else Returned (gin.Abort (gin.write c (JSON 401 "error" "Unauthorized"))).
Proof.
  intros a lead key rest c Hlead Hkey Hrest.
  unfold server2.PrometheusAuthMiddleware.
  change go"Bearer " with (go"Bearer" ++ go" ") at 1.
  rewrite <- (app_assoc go"Bearer" go" ").
  rewrite Contains_app. cbn [negb].
  change (go"Bearer" ++ go" " ++ key ++ rest) with (server2.bearerSep ++ key ++ rest).
  assert (Hpiece : nth_error
            (strings2.Split (lead ++ server2.bearerSep ++ key ++ rest) server2.bearerSep) 1
          = Some key).
  { unfold strings2.Split.
    assert (Hlen : (2 <= List.length (lead ++ server2.bearerSep ++ key ++ rest))%nat).
    { rewrite !length_app. cbn [List.length server2.bearerSep list_ascii_of_string]. lia. }
    destruct (List.length (lead ++ server2.bearerSep ++ key ++ rest)) as [|[|fuel]];
      [lia|lia|].
    cbn [strings2.splitLoop]. rewrite (Index_Bearer lead (key ++ rest) Hlead).
    rewrite Nat.add_comm, <- skipn_skipn, skipn_app_prefix, skipn_app_prefix.
    cbn [nth_error].
    destruct Hrest as [->|Hrest].
    - rewrite app_nil_r, (Index_without key Hkey). reflexivity.
    - assert (Hsplit : rest = server2.bearerSep ++ skipn 7 rest).
      { clear - Hrest. unfold server2.bearerSep.
        do 7 (destruct rest as [|? rest]; [discriminate|];
              cbn [strings.HasPrefix list_ascii_of_string] in Hrest;
              apply andb_true_iff in Hrest as [Hc Hrest];
              apply Ascii.eqb_eq in Hc; subst).
        reflexivity. }
      rewrite Hsplit, (Index_Bearer key _ Hkey).
      now rewrite firstn_app, Nat.sub_diag, firstn_all, firstn_O, app_nil_r. }
  change go"Bearer " with server2.bearerSep. rewrite Hpiece.
  destruct (str_eqb key (server.prometheusKey a)); reflexivity.
Qed.

Lemma PrometheusAuthMiddleware_checks_second_piece_witness :
  server2.PrometheusAuthMiddleware
    {| server.jwtKey := go"k"; server.prometheusKey := go"metrics";
       server.apiKey := go"admin" |}
    go"BasicBearer metricsBearer anything at all" newContext
  = Returned newContext.
Proof.
  apply (PrometheusAuthMiddleware_checks_second_piece
           {| server.jwtKey := go"k"; server.prometheusKey := go"metrics";
              server.apiKey := go"admin" |}
           go"Basic" go"metrics" go"Bearer anything at all" newContext).
  - reflexivity.
  - reflexivity.
  - right. reflexivity.
Defined.
